(** * Speaker clustering engine of the diarization service

    Shallow embedding of [cluster_speakers] and
    [cluster_speakers_personalized] (src/services/diarization/main.py),
    together with the choice between them made by [diarize_audio].

    Python floats are IEEE binary64 numbers: they are modelled by Rocq's
    primitive [float], whose comparisons have the same NaN behaviour.  A 1-D
    [np.ndarray] is the [list float] of the values of its components (every
    float32 number is a binary64 number), a missing embedding is [None], and
    an exception raised by Python is the [Raise] case of [result].  A NumPy
    scalar keeps its type, [np.float32] or [np.float64]: NumPy computes and
    compares in that type, to which it converts a Python number first.  What
    the functions print is diagnostic: it is modelled where a property is
    about the effects of a call ([cluster_speakers_io]) or where printing
    can raise (lines 458-460), and left out elsewhere.  What a request holds
    is not validated by the code: the decoded values are [json] values, and
    each operation on them is the Python operation with its exceptions.

    The numeric routines the code imports (scipy, scikit-learn, numpy) are
    not code of the repository: they are the fields of the record [SciLib],
    and what their documentation promises is the record [SciLibSpec]. *)

From Stdlib Require Import ZArith Lia Bool List String Ascii Arith Permutation.
From Stdlib Require Import Floats DecimalString DecimalNat.
From Stdlib Require Import Sorted.
Import ListNotations.

Set Warnings "-inexact-float,-register-all".

(** ** Python values and exceptions *)

Inductive exn : Type := ValueError | IndexError.

Inductive result (A : Type) : Type :=
| Ok (a : A)
| Raise (e : exn).

Arguments Ok {A} a.
Arguments Raise {A} e.

Definition bind {A B : Type} (r : result A) (k : A -> result B) : result B :=
  match r with
  | Ok a => k a
  | Raise e => Raise e
  end.

Notation "x <- r ;; k" := (bind r (fun x => k))
  (at level 61, r at next level, right associativity).
Notation "' p <- r ;; k" := (bind r (fun x => match x with p => k end))
  (at level 61, p pattern, r at next level, right associativity).

(** A 1-D [np.ndarray] of floats, and a 2-D one given by its rows. *)
Definition ndarray := list float.
Definition Matrix := list ndarray.

(** What [json.loads] returns: [None], a [bool], an [int], a [float], a
    [str], a [list] or a [dict], the latter as the list of its items (their
    keys are distinct).  A string is the list of its characters. *)
Inductive json : Type :=
| JNull
| JBool (b : bool)
| JInt (n : Z)
| JFloat (x : float)
| JString (s : string)
| JArray (items : list json)
| JObject (members : list (string * json)).

(** A transcript segment is an element of the decoded [segments] field:
    expected to be a dictionary [{"start": .., "end": .., "text": ..}], it is
    whatever the request holds.  [mkSegment] is the dictionary of line
    465. *)
Abbreviation Segment := json (only parsing).

Definition mkSegment (seg_start seg_end : float) (seg_text : string) : Segment :=
  JObject [("start"%string, JFloat seg_start); ("end"%string, JFloat seg_end);
           ("text"%string, JString seg_text)].

(** [f"{n}"] for a non-negative integer. *)
Definition str_of_nat (n : nat) : string :=
  NilEmpty.string_of_uint (Nat.to_uint n).

(** [range(a, b)]. *)
Definition range (a b : nat) : list nat := seq a (b - a).

(** [enumerate(l)], counting from [i]. *)
Fixpoint enumerate_from {A : Type} (i : nat) (l : list A) : list (nat * A) :=
  match l with
  | [] => []
  | x :: r => (i, x) :: enumerate_from (S i) r
  end.

Definition enumerate {A : Type} (l : list A) : list (nat * A) :=
  enumerate_from 0 l.

Definition is_some {A : Type} (o : option A) : bool :=
  match o with
  | Some _ => true
  | None => false
  end.

(** [l[i] = v]: Python raises [IndexError] out of range. *)
Fixpoint list_set {A : Type} (l : list A) (i : nat) (v : A) : result (list A) :=
  match l, i with
  | [], _ => Raise IndexError
  | _ :: r, O => Ok (v :: r)
  | x :: r, S j => r' <- list_set r j v ;; Ok (x :: r')
  end.

(** [l[i]]. *)
Definition list_get {A : Type} (l : list A) (i : nat) : result A :=
  match nth_error l i with
  | Some x => Ok x
  | None => Raise IndexError
  end.

(** [len(set(labels))]. *)
Definition len_set (labels : list nat) : nat :=
  List.length (nodup Nat.eq_dec labels).

(** [np.vstack] of 1-D arrays: one row each, all of the same length, and at
    least one array. *)
Definition vstack (rows : list ndarray) : result Matrix :=
  match rows with
  | [] => Raise ValueError
  | r :: rest =>
      if forallb (fun r' => List.length r' =? List.length r) rest
      then Ok rows
      else Raise ValueError
  end.

(** [np.bincount]: entry [v] counts the occurrences of [v], for [v] up to the
    largest value present; the empty array gives the empty array. *)
Definition bincount (l : list nat) : list nat :=
  match l with
  | [] => []
  | _ => map (count_occ Nat.eq_dec l) (seq 0 (S (list_max l)))
  end.

(** [ndarray.argmax()]: the first index holding the maximum. *)
Fixpoint argmax_from (l : list nat) (i best_i best_v : nat) : nat :=
  match l with
  | [] => best_i
  | x :: r =>
      if best_v <? x then argmax_from r (S i) i x
      else argmax_from r (S i) best_i best_v
  end.

Definition argmax (l : list nat) : result nat :=
  match l with
  | [] => Raise ValueError
  | x :: r => Ok (argmax_from r 1 0 x)
  end.

(** ** NumPy scalars

    [cosine] and [silhouette_score] return a NumPy scalar, [np.float32] or
    [np.float64] according to the arrays they are run on (the arrays of
    [diarize_audio] are float32).  A scalar is its type and its value.  With
    NumPy 2 a Python number met by a scalar in an operation or a comparison is
    first converted to the type of the scalar, and the result of an operation
    has that type. *)

Inductive dtype : Type := float32 | float64.

Record np_float : Type := mkNp { np_dtype : dtype; np_value : float }.

(** [N / 2^sh] rounded to the nearest integer, ties to even. *)
Definition round_half_even (N sh : Z) : Z :=
  let q := (N / 2 ^ sh)%Z in
  let r := (N mod 2 ^ sh)%Z in
  match (2 * r ?= 2 ^ sh)%Z with
  | Lt => q
  | Gt => (q + 1)%Z
  | Eq => if Z.even q then q else (q + 1)%Z
  end.

(** The magnitude [N], counted in units of [2^-1074], rounded to binary32:
    24 significant bits, and no bit below [2^-149 = 2^(925-1074)]. *)
Definition round32 (N : Z) : Z :=
  let sh := Z.max (Z.log2 N - 23) 925 in
  (round_half_even N sh * 2 ^ sh)%Z.

(** Rounding to binary32, to nearest and ties to even; the result is written
    as the binary64 number it is.  A magnitude of [2^128 = 2^(1202-1074)] or
    more overflows. *)
Definition SF32 (f : spec_float) : spec_float :=
  match f with
  | S754_finite s m e =>
      let R := round32 (Z.pos m * 2 ^ (e + 1074)) in
      if (R =? 0)%Z then S754_zero s
      else if (2 ^ 1202 <=? R)%Z then S754_infinity s
      else let k := (Z.log2 R - 52)%Z in
           S754_finite s (Z.to_pos (R / 2 ^ k)) (k - 1074)
  | _ => f
  end.

(** [np.float32(x)] for a Python float [x], as a binary64 number. *)
Definition to_float32 (x : float) : float := SF2Prim (SF32 (Prim2SF x)).

(** The same with the rounding function of the Standard Library, to compare
    the two on examples. *)
Definition to_float32_ref (x : float) : float :=
  match Prim2SF x with
  | S754_finite s m e =>
      SF2Prim (binary_normalize 24 128 (if s then Z.neg m else Z.pos m) e s)
  | _ => x
  end.

(** The exact value of a float, to compare floats as integers: the
    magnitude [mag] of a finite float in units of [2^-1074], a bound [INF]
    beyond every finite magnitude for the infinities, and the value [ord]
    with its sign.  [round32_ord] is the rounding to binary32 on these
    values. *)
Definition mag (m : positive) (e : Z) : Z := (Z.pos m * 2 ^ (e + 1074))%Z.

Definition INF : Z := (2 ^ 2200)%Z.

Definition ord (f : spec_float) : Z :=
  match f with
  | S754_nan | S754_zero _ => 0%Z
  | S754_infinity s => if s then (- INF)%Z else INF
  | S754_finite s m e => if s then (- mag m e)%Z else mag m e
  end.

Definition clamp32 (N : Z) : Z :=
  let R := round32 N in if (2 ^ 1202 <=? R)%Z then INF else R.

Definition round32_ord (z : Z) : Z :=
  if (z =? 0)%Z then 0%Z
  else if (INF <=? Z.abs z)%Z then z
  else (Z.sgn z * clamp32 (Z.abs z))%Z.

(** The conversion of a Python number to a type. *)
Definition cast (dt : dtype) (x : float) : float :=
  match dt with
  | float32 => to_float32 x
  | float64 => x
  end.

(** [1 - d]: computed in the type of [d].  The binary64 difference rounded to
    binary32 is the binary32 difference, 53 bits being more than twice 24
    bits plus 2. *)
Definition np_rsub_one (d : np_float) : np_float :=
  mkNp (np_dtype d) (cast (np_dtype d) (1 - np_value d)%float).

(** [s >= t], [s < t] and [s > t] for a scalar [s] and a Python number [t]. *)
Definition np_ge (s : np_float) (t : float) : bool :=
  (cast (np_dtype s) t <=? np_value s)%float.

Definition np_lt (s : np_float) (t : float) : bool :=
  (np_value s <? cast (np_dtype s) t)%float.

Definition np_gt (s : np_float) (t : float) : bool :=
  (cast (np_dtype s) t <? np_value s)%float.

(** What [best_score] holds: the Python integer it starts with, or a score.
    Two scalars are compared on their values (a float32 and a float64 are
    compared as float64). *)
Inductive py_number : Type :=
| PyNumber (x : float)
| NpNumber (s : np_float).

Definition number_value (b : py_number) : float :=
  match b with
  | PyNumber x => x
  | NpNumber s => np_value s
  end.

(** [score > best_score] *)
Definition np_gt_number (score : np_float) (best_score : py_number) : bool :=
  match best_score with
  | PyNumber x => np_gt score x
  | NpNumber b => (np_value b <? np_value score)%float
  end.

(** [best_score > t] for a Python float [t]. *)
Definition number_gt (best_score : py_number) (t : float) : bool :=
  match best_score with
  | PyNumber x => (t <? x)%float
  | NpNumber s => np_gt s t
  end.

(** ** The imported numeric routines *)

Record SciLib : Type := mkSciLib {
  (** [scipy.spatial.distance.cosine(u, v)] *)
  cosine : ndarray -> ndarray -> result np_float;
  (** [StandardScaler().fit_transform(X)] *)
  fit_transform : Matrix -> result Matrix;
  (** [scipy.cluster.hierarchy.linkage(X, method='ward')] *)
  linkage : Matrix -> result Matrix;
  (** [scipy.spatial.distance.pdist(X, metric='euclidean')] *)
  pdist : Matrix -> result (list float);
  (** [np.max] *)
  np_max : list float -> result float;
  (** [AgglomerativeClustering(n_clusters=n, linkage='ward').fit_predict(X)] *)
  fit_predict : nat -> Matrix -> result (list nat);
  (** [sklearn.metrics.silhouette_score(X, labels)] *)
  silhouette_score : Matrix -> list nat -> result np_float
}.

(** ** The clustering engine *)

Section Engine.

Variable L : SciLib.

Open Scope float_scope.

(** [valid_indices = [i for i, e in enumerate(embeddings) if e is not None]] *)
Definition valid_indices (embeddings : list (option ndarray)) : list nat :=
  map fst (filter (fun ie => is_some (snd ie)) (enumerate embeddings)).

(** [valid_embeddings = [embeddings[i] for i in valid_indices]]; the entries
    are arrays, [valid_indices] holding no index of a [None]. *)
Definition valid_embeddings (embeddings : list (option ndarray)) : list ndarray :=
  flat_map (fun i => match nth i embeddings None with
                     | Some e => [e]
                     | None => []
                     end)
           (valid_indices embeddings).

(** The search loop over the candidate cluster counts (lines 289-297 and
    385-393, the same loop twice): [best] is the pair
    [(best_score, best_n)]. *)
Fixpoint search_clusters (ns : list nat) (X_scaled : Matrix)
    (best : py_number * nat) : result (py_number * nat) :=
  match ns with
  | [] => Ok best
  | n :: rest =>
      labels <- fit_predict L n X_scaled ;;
      if (1 <? len_set labels)%nat then
        score <- silhouette_score L X_scaled labels ;;
        if np_gt_number score (fst best)
        then search_clusters rest X_scaled (NpNumber score, n)
        else search_clusters rest X_scaled best
      else search_clusters rest X_scaled best
  end.

(** Lines 408-416: the labels of the valid embeddings go back to their
    indices, a [None] embedding takes [most_common_label]. *)
Fixpoint map_back (embeddings : list (option ndarray)) (valid_labels : list nat)
    (most_common_label valid_label_idx : nat) : result (list string) :=
  match embeddings with
  | [] => Ok []
  | Some _ :: rest =>
      l <- list_get valid_labels valid_label_idx ;;
      all_labels <- map_back rest valid_labels most_common_label (S valid_label_idx) ;;
      Ok (("speaker_" ++ str_of_nat l)%string :: all_labels)
  | None :: rest =>
      all_labels <- map_back rest valid_labels most_common_label valid_label_idx ;;
      Ok (("speaker_" ++ str_of_nat most_common_label)%string :: all_labels)
  end.

Definition two_speaker_threshold : float := 19.

(** [cluster_speakers(embeddings, segments)], lines 343-418. *)
Definition cluster_speakers (embeddings : list (option ndarray))
    (segments : list Segment) : result (list string) :=
  match embeddings with
  | [] => Ok []
  | _ =>
    match valid_embeddings embeddings with
    | [] => Ok (repeat "speaker_0"%string (List.length embeddings))
    | valid =>
      X <- vstack valid ;;
      if (List.length X <? 2)%nat
      then Ok (repeat "speaker_0"%string (List.length embeddings))
      else
        X_scaled <- fit_transform L X ;;
        _ <- linkage L X_scaled ;;
        distances <- pdist L X_scaled ;;
        max_distance <- np_max L distances ;;
        n_clusters <-
          (if max_distance <? two_speaker_threshold then Ok 1%nat
           else
             let max_clusters := Nat.min 10 (List.length X - 1) in
             best <- search_clusters (range 2 (max_clusters + 1)) X_scaled
                       (PyNumber (-1), 2%nat) ;;
             Ok (snd best)) ;;
        if (n_clusters =? 1)%nat
        then Ok (repeat "speaker_0"%string (List.length embeddings))
        else
          valid_labels <- fit_predict L n_clusters X_scaled ;;
          most_common_label <- argmax (bincount valid_labels) ;;
          map_back embeddings valid_labels most_common_label 0
    end
  end.

(** Lines 244-264: every embedding is compared with the user's.  The result
    is [(all_labels, other_embeddings, other_indices)]; [None] in
    [all_labels] is the placeholder of line 260.  [i] is the index of the
    head of [embeddings]. *)
Fixpoint label_loop (i : nat) (embeddings : list (option ndarray))
    (user_embedding : ndarray) (similarity_threshold : float)
    : result (list (option string) * list ndarray * list nat) :=
  match embeddings with
  | [] => Ok ([], [], [])
  | None :: rest =>
      '(all_labels, other_embeddings, other_indices) <-
        label_loop (S i) rest user_embedding similarity_threshold ;;
      Ok (Some "YOU"%string :: all_labels, other_embeddings, other_indices)
  | Some emb :: rest =>
      d <- cosine L emb user_embedding ;;
      let similarity := np_rsub_one d in
      '(all_labels, other_embeddings, other_indices) <-
        label_loop (S i) rest user_embedding similarity_threshold ;;
      if np_ge similarity similarity_threshold
      then Ok (Some "YOU"%string :: all_labels, other_embeddings, other_indices)
      else Ok (None :: all_labels, emb :: other_embeddings, i :: other_indices)
  end.

(** Lines 268-309: the labels of the embeddings that are not the user's. *)
Definition cluster_others (other_embeddings : list ndarray) : result (list string) :=
  X <- vstack other_embeddings ;;
  X_scaled <- fit_transform L X ;;
  _ <- linkage L X_scaled ;;
  distances <- pdist L X_scaled ;;
  max_distance <- np_max L distances ;;
  n_clusters <-
    (if (max_distance <? 19) || (List.length X <? 2)%nat then Ok 1%nat
     else
       let max_clusters := Nat.min 5 (List.length X - 1) in
       best <- search_clusters (range 2 (max_clusters + 1)) X_scaled
                 (PyNumber (-1), 1%nat) ;;
       Ok (if number_gt (fst best) 0.2 then snd best else 1%nat)) ;;
  if (n_clusters =? 1)%nat
  then Ok (repeat "OTHER"%string (List.length other_embeddings))
  else
    cluster_ids <- fit_predict L n_clusters X_scaled ;;
    Ok (map (fun label => ("OTHER_" ++ str_of_nat label)%string) cluster_ids).

(** Lines 312-313: [all_labels[other_idx] = other_labels[idx]]. *)
Fixpoint fill_others (all_labels : list (option string)) (other_indices : list nat)
    (other_labels : list string) (idx : nat) : result (list (option string)) :=
  match other_indices with
  | [] => Ok all_labels
  | other_idx :: rest =>
      l <- list_get other_labels idx ;;
      all_labels' <- list_set all_labels other_idx (Some l) ;;
      fill_others all_labels' rest other_labels (S idx)
  end.

(** [cluster_speakers_personalized(embeddings, user_embedding,
    similarity_threshold)], lines 202-341.  The statistics printed from line
    319 on do not change [all_labels] and are left out. *)
Definition cluster_speakers_personalized (embeddings : list (option ndarray))
    (user_embedding : ndarray) (similarity_threshold : float)
    : result (list (option string)) :=
  match embeddings with
  | [] => Ok []
  | _ =>
    match valid_embeddings embeddings with
    | [] => Ok (repeat (Some "YOU"%string) (List.length embeddings))
    | _ =>
      '(all_labels, other_embeddings, other_indices) <-
        label_loop 0 embeddings user_embedding similarity_threshold ;;
      if (1 <? List.length other_embeddings)%nat then
        other_labels <- cluster_others other_embeddings ;;
        fill_others all_labels other_indices other_labels 0
      else if (List.length other_embeddings =? 1)%nat then
        other_idx <- list_get other_indices 0 ;;
        list_set all_labels other_idx (Some "OTHER"%string)
      else Ok all_labels
    end
  end.

(** The default of [similarity_threshold]. *)
Definition default_similarity_threshold : float := 0.45.

(** Lines 500-507 of [diarize_audio]: the personalized mode is used when a
    user embedding was parsed and has 512 components, the unsupervised mode
    otherwise. *)
Definition diarize_audio_labels (embeddings : list (option ndarray))
    (segment_list : list Segment) (user_emb : option ndarray)
    : result (list (option string)) :=
  match user_emb with
  | Some u =>
      if (List.length u =? 512)%nat
      then cluster_speakers_personalized embeddings u default_similarity_threshold
      else speaker_labels <- cluster_speakers embeddings segment_list ;;
           Ok (map Some speaker_labels)
  | None =>
      speaker_labels <- cluster_speakers embeddings segment_list ;;
      Ok (map Some speaker_labels)
  end.

End Engine.

(** ** The engine with its effects

    [cluster_speakers] once more, this time with what a lib_call does besides
    returning: it prints on the standard output and it calls routines of
    libraries that have a state of their own (caches, thread pools, random
    generators).  [World] is that state and the lines printed so far; a
    routine takes the state of the libraries and returns the new one; the
    function reads no global variable of the module and writes none. *)

Inductive line : Type :=
| NoValidEmbeddings
| Detected (n_clusters : nat).

Section Effects.

Variable State : Type.

Record World : Type := mkWorld { hidden : State; stdout : list line }.

Definition io (A : Type) : Type := World -> result A * World.

Definition ret {A : Type} (a : A) : io A := fun w => (Ok a, w).

Definition io_bind {A B : Type} (m : io A) (k : A -> io B) : io B :=
  fun w => match m w with
           | (Ok a, w') => k a w'
           | (Raise e, w') => (Raise e, w')
           end.

Definition print (l : line) : io unit :=
  fun w => (Ok tt, mkWorld (hidden w) (stdout w ++ [l])).

Definition lib_call {A : Type} (routine : State -> result A * State) : io A :=
  fun w => let (r, s) := routine (hidden w) in (r, mkWorld s (stdout w)).

Definition lift {A : Type} (r : result A) : io A := fun w => (r, w).

Record SciLibIO : Type := mkSciLibIO {
  cosine_io : ndarray -> ndarray -> State -> result np_float * State;
  fit_transform_io : Matrix -> State -> result Matrix * State;
  linkage_io : Matrix -> State -> result Matrix * State;
  pdist_io : Matrix -> State -> result (list float) * State;
  np_max_io : list float -> State -> result float * State;
  fit_predict_io : nat -> Matrix -> State -> result (list nat) * State;
  silhouette_score_io : Matrix -> list nat -> State -> result np_float * State
}.

Variable L : SciLibIO.

Notation "x <~~ r ;; k" := (io_bind r (fun x => k))
  (at level 61, r at next level, right associativity).

Fixpoint search_clusters_io (ns : list nat) (X_scaled : Matrix)
    (best : py_number * nat) : io (py_number * nat) :=
  match ns with
  | [] => ret best
  | n :: rest =>
      labels <~~ lib_call (fit_predict_io L n X_scaled) ;;
      if (1 <? len_set labels)%nat then
        score <~~ lib_call (silhouette_score_io L X_scaled labels) ;;
        if np_gt_number score (fst best)
        then search_clusters_io rest X_scaled (NpNumber score, n)
        else search_clusters_io rest X_scaled best
      else search_clusters_io rest X_scaled best
  end.

Definition cluster_speakers_io (embeddings : list (option ndarray))
    (segments : list Segment) : io (list string) :=
  match embeddings with
  | [] => ret []
  | _ =>
    match valid_embeddings embeddings with
    | [] =>
      _ <~~ print NoValidEmbeddings ;;
      ret (repeat "speaker_0"%string (List.length embeddings))
    | valid =>
      X <~~ lift (vstack valid) ;;
      if (List.length X <? 2)%nat
      then ret (repeat "speaker_0"%string (List.length embeddings))
      else
        X_scaled <~~ lib_call (fit_transform_io L X) ;;
        _ <~~ lib_call (linkage_io L X_scaled) ;;
        distances <~~ lib_call (pdist_io L X_scaled) ;;
        max_distance <~~ lib_call (np_max_io L distances) ;;
        n_clusters <~~
          (if (max_distance <? two_speaker_threshold)%float then ret 1%nat
           else
             let max_clusters := Nat.min 10 (List.length X - 1) in
             best <~~ search_clusters_io (range 2 (max_clusters + 1)) X_scaled
                       (PyNumber (-1), 2%nat) ;;
             ret (snd best)) ;;
        _ <~~ print (Detected n_clusters) ;;
        if (n_clusters =? 1)%nat
        then ret (repeat "speaker_0"%string (List.length embeddings))
        else
          valid_labels <~~ lib_call (fit_predict_io L n_clusters X_scaled) ;;
          most_common_label <~~ lift (argmax (bincount valid_labels)) ;;
          lift (map_back embeddings valid_labels most_common_label 0)
    end
  end.

(** The result of a routine does not depend on the hidden state. *)
Definition stateless {A : Type} (routine : State -> result A * State) : Prop :=
  forall s s', fst (routine s) = fst (routine s').

Record deterministic : Prop := {
  cosine_det : forall u v, stateless (cosine_io L u v);
  fit_transform_det : forall X, stateless (fit_transform_io L X);
  linkage_det : forall X, stateless (linkage_io L X);
  pdist_det : forall X, stateless (pdist_io L X);
  np_max_det : forall ds, stateless (np_max_io L ds);
  fit_predict_det : forall n X, stateless (fit_predict_io L n X);
  silhouette_score_det : forall X labels, stateless (silhouette_score_io L X labels)
}.

(** The routines as functions, read at the state [s]. *)
Definition at_state (s : State) : SciLib :=
  mkSciLib (fun u v => fst (cosine_io L u v s))
           (fun X => fst (fit_transform_io L X s))
           (fun X => fst (linkage_io L X s))
           (fun X => fst (pdist_io L X s))
           (fun ds => fst (np_max_io L ds s))
           (fun n X => fst (fit_predict_io L n X s))
           (fun X labels => fst (silhouette_score_io L X labels s)).

(** [m] returns [r] and prints [lines], whatever the world it starts in. *)
Definition runs {A : Type} (m : io A) (r : result A) (lines : list line) : Prop :=
  forall w, exists s, m w = (r, mkWorld s (stdout w ++ lines)).

(** [m] returns [r] and prints the same lines in every world. *)
Definition pure_io {A : Type} (m : io A) (r : result A) : Prop :=
  exists lines, runs m r lines.

End Effects.

Arguments mkWorld {State}.
Arguments hidden {State}.
Arguments stdout {State}.
Arguments ret {State A}.
Arguments io_bind {State A B}.
Arguments print {State}.
Arguments lib_call {State A}.
Arguments lift {State A}.
Arguments stateless {State A}.
Arguments runs {State A}.
Arguments pure_io {State A}.
Arguments deterministic {State}.
Arguments at_state {State}.
Arguments search_clusters_io {State}.
Arguments cluster_speakers_io {State}.

(** ** What the documentation of the imported routines promises

    Inputs are matrices of finite numbers with rows of one length [d > 0];
    scikit-learn rejects anything else. *)

Definition finite_vec (v : ndarray) : Prop :=
  Forall (fun x => is_finite x = true) v.

Definition well_formed (d : nat) (X : Matrix) : Prop :=
  Forall (fun r => List.length r = d /\ finite_vec r) X.

(** The embeddings of a request: those present have [d] finite components. *)
Definition wf_embeddings (d : nat) (embeddings : list (option ndarray)) : Prop :=
  Forall (fun e => match e with
                   | Some v => List.length v = d /\ finite_vec v
                   | None => True
                   end) embeddings.

Record SciLibSpec (L : SciLib) : Prop := mkSciLibSpec {
  (** The cosine distance of two vectors of one length is a float (possibly
      NaN); vectors of different lengths raise [ValueError]. *)
  cosine_total : forall u v,
    List.length u = List.length v -> exists x, cosine L u v = Ok x;
  cosine_shape : forall u v,
    List.length u <> List.length v -> cosine L u v = Raise ValueError;
  (** Standardization keeps the shape. *)
  fit_transform_ok : forall d X,
    0 < d -> X <> [] -> well_formed d X ->
    exists X', fit_transform L X = Ok X' /\ well_formed d X' /\
               List.length X' = List.length X;
  linkage_ok : forall d X,
    0 < d -> 2 <= List.length X -> well_formed d X ->
    exists Z, linkage L X = Ok Z;
  (** Two rows or more have at least one pairwise distance. *)
  pdist_ok : forall d X,
    0 < d -> 2 <= List.length X -> well_formed d X ->
    exists ds, pdist L X = Ok ds /\ ds <> [];
  np_max_ok : forall ds, ds <> [] -> exists m, np_max L ds = Ok m;
  (** Agglomerative clustering into [n] clusters labels every row, with
      exactly the cluster ids [0 .. n-1]. *)
  fit_predict_ok : forall d X n,
    0 < d -> well_formed d X -> 2 <= List.length X ->
    1 <= n <= List.length X ->
    exists labels, fit_predict L n X = Ok labels /\
                   List.length labels = List.length X /\
                   forall c, In c labels <-> c < n;
  (** The silhouette score is defined for 2 to [n_samples - 1] labels. *)
  silhouette_ok : forall d X labels,
    0 < d -> well_formed d X -> List.length labels = List.length X ->
    2 <= len_set labels <= List.length X - 1 ->
    exists s, silhouette_score L X labels = Ok s
}.

(** ** Vocabulary of the statements *)

(** The embeddings that are present, in order. *)
Fixpoint somes {A : Type} (l : list (option A)) : list A :=
  match l with
  | [] => []
  | Some x :: r => x :: somes r
  | None :: r => somes r
  end.

Definition speaker (c : nat) : string := "speaker_" ++ str_of_nat c.
Definition other_n (c : nat) : string := "OTHER_" ++ str_of_nat c.

(** Labels by position: the valid embeddings take the cluster ids [ids] in
    order, the missing ones take [fallback]. *)
Fixpoint assign (embeddings : list (option ndarray)) (ids : list nat)
    (fallback : nat) : list string :=
  match embeddings with
  | [] => []
  | None :: rest => speaker fallback :: assign rest ids fallback
  | Some _ :: rest =>
      match ids with
      | c :: ids' => speaker c :: assign rest ids' fallback
      | [] => []
      end
  end.

(** The placeholders of [all_labels] take the labels [other_labels] in
    order. *)
Fixpoint merge (all_labels : list (option string)) (other_labels : list string)
    : list (option string) :=
  match all_labels with
  | [] => []
  | Some l :: rest => Some l :: merge rest other_labels
  | None :: rest =>
      match other_labels with
      | o :: os => Some o :: merge rest os
      | [] => None :: merge rest []
      end
  end.

(** The positions of the placeholders of [all_labels], counted from [i]. *)
Fixpoint placeholders (i : nat) (all_labels : list (option string)) : list nat :=
  match all_labels with
  | [] => []
  | Some _ :: rest => placeholders (S i) rest
  | None :: rest => i :: placeholders (S i) rest
  end.

(** A label of the OTHER family: ["OTHER"] or ["OTHER_<id>"]. *)
Definition other_family (l : option string) : bool :=
  match l with
  | Some s => String.eqb s "OTHER" || prefix "OTHER_" s
  | None => false
  end.

(** [c] is the most frequent cluster id of [ids], the lowest one on a tie. *)
Definition most_frequent (c : nat) (ids : list nat) : Prop :=
  forall c', count_occ Nat.eq_dec ids c' <= count_occ Nat.eq_dec ids c /\
             (count_occ Nat.eq_dec ids c' = count_occ Nat.eq_dec ids c -> c <= c').

(** [b] compares with every score as its value does. *)
Definition exact_number (b : py_number) : Prop :=
  forall s, np_gt_number s b = (number_value b <? np_value s)%float.

(** The outcome of scoring the candidate [k] in the search loop: [None] when
    the partition has one effective cluster and is skipped. *)
Definition candidate_score (L : SciLib) (X_scaled : Matrix) (k : nat)
    : result (option np_float) :=
  labels <- fit_predict L k X_scaled ;;
  if 1 <? len_set labels then
    score <- silhouette_score L X_scaled labels ;; Ok (Some score)
  else Ok None.

(** The label line 244-264 gives an embedding: ["YOU"] when it is missing or
    similar enough to the user's, the placeholder [None] otherwise. *)
Definition labelled (L : SciLib) (user_embedding : ndarray)
    (similarity_threshold : float) (emb : option ndarray) (lab : option string)
    : Prop :=
  match emb with
  | None => lab = Some "YOU"%string
  | Some v =>
      exists d, cosine L v user_embedding = Ok d /\
                lab = if np_ge (np_rsub_one d) similarity_threshold
                      then Some "YOU"%string else None
  end.

(** Index [i] is a pending candidate: its embedding is present and its
    similarity to the user's does not reach the threshold. *)
Definition pending (L : SciLib) (embeddings : list (option ndarray))
    (user_embedding : ndarray) (similarity_threshold : float) (i : nat) : Prop :=
  exists v d, nth_error embeddings i = Some (Some v) /\
              cosine L v user_embedding = Ok d /\
              np_ge (np_rsub_one d) similarity_threshold = false.

(** The labels given to the indices whose embedding is present. *)
Fixpoint labels_at_valid (embeddings : list (option ndarray)) (labels : list string)
    : list string :=
  match embeddings, labels with
  | Some _ :: rest, l :: ls => l :: labels_at_valid rest ls
  | None :: rest, _ :: ls => labels_at_valid rest ls
  | _, _ => []
  end.

(** The number of OTHER-family labels. *)
Definition count_other (labels : list (option string)) : nat :=
  List.length (filter other_family labels).

(** ** A small implementation of the routines, to run the model

    [test_lib] computes the cosine distance and the pairwise Euclidean
    distances in binary64 arithmetic; its scaler is the identity, its
    clustering puts row [i] in cluster [min i (n-1)] and its silhouette score
    is a function of the number of clusters, [1 / k] in [test_lib].  It
    satisfies [SciLibSpec] and is used for the concrete runs only. *)

Module TestLib.

Open Scope float_scope.

Definition dot (u v : ndarray) : float :=
  fold_left (fun acc xy => acc + fst xy * snd xy) (combine u v) 0.

Definition cosine (u v : ndarray) : result np_float :=
  if (List.length u =? List.length v)%nat
  then Ok (mkNp float64 (1 - dot u v / sqrt (dot u u * dot v v)))
  else Raise ValueError.

Definition euclidean (u v : ndarray) : float :=
  sqrt (fold_left (fun acc xy => acc + (fst xy - snd xy) * (fst xy - snd xy))
                  (combine u v) 0).

Fixpoint pdist_rows (X : Matrix) : list float :=
  match X with
  | [] => []
  | u :: rest => map (euclidean u) rest ++ pdist_rows rest
  end.

Definition fmax (a b : float) : float := if a <? b then b else a.

Definition np_max (ds : list float) : result float :=
  match ds with
  | [] => Raise ValueError
  | x :: r => Ok (fold_left fmax r x)
  end.

Definition fit_transform (X : Matrix) : result Matrix :=
  match X with
  | [] => Raise ValueError
  | _ => Ok X
  end.

Definition fit_predict (n : nat) (X : Matrix) : result (list nat) :=
  if ((1 <=? n) && (n <=? List.length X))%nat
  then Ok (map (fun i => Nat.min i (n - 1)) (seq 0 (List.length X)))
  else Raise ValueError.

Definition silhouette_score (score : nat -> float) (X : Matrix) (labels : list nat)
    : result np_float :=
  if ((2 <=? len_set labels) && (len_set labels <=? List.length X - 1))%nat
  then Ok (mkNp float64 (score (len_set labels)))
  else Raise ValueError.

(** The routines with the silhouette score [score k] for [k] clusters. *)
Definition lib_with_scores (score : nat -> float) : SciLib :=
  mkSciLib cosine fit_transform (fun X => Ok X) (fun X => Ok (pdist_rows X))
           np_max fit_predict (silhouette_score score).

Definition test_lib : SciLib :=
  lib_with_scores (fun k => 1 / of_uint63 (Uint63.of_Z (Z.of_nat k))).

(** The same routines in a library that counts the calls it receives. *)
Definition counted {A : Type} (r : result A) (calls : nat) : result A * nat :=
  (r, S calls).

Definition counting_lib : SciLibIO nat :=
  mkSciLibIO nat
    (fun u v => counted (cosine u v))
    (fun X => counted (fit_transform X))
    (fun X => counted (Ok X))
    (fun X => counted (Ok (pdist_rows X)))
    (fun ds => counted (np_max ds))
    (fun n X => counted (fit_predict n X))
    (fun X labels =>
       counted (silhouette_score (fun k => 1 / of_uint63 (Uint63.of_Z (Z.of_nat k)))
                                 X labels)).

(** A library whose clustering depends on its state, as one started from a
    random seed would: the cluster ids are numbered from the other end when
    the seed is odd. *)
Definition seeded_lib : SciLibIO nat :=
  mkSciLibIO nat
    (cosine_io nat counting_lib)
    (fit_transform_io nat counting_lib)
    (linkage_io nat counting_lib)
    (pdist_io nat counting_lib)
    (np_max_io nat counting_lib)
    (fun n X seed =>
       (ids <- fit_predict n X ;;
        Ok (if Nat.even seed then ids else map (fun c => (n - 1 - c)%nat) ids),
        S seed))
    (silhouette_score_io nat counting_lib).

(** The routines of [test_lib] with the cosine distance [d] for every pair of
    arrays. *)
Definition lib_with_cosine (d : np_float) : SciLib :=
  mkSciLib (fun _ _ => Ok d) fit_transform (fun X => Ok X)
           (fun X => Ok (pdist_rows X)) np_max fit_predict
           (silhouette_score (fun k => 1 / of_uint63 (Uint63.of_Z (Z.of_nat k)))).

(** A request of six segments, one of them without embedding. *)
Definition sample_embeddings : list (option ndarray) :=
  [Some [0; 1]; None; Some [30; 0]; Some [30; 1]; Some [1; 0]; Some [1; 30]].

Definition sample_user : ndarray := [0; 1].

(** Its valid embeddings and the largest of their pairwise distances. *)
Definition sample_valid : Matrix :=
  [[0; 1]; [30; 0]; [30; 1]; [1; 0]; [1; 30]].

Definition sample_max : float :=
  Eval vm_compute in
    match np_max (pdist_rows sample_valid) with
    | Ok m => m
    | Raise _ => nan
    end.



End TestLib.

(** ** The rest of the service: exceptions and responses

    The orchestration code meets more exceptions than the clustering engine:
    [attempt] is the outcome of a step inside a [try] block, and [http] what
    an endpoint answers. *)

Inductive exception : Type :=
| EngineError (e : exn)
| OverflowError
| TypeError
| AttributeError
| KeyError (key : string)
| ValidationError (fields : list string)
| OtherError (what : string)
| HTTPError (status_code : nat) (detail : string).

Inductive attempt (A : Type) : Type :=
| Returned (a : A)
| Raised (e : exception).

Arguments Returned {A} a.
Arguments Raised {A} e.

Definition and_then {A B : Type} (r : attempt A) (k : A -> attempt B) : attempt B :=
  match r with
  | Returned a => k a
  | Raised e => Raised e
  end.

Notation "x <~ r ;; k" := (and_then r (fun x => k))
  (at level 61, r at next level, right associativity).

(** An exception of the clustering engine seen from the orchestration. *)
Definition of_result {A : Type} (r : result A) : attempt A :=
  match r with
  | Ok a => Returned a
  | Raise e => Raised (EngineError e)
  end.

Inductive http (A : Type) : Type :=
| Response (body : A)
| HTTPException (status_code : nat) (detail : string).

Arguments Response {A} body.
Arguments HTTPException {A} status_code detail.

(** [if s:] for an optional form field: [None] and the empty string are
    false. *)
Definition truthy (s : option string) : bool :=
  match s with
  | Some EmptyString | None => false
  | Some _ => true
  end.

(** ** What the code does with a decoded JSON value

    The segments of a request are not validated: each operation below is
    the Python operation on whatever value is met, with the exception
    Python raises when the value is of the wrong type. *)

(** [len(v)] *)
Definition py_len (v : json) : attempt nat :=
  match v with
  | JString s => Returned (String.length s)
  | JArray items => Returned (List.length items)
  | JObject members => Returned (List.length members)
  | JNull | JBool _ | JInt _ | JFloat _ => Raised TypeError
  end.

(** [v[:n]]: a dictionary is not sliced (the exception is a [TypeError], a
    [KeyError] since Python 3.12). *)
Definition py_slice_to (n : nat) (v : json) : attempt json :=
  match v with
  | JString s => Returned (JString (substring 0 n s))
  | JArray items => Returned (JArray (firstn n items))
  | JObject _ | JNull | JBool _ | JInt _ | JFloat _ => Raised TypeError
  end.

(** The characters of a string, each a string. *)
Fixpoint characters (s : string) : list json :=
  match s with
  | EmptyString => []
  | String c rest => JString (String c EmptyString) :: characters rest
  end.

(** What [for x in v] goes through: the elements of a list, the characters
    of a string, the keys of a dictionary. *)
Definition py_iter (v : json) : attempt (list json) :=
  match v with
  | JString s => Returned (characters s)
  | JArray items => Returned items
  | JObject members => Returned (map (fun kv => JString (fst kv)) members)
  | JNull | JBool _ | JInt _ | JFloat _ => Raised TypeError
  end.

Fixpoint dict_lookup (members : list (string * json)) (key : string) : option json :=
  match members with
  | [] => None
  | (k, v) :: rest => if String.eqb k key then Some v else dict_lookup rest key
  end.

(** [seg.get(key, default)]: only a dictionary has the method. *)
Definition py_get (seg : json) (key : string) (default : json) : attempt json :=
  match seg with
  | JObject members =>
      Returned (match dict_lookup members key with Some v => v | None => default end)
  | _ => Raised AttributeError
  end.

(** [seg[key]] for a string [key]. *)
Definition py_getitem (seg : json) (key : string) : attempt json :=
  match seg with
  | JObject members =>
      match dict_lookup members key with
      | Some v => Returned v
      | None => Raised (KeyError key)
      end
  | _ => Raised TypeError
  end.

Fixpoint repeat_string (s : string) (k : nat) : string :=
  match k with
  | O => EmptyString
  | S k' => (s ++ repeat_string s k')%string
  end.

(** ** Splitting the audio ([split_audio_by_segments], lines 173-200) *)

(** [int(x)]: truncation toward zero; NaN raises [ValueError] and an
    infinity [OverflowError]. *)
Definition py_int (x : float) : attempt Z :=
  match Prim2SF x with
  | S754_nan => Raised (EngineError ValueError)
  | S754_infinity _ => Raised OverflowError
  | S754_zero _ => Returned 0%Z
  | S754_finite s m e =>
      let magnitude := if (0 <=? e)%Z then (Z.pos m * 2 ^ e)%Z
                       else (Z.pos m / 2 ^ (- e))%Z in
      Returned (if s then (- magnitude)%Z else magnitude)
  end.

(** [n < x] for an integer [n] and a float [x]: Python compares the exact
    values. *)
Definition int_lt_float (n : Z) (x : float) : bool :=
  match Prim2SF x with
  | S754_nan => false
  | S754_infinity s => negb s
  | S754_zero _ => (n <? 0)%Z
  | S754_finite s m e =>
      let v := if s then Z.neg m else Z.pos m in
      if (0 <=? e)%Z then (n <? v * 2 ^ e)%Z else (n * 2 ^ (- e) <? v)%Z
  end.

(** The position a slice bound [i] denotes in a sequence of length [n]: a
    negative bound counts from the end, and every bound is clamped. *)
Definition slice_bound (n i : Z) : Z :=
  if (i <? 0)%Z then Z.max (i + n) 0 else Z.min i n.

(** [l[start:stop]]. *)
Definition py_slice {A : Type} (l : list A) (start stop : Z) : list A :=
  let n := Z.of_nat (List.length l) in
  let a := slice_bound n start in
  let b := slice_bound n stop in
  firstn (Z.to_nat (b - a)) (skipn (Z.to_nat a) l).

(** [f"{i:04d}"]: the decimal digits, padded with zeros to four characters. *)
Fixpoint zeros (k : nat) : string :=
  match k with
  | O => EmptyString
  | S k' => String "0" (zeros k')
  end.

Definition format_04d (i : nat) : string :=
  let digits := str_of_nat i in
  zeros (4 - String.length digits) ++ digits.

(** [os.path.join(a, b)] for a relative [b]. *)
Fixpoint ends_with_slash (a : string) : bool :=
  match a with
  | EmptyString => false
  | String c EmptyString => Ascii.eqb c "/"
  | String _ rest => ends_with_slash rest
  end.

Definition path_join (a b : string) : string :=
  match a with
  | EmptyString => b
  | _ => if ends_with_slash a then a ++ b else a ++ "/" ++ b
  end.

(** The sample rate asked of [librosa.load], which returns it: an [int]. *)
Definition sr : Z := 22050.

Definition float_of_Z (n : Z) : float := of_uint63 (Uint63.of_Z n).

(** [v * sr]: a float is multiplied as a float, an integer or a boolean as
    an integer, and a string or a list is repeated. *)
Definition py_mul_sr (v : json) : attempt json :=
  match v with
  | JFloat x => Returned (JFloat (x * float_of_Z sr)%float)
  | JInt n => Returned (JInt (n * sr)%Z)
  | JBool b => Returned (JInt (if b then sr else 0%Z))
  | JString s => Returned (JString (repeat_string s (Z.to_nat sr)))
  | JArray items => Returned (JArray (List.concat (repeat items (Z.to_nat sr))))
  | JNull | JObject _ => Raised TypeError
  end.

(** [int(v)]; [int_of_str] is [int] on a string, which reads a decimal
    integer of a length the interpreter accepts. *)
Definition py_int_of (int_of_str : string -> attempt Z) (v : json) : attempt Z :=
  match v with
  | JFloat x => py_int x
  | JInt n => Returned n
  | JBool b => Returned (if b then 1 else 0)%Z
  | JString s => int_of_str s
  | JNull | JArray _ | JObject _ => Raised TypeError
  end.

(** [int(seg[key] * sr)], lines 182-183. *)
Definition sample_position (int_of_str : string -> attempt Z) (seg : Segment)
    (key : string) : attempt Z :=
  v <~ py_getitem seg key ;;
  p <~ py_mul_sr v ;;
  py_int_of int_of_str p.

(** A call [sf.write(path, data, samplerate)]. *)
Record written_file : Type := mkWritten {
  written_path : string;
  written_data : list float;
  written_rate : Z
}.

(** The loop of lines 181-198 over [enumerate(segments)], [i] being the index
    of the head: the result is [segment_paths] and the files written, in
    order.  A failing [sf.write] is outside the model. *)
Fixpoint split_loop (int_of_str : string -> attempt Z) (temp_dir : string)
    (audio : list float) (i : nat) (segments : list Segment)
    : attempt (list (option string) * list written_file) :=
  match segments with
  | [] => Returned ([], [])
  | seg :: rest =>
      start_sample <~ sample_position int_of_str seg "start" ;;
      end_sample <~ sample_position int_of_str seg "end" ;;
      let segment_audio := py_slice audio start_sample end_sample in
      if int_lt_float (Z.of_nat (List.length segment_audio))
                      (float_of_Z sr * 0.3)%float
      then
        r <~ split_loop int_of_str temp_dir audio (S i) rest ;;
        Returned (None :: fst r, snd r)
      else
        let seg_path :=
          path_join temp_dir ("segment_" ++ format_04d i ++ ".wav") in
        r <~ split_loop int_of_str temp_dir audio (S i) rest ;;
        Returned (Some seg_path :: fst r,
                  mkWritten seg_path segment_audio sr :: snd r)
  end.

(** [split_audio_by_segments(audio_path, segments)]: [temp_dir] is the
    directory [tempfile.mkdtemp()] made and [librosa_load] stands for
    [librosa.load(audio_path, sr=22050)].  [segments] is the decoded value,
    a list when the request is as expected.  The result is
    [(segment_paths, temp_dir)] with the files written. *)
Definition split_audio_by_segments (librosa_load : string -> attempt (list float))
    (int_of_str : string -> attempt Z)
    (temp_dir : string) (audio_path : string) (segments : json)
    : attempt (list (option string) * string * list written_file) :=
  audio <~ librosa_load audio_path ;;
  items <~ py_iter segments ;;
  r <~ split_loop int_of_str temp_dir audio 0 items ;;
  Returned (fst r, temp_dir, snd r).

(** ** The endpoints ([diarize_audio], lines 420-543, and [enroll_voice],
    lines 545-597) *)

Record SpeakerSegment : Type := mkSpeakerSegment {
  ss_start : float;
  ss_end : float;
  ss_speaker : string;
  ss_text : string
}.

Record DiarizationResponse : Type := mkDiarizationResponse {
  dr_speakers : list string;
  dr_segments : list SpeakerSegment;
  dr_num_speakers : nat
}.

(** [sorted(set(labels))]: the distinct labels in increasing order. *)
Fixpoint insert_sorted (s : string) (l : list string) : list string :=
  match l with
  | [] => [s]
  | x :: r => if (s <=? x)%string then s :: l else x :: insert_sorted s r
  end.

Definition sorted_set (labels : list string) : list string :=
  fold_right insert_sorted [] (nodup string_dec labels).

(** The labels as the strings the response needs: a [None] among them makes
    [sorted] or the validation of the response models raise. *)
Fixpoint label_strings (speaker_labels : list (option string)) : attempt (list string) :=
  match speaker_labels with
  | [] => Returned []
  | None :: _ => Raised (OtherError "speaker label is None")
  | Some l :: rest => ls <~ label_strings rest ;; Returned (l :: ls)
  end.

(** An array made by [np.array(.., dtype=np.float32)]: a number (the array
    has no dimension) or the list of its sub-arrays.  An array of one
    dimension is a list of numbers. *)
Inductive array_nd : Type :=
| Scalar (x : float)
| Rows (rows : list array_nd).

Fixpoint scalars (rows : list array_nd) : option ndarray :=
  match rows with
  | [] => Some []
  | Scalar x :: rest => option_map (cons x) (scalars rest)
  | Rows _ :: _ => None
  end.

Definition as_1d (a : array_nd) : option ndarray :=
  match a with
  | Scalar _ => None
  | Rows rows => scalars rows
  end.

(** [len(a)]: an array without dimension has no length. *)
Definition np_len (a : array_nd) : attempt nat :=
  match a with
  | Scalar _ => Raised TypeError
  | Rows rows => Returned (List.length rows)
  end.

Section Endpoints.

Variable L : SciLib.

(** The calls to the outside: [convert_to_wav], [librosa.get_duration],
    [librosa.load], [json.loads], [np.array(.., dtype=np.float32)],
    [int] on a string, [get_speaker_embedding], the directory of
    [tempfile.mkdtemp] and [str(e)]; [cosine_nd] is [cosine] with a
    reference of more than one dimension, and [coerce_float] and
    [coerce_str] are what the validation of [SpeakerSegment] makes of a value
    that is not of the type of its field ([None] when it rejects it). *)
Variable convert_to_wav : string -> attempt string.
Variable get_duration : string -> attempt float.
Variable librosa_load : string -> attempt (list float).
Variable json_loads : string -> attempt json.
Variable np_array : json -> attempt array_nd.
Variable int_of_str : string -> attempt Z.
Variable cosine_nd : ndarray -> array_nd -> result np_float.
Variable coerce_float : json -> option float.
Variable coerce_str : json -> option string.
Variable get_speaker_embedding : string -> attempt (option ndarray).
Variable temp_dir : string.
Variable str : exception -> string.

(** Lines 472-488: one embedding per segment path; no path, no embedding,
    and an exception of the extraction counts as no embedding. *)
Fixpoint extract_embeddings (segment_paths : list (option string))
    : list (option ndarray) :=
  match segment_paths with
  | [] => []
  | None :: rest => None :: extract_embeddings rest
  | Some seg_path :: rest =>
      match get_speaker_embedding seg_path with
      | Returned embedding => embedding :: extract_embeddings rest
      | Raised _ => None :: extract_embeddings rest
      end
  end.

(** Lines 490-498: an exception of [json.loads] or of [np.array] leaves
    [user_emb] at [None]. *)
Definition parse_user_emb (user_embedding : option string) : option array_nd :=
  match user_embedding with
  | Some s =>
      if truthy user_embedding then
        match (user_emb_list <~ json_loads s ;; np_array user_emb_list) with
        | Returned user_emb => Some user_emb
        | Raised _ => None
        end
      else None
  | None => None
  end.

(** The body of the loop of lines 459-460: the line printed needs
    [seg.get('start')], [seg.get('end')] and [seg.get('text', '')[:50]]. *)
Fixpoint print_segments (shown : list json) : attempt unit :=
  match shown with
  | [] => Returned tt
  | seg :: rest =>
      _ <~ py_get seg "start" JNull ;;
      _ <~ py_get seg "end" JNull ;;
      text <~ py_get seg "text" (JString "") ;;
      _ <~ py_slice_to 50 text ;;
      print_segments rest
  end.

(** Lines 458-460: the number of segments and the first three of them are
    printed. *)
Definition print_received (segment_list : json) : attempt unit :=
  _ <~ py_len segment_list ;;
  first <~ py_slice_to 3 segment_list ;;
  shown <~ py_iter first ;;
  print_segments shown.

(** Lines 454-465. *)
Definition parse_segments (audio_file : string) (segments : option string)
    : attempt json :=
  match segments with
  | Some s =>
      if truthy segments then
        segment_list <~ json_loads s ;;
        _ <~ print_received segment_list ;;
        Returned segment_list
      else duration <~ get_duration audio_file ;;
           Returned (JArray [mkSegment 0 duration EmptyString])
  | None =>
      duration <~ get_duration audio_file ;;
      Returned (JArray [mkSegment 0 duration EmptyString])
  end.

(** The request gives the list [items] for [segment_list]: decoded from the
    [segments] field, or the whole audio without the field. *)
Definition segment_list_is (audio_file : string) (segments : option string)
    (items : list Segment) : Prop :=
  (exists s, segments = Some s /\ truthy segments = true /\
             json_loads s = Returned (JArray items)) \/
  (truthy segments = false /\
   exists duration, get_duration audio_file = Returned duration /\
                    items = [mkSegment 0 duration EmptyString]).

(** The segments as the engine receives them; it does not read them. *)
Definition segments_of (segment_list : json) : list Segment :=
  match segment_list with
  | JArray items => items
  | _ => []
  end.

(** The routines with [cosine_nd] on the reference [user_emb] for [cosine]:
    the engine hands its reference to [cosine] and does nothing else with
    it. *)
Definition with_reference (user_emb : array_nd) : SciLib :=
  mkSciLib (fun emb _ => cosine_nd emb user_emb) (fit_transform L) (linkage L)
           (pdist L) (np_max L) (fit_predict L) (silhouette_score L).

(** [cluster_speakers_personalized(embeddings, user_emb)] for an array
    [user_emb] of any dimension. *)
Definition cluster_with_reference (embeddings : list (option ndarray))
    (user_emb : array_nd) : result (list (option string)) :=
  match as_1d user_emb with
  | Some user_embedding =>
      cluster_speakers_personalized L embeddings user_embedding
        default_similarity_threshold
  | None =>
      cluster_speakers_personalized (with_reference user_emb) embeddings []
        default_similarity_threshold
  end.

(** Lines 500-507. *)
Definition cluster_step (embeddings : list (option ndarray)) (segment_list : json)
    (user_emb : option array_nd) : attempt (list (option string)) :=
  personalized <~
    match user_emb with
    | Some a => n <~ np_len a ;; Returned (n =? 512)
    | None => Returned false
    end ;;
  match personalized, user_emb with
  | true, Some a => of_result (cluster_with_reference embeddings a)
  | _, _ =>
      of_result (speaker_labels <- cluster_speakers L embeddings (segments_of segment_list) ;;
                 Ok (map Some speaker_labels))
  end.

(** The validation of a field of [SpeakerSegment]: a value of the type of
    the field is kept. *)
Definition validate_float (v : json) : option float :=
  match v with
  | JFloat x => Some x
  | _ => coerce_float v
  end.

Definition validate_str (v : json) : option string :=
  match v with
  | JString s => Some s
  | _ => coerce_str v
  end.

Definition rejected {A : Type} (field : string) (v : option A) : list string :=
  match v with
  | Some _ => []
  | None => [field]
  end.

(** [SpeakerSegment(start=.., end=.., speaker=.., text=..)]: the fields that
    fail are reported together. *)
Definition SpeakerSegment_init (seg_start seg_end : json) (speaker : string)
    (text : json) : attempt SpeakerSegment :=
  match validate_float seg_start, validate_float seg_end, validate_str text with
  | Some a, Some b, Some t => Returned (mkSpeakerSegment a b speaker t)
  | a, b, t =>
      Raised (ValidationError
                (rejected "start" a ++ rejected "end" b ++ rejected "text" t))
  end.

(** The loop of lines 513-520 over [zip(segment_list, speaker_labels)]. *)
Fixpoint response_segments (pairs : list (Segment * string))
    : attempt (list SpeakerSegment) :=
  match pairs with
  | [] => Returned []
  | (seg, speaker) :: rest =>
      seg_start <~ py_getitem seg "start" ;;
      seg_end <~ py_getitem seg "end" ;;
      text <~ py_get seg "text" (JString "") ;;
      segment <~ SpeakerSegment_init seg_start seg_end speaker text ;;
      segments <~ response_segments rest ;;
      Returned (segment :: segments)
  end.

(** Lines 509-528: the response. *)
Definition build_response (segment_list : json)
    (speaker_labels : list (option string)) : attempt DiarizationResponse :=
  labels <~ label_strings speaker_labels ;;
  let unique_speakers := sorted_set labels in
  items <~ py_iter segment_list ;;
  segments <~ response_segments (combine items labels) ;;
  Returned (mkDiarizationResponse unique_speakers segments
                                  (List.length unique_speakers)).

(** The entry of the response made from the segment [seg] with the label
    [speaker]. *)
Definition entry_of (seg : Segment) (speaker : string) (r : SpeakerSegment) : Prop :=
  exists a b t,
    py_getitem seg "start" = Returned a /\
    py_getitem seg "end" = Returned b /\
    py_get seg "text" (JString "") = Returned t /\
    validate_float a = Some (ss_start r) /\
    validate_float b = Some (ss_end r) /\
    validate_str t = Some (ss_text r) /\
    ss_speaker r = speaker.

(** The [try] block of [diarize_audio]; [temp_audio] is the name of the file
    holding the upload.  The clean-up of the [finally] block is not
    modelled. *)
Definition diarize_audio_try (temp_audio : string) (segments user_embedding : option string)
    : attempt DiarizationResponse :=
  wav_path <~ convert_to_wav temp_audio ;;
  let audio_file := wav_path in
  segment_list <~ parse_segments audio_file segments ;;
  split <~ split_audio_by_segments librosa_load int_of_str temp_dir audio_file
             segment_list ;;
  let segment_paths := fst (fst split) in
  let embeddings := extract_embeddings segment_paths in
  let user_emb := parse_user_emb user_embedding in
  speaker_labels <~ cluster_step embeddings segment_list user_emb ;;
  build_response segment_list speaker_labels.

(** [diarize_audio]: every exception of the [try] block becomes the
    [HTTPException] of line 534. *)
Definition diarize_audio (temp_audio : string) (segments user_embedding : option string)
    : http DiarizationResponse :=
  match diarize_audio_try temp_audio segments user_embedding with
  | Returned response => Response response
  | Raised e => HTTPException 500 ("Diarization failed: " ++ str e)
  end.

(** [enroll_voice]: the body of the answer is [embedding.tolist()]. *)
Definition enroll_voice_try (temp_audio : string) : attempt (list float) :=
  wav_path <~ convert_to_wav temp_audio ;;
  embedding <~ get_speaker_embedding wav_path ;;
  match embedding with
  | None =>
      Raised (HTTPError 400
        "Failed to extract voice embedding. Audio may be too short or invalid.")
  | Some e => Returned e
  end.

Definition enroll_voice (temp_audio : string) : http (list float) :=
  match enroll_voice_try temp_audio with
  | Returned embedding => Response embedding
  | Raised e => HTTPException 500 ("Voice enrollment failed: " ++ str e)
  end.

End Endpoints.

(** ** The model cache ([load_model], lines 79-134, [get_speaker_embedding],
    lines 136-171, and [health_check], lines 599-602) *)

(** The calls [load_model] makes to the outside, as they are recorded. *)
Inductive call : Type :=
| DownloadModel
| LoadConfig (config_path : string)
| SetupModel
| LoadCheckpoint (checkpoint_dir : string)
| MoveToDevice.

Section ModelCache.

Variables Model Device Config : Type.

(** The globals [model] and [device], whether [torch.load] is the patched
    function, and the calls made so far, latest first. *)
Record Globals : Type := mkGlobals {
  model : option Model;
  device : option Device;
  torch_load_patched : bool;
  calls : list call
}.

(** [os.environ.get('COQUI_MODEL_PATH')], [Path(..).exists()],
    [str(Path(p))], [str(Path(p) / name)],
    [ModelManager().download_model(..)], [torch.cuda.is_available()],
    [torch.device(..)], [load_config], [setup_tts_model],
    [model.load_checkpoint] and [model.to]. *)
Variable COQUI_MODEL_PATH : option string.
Variable path_exists : string -> bool.
Variable path_str : string -> string.
Variable path_div : string -> string -> string.
Variable download_model : attempt string.
Variable cuda_is_available : bool.
Variable torch_device : string -> Device.
Variable load_config : string -> attempt Config.
Variable setup_tts_model : Config -> attempt Model.
Variable load_checkpoint : Model -> Config -> string -> attempt Model.
Variable model_to : Model -> Device -> attempt Model.

Definition record (c : call) (g : Globals) : Globals :=
  mkGlobals (model g) (device g) (torch_load_patched g) (c :: calls g).

(** Lines 88-102: [(str(model_path), str(config_path))], the model being
    downloaded when the environment gives no directory that exists. *)
Definition downloaded_model_path : attempt (string * string) :=
  model_path <~ download_model ;;
  Returned (model_path, path_div model_path "config.json").

Definition resolve_model_path (g : Globals) : attempt (string * string) * Globals :=
  match COQUI_MODEL_PATH with
  | Some p =>
      if truthy COQUI_MODEL_PATH && path_exists p
      then (Returned (path_str p, path_div p "config.json"), g)
      else (downloaded_model_path, record DownloadModel g)
  | None => (downloaded_model_path, record DownloadModel g)
  end.

(** [load_model()]: the result and the globals after the call. *)
Definition load_model (g : Globals)
    : attempt (Model * option Device) * Globals :=
  match model g with
  | Some m => (Returned (m, device g), g)
  | None =>
    match resolve_model_path g with
    | (Raised e, g1) => (Raised e, g1)
    | (Returned (model_path, config_path), g1) =>
      let device_name := (if cuda_is_available then "cuda" else "cpu")%string in
      let dev := torch_device device_name in
      let g2 := mkGlobals (model g1) (Some dev) (torch_load_patched g1)
                          (LoadConfig config_path :: calls g1) in
      match load_config config_path with
      | Raised e => (Raised e, g2)
      | Returned config =>
        let g3 := record SetupModel g2 in
        match setup_tts_model config with
        | Raised e => (Raised e, g3)
        | Returned m0 =>
          (* torch.load is patched for the time of load_checkpoint and set
             back to what it was by the finally block *)
          let original_torch_load := torch_load_patched g3 in
          let g4 := mkGlobals (Some m0) (device g3) true
                              (LoadCheckpoint model_path :: calls g3) in
          match load_checkpoint m0 config model_path with
          | Raised e =>
              (Raised e,
               mkGlobals (model g4) (device g4) original_torch_load (calls g4))
          | Returned m1 =>
            let g5 := mkGlobals (Some m1) (device g4) original_torch_load
                                (MoveToDevice :: calls g4) in
            match model_to m1 dev with
            | Raised e => (Raised e, g5)
            | Returned m2 =>
                (Returned (m2, Some dev),
                 mkGlobals (Some m2) (device g5) (torch_load_patched g5) (calls g5))
            end
          end
        end
      end
    end
  end.

(** [health_check()]: the field ["model_loaded"]. *)
Definition health_check (g : Globals) : bool := is_some (model g).

(** [librosa.load(audio_path, sr=22050)] and
    [tts.get_conditioning_latents(audio_path, gpt_cond_len, max_ref_length)]
    followed by the conversion of the speaker embedding to a 1-D array. *)
Variable librosa_load : string -> attempt (list float).
Variable get_conditioning_latents : Model -> string -> Z -> Z -> attempt ndarray.

(** The [try] block of [get_speaker_embedding]. *)
Definition get_speaker_embedding_try (audio_path : string) (g : Globals)
    : attempt (option ndarray) * Globals :=
  match load_model g with
  | (Raised e, g1) => (Raised e, g1)
  | (Returned (tts, _), g1) =>
    (audio <~ librosa_load audio_path ;;
     let duration := (float_of_Z (Z.of_nat (List.length audio)) / float_of_Z sr)%float in
     if (duration <? 0.5)%float then Returned None
     else
       seconds <~ py_int duration ;;
       speaker_embedding <~ get_conditioning_latents tts audio_path
                              (Z.min 30 seconds) (Z.min 60 seconds) ;;
       Returned (Some speaker_embedding),
     g1)
  end.

(** [get_speaker_embedding(audio_path)]: every exception gives [None]. *)
Definition get_speaker_embedding (audio_path : string) (g : Globals)
    : option ndarray * Globals :=
  match get_speaker_embedding_try audio_path g with
  | (Returned embedding, g1) => (embedding, g1)
  | (Raised _, g1) => (None, g1)
  end.

End ModelCache.

Arguments mkGlobals {Model Device} model device torch_load_patched calls.
Arguments model {Model Device} g.
Arguments device {Model Device} g.
Arguments torch_load_patched {Model Device} g.
Arguments calls {Model Device} g.
Arguments record {Model Device} c g.
Arguments health_check {Model Device} g.

(** ** Vocabulary of the statements on the service *)

(** Reading a zero-padded number back. *)
Definition read_nat (s : string) : option nat :=
  option_map Nat.of_uint (NilEmpty.uint_of_string s).

(** The name of the file of segment [i] in the directory [dir]. *)
Definition segment_path (dir : string) (i : nat) : string :=
  path_join dir ("segment_" ++ format_04d i ++ ".wav").

(** A timestamp that [int(.. * sr)] turns into a sample position: a float
    whose product with the sample rate is a number (neither NaN nor
    infinite), an integer or a boolean. *)
Definition timestamp (v : json) : Prop :=
  match v with
  | JFloat x =>
      is_nan (x * 22050)%float = false /\ is_infinity (x * 22050)%float = false
  | JInt _ | JBool _ => True
  | JNull | JString _ | JArray _ | JObject _ => False
  end.

(** A segment whose two timestamps are such. *)
Definition timed (seg : Segment) : Prop :=
  exists a b, py_getitem seg "start" = Returned a /\
              py_getitem seg "end" = Returned b /\
              timestamp a /\ timestamp b.

(** The fields of a segment of the expected form: a dictionary with two
    floats for timestamps and a text that is a string, or no text. *)
Definition segment_fields (seg : Segment) : option (float * float * string) :=
  match py_getitem seg "start", py_getitem seg "end",
        py_get seg "text" (JString "") with
  | Returned (JFloat x), Returned (JFloat y), Returned (JString t) => Some (x, y, t)
  | _, _, _ => None
  end.

(** A segment of the expected form whose timestamps give sample positions. *)
Definition expected_segment (seg : Segment) : Prop :=
  exists x y t, segment_fields seg = Some (x, y, t) /\
                timestamp (JFloat x) /\ timestamp (JFloat y).

(** A reference the clustering step can use or ignore: none, or an array
    with a length that, if the length is 512, has one dimension. *)
Definition usable_reference (user_emb : option array_nd) : Prop :=
  match user_emb with
  | None => True
  | Some (Scalar _) => False
  | Some (Rows rows) =>
      List.length rows = 512 -> exists user_embedding, scalars rows = Some user_embedding
  end.

(** What a file written by the loop holds: the slice of the audio between
    the sample positions of its segment. *)
Definition file_of_segment (int_of_str : string -> attempt Z) (dir : string)
    (audio : list float) (segments : list Segment) (paths : list (option string))
    (i : nat) (f : written_file) : Prop :=
  exists k seg start_sample end_sample,
    nth_error segments k = Some seg /\
    sample_position int_of_str seg "start" = Returned start_sample /\
    sample_position int_of_str seg "end" = Returned end_sample /\
    nth_error paths k = Some (Some (written_path f)) /\
    written_path f = segment_path dir (i + k) /\
    written_data f = py_slice audio start_sample end_sample /\
    written_rate f = sr /\
    (6615 <= Z.of_nat (List.length (written_data f)))%Z.

(** The order [sorted] puts strings in. *)
Definition string_le (a b : string) : Prop := (a <=? b)%string = true.

(** ** A small service, to run the model

    The calls to the outside are replaced by functions: every upload
    converts, the decoder knows the texts of a few requests, the audio read
    depends on the file name, a file gives an embedding of 512 components
    unless its name starts with [short], and the model is a string.  Used
    for the concrete runs only. *)

Module TestService.

Open Scope string_scope.

Definition convert_to_wav (input_path : string) : attempt string :=
  Returned (input_path ++ ".converted.wav").

Definition silence (samples : Z) : list float := repeat 0%float (Z.to_nat samples).

(** 7000 samples (0.317 s), 12000 samples (0.544 s), 5000 samples (0.227 s)
    and 22050 samples (1 s). *)
Definition audio_of (path : string) : list float :=
  if prefix "clip" path then silence 7000
  else if prefix "sub_second" path then silence 12000
  else if prefix "short" path then silence 5000
  else silence 22050.

Definition librosa_load (path : string) : attempt (list float) :=
  Returned (audio_of path).

Definition get_duration (path : string) : attempt float :=
  Returned (float_of_Z (Z.of_nat (List.length (audio_of path))) / float_of_Z sr)%float.

Definition sample_segments : list Segment :=
  [mkSegment 0 0.31 "hello"; mkSegment 0.1 0.2 "well"; mkSegment 0 0.32 "bye"].

(** Segments that the service does not expect: a text that is [null], and
    integers for timestamps. *)
Definition null_text_segments : list Segment :=
  [JObject [("start", JFloat 0); ("end", JFloat 0.31); ("text", JNull)]].

Definition integer_segments : list Segment :=
  [JObject [("start", JInt 0); ("end", JInt 1)]].

(** [json.loads] on the texts of the test requests; the texts between
    brackets stand for the JSON arrays they name. *)
Definition json_loads (s : string) : attempt json :=
  if s =? "5" then Returned (JInt 5)
  else if s =? "null" then Returned JNull
  else if s =? "[]" then Returned (JArray [])
  else if s =? "[0.0, 1.0]" then Returned (JArray [JFloat 0; JFloat 1])
  else if s =? "[512 ones]" then Returned (JArray (repeat (JInt 1) 512))
  else if s =? "[512 rows]" then Returned (JArray (repeat (JArray [JInt 1]) 512))
  else if s =? "[null text]" then Returned (JArray null_text_segments)
  else if s =? "[integers]" then Returned (JArray integer_segments)
  else if s =? "not json" then Raised (OtherError "JSONDecodeError")
  else Returned (JArray sample_segments).

(** [np.array(.., dtype=np.float32)] on numbers and on lists of them; the
    integers of the tests are small, hence binary32 numbers. *)
Definition np_number (v : json) : option float :=
  match v with
  | JNull => Some nan
  | JBool b => Some (if b then 1 else 0)%float
  | JInt n => Some (float_of_Z n)
  | JFloat x => Some (to_float32 x)
  | _ => None
  end.

Fixpoint np_array_of (v : json) : option array_nd :=
  match v with
  | JArray items =>
      option_map Rows
        ((fix rows (l : list json) : option (list array_nd) :=
            match l with
            | [] => Some []
            | x :: r =>
                match np_array_of x, rows r with
                | Some a, Some b => Some (a :: b)
                | _, _ => None
                end
            end) items)
  | _ => option_map Scalar (np_number v)
  end.

Definition np_array (v : json) : attempt array_nd :=
  match np_array_of v with
  | Some a => Returned a
  | None => Raised (EngineError ValueError)
  end.

(** [int] refuses the strings of the tests, [cosine] a reference that is not
    of one dimension, and the validation converts an integer to a float and
    nothing else. *)
Definition int_of_str (s : string) : attempt Z := Raised (EngineError ValueError).

Definition cosine_nd (emb : ndarray) (user_emb : array_nd) : result np_float :=
  Raise ValueError.

Definition coerce_float (v : json) : option float :=
  match v with
  | JInt n => Some (float_of_Z n)
  | _ => None
  end.

Definition coerce_str (v : json) : option string := None.

Definition embedding_512 : ndarray := repeat 1%float 512.

Definition segment_embedding (seg_path : string) : attempt (option ndarray) :=
  if prefix "short" seg_path then Returned None else Returned (Some embedding_512).

Definition temp_dir : string := "/tmp/tmpdir".

Definition str (e : exception) : string :=
  match e with
  | EngineError ValueError => "ValueError"
  | EngineError IndexError => "IndexError"
  | OverflowError => "cannot convert float infinity to integer"
  | TypeError => "TypeError"
  | AttributeError => "AttributeError"
  | KeyError key => key
  | ValidationError fields => "validation error for SpeakerSegment"
  | OtherError what => what
  | HTTPError status_code detail => str_of_nat status_code ++ ": " ++ detail
  end.

Abbreviation split_audio :=
  (split_audio_by_segments librosa_load int_of_str temp_dir).

Abbreviation diarize :=
  (diarize_audio TestLib.test_lib convert_to_wav get_duration librosa_load
     json_loads np_array int_of_str cosine_nd coerce_float coerce_str
     segment_embedding temp_dir str).

Abbreviation enroll := (enroll_voice convert_to_wav segment_embedding str).

(** Segments with timestamps outside of the clip, and their paths. *)
Definition out_of_range_segments : list Segment :=
  [mkSegment (-1) 1000 "all"; mkSegment 5 2 "none"].

Definition out_of_range_paths : list (option string) :=
  [Some "/tmp/tmpdir/segment_0000.wav"; None].

(** The segment paths of the clip of 7000 samples: the second segment is too
    short for a file. *)
Definition sample_paths : list (option string) :=
  [Some "/tmp/tmpdir/segment_0000.wav"; None; Some "/tmp/tmpdir/segment_0002.wav"].

Definition sample_files : list written_file :=
  [mkWritten "/tmp/tmpdir/segment_0000.wav" (silence 6835) 22050;
   mkWritten "/tmp/tmpdir/segment_0002.wav" (silence 7000) 22050].

(** The answers to the clip with and without its segments. *)
Definition sample_response : DiarizationResponse :=
  mkDiarizationResponse ["speaker_0"]
    [mkSpeakerSegment 0 0.31 "speaker_0" "hello";
     mkSpeakerSegment 0.1 0.2 "speaker_0" "well";
     mkSpeakerSegment 0 0.32 "speaker_0" "bye"] 1.

Definition sample_duration : float :=
  Eval vm_compute in (float_of_Z 7000 / float_of_Z sr)%float.

Definition sample_response_whole : DiarizationResponse :=
  mkDiarizationResponse ["speaker_0"]
    [mkSpeakerSegment 0 sample_duration "speaker_0" EmptyString] 1.

(** The model cache: the model is the text of what was done to it. *)
Definition load_config (config_path : string) : attempt string :=
  Returned ("config of " ++ config_path).

Definition setup_tts_model (config : string) : attempt string :=
  Returned "xtts".

Definition load_checkpoint (m config checkpoint_dir : string) : attempt string :=
  Returned (m ++ " with " ++ checkpoint_dir).

Definition failing_checkpoint (m config checkpoint_dir : string) : attempt string :=
  Raised (OtherError "checkpoint not found").

Definition model_to (m d : string) : attempt string := Returned (m ++ " on " ++ d).

Definition no_globals : Globals string string := mkGlobals None None false [].

Definition path_exists (p : string) : bool := true.

Definition path_str (p : string) : string := p.

Definition torch_device (name : string) : string := name.

Abbreviation load_with checkpoint :=
  (load_model string string string (Some "/models/xtts") path_exists path_str
     path_join (Returned "/cache/xtts_v2") false torch_device load_config
     setup_tts_model checkpoint model_to).

Abbreviation load := (load_with load_checkpoint).

Definition sample_model : string := "xtts with /models/xtts on cpu".

(** The globals after the first [load_model], and after a [load_model] whose
    checkpoint failed. *)
Definition loaded_globals : Globals string string :=
  mkGlobals (Some sample_model) (Some "cpu") false
    [MoveToDevice; LoadCheckpoint "/models/xtts"; SetupModel;
     LoadConfig "/models/xtts/config.json"].

Definition failed_globals : Globals string string :=
  mkGlobals (Some "xtts") (Some "cpu") false
    [LoadCheckpoint "/models/xtts"; SetupModel; LoadConfig "/models/xtts/config.json"].

Definition get_conditioning_latents (tts audio_path : string)
    (gpt_cond_len max_ref_length : Z) : attempt ndarray :=
  Returned [float_of_Z gpt_cond_len; float_of_Z max_ref_length].

Abbreviation embed :=
  (get_speaker_embedding string string string (Some "/models/xtts") path_exists
     path_str path_join (Returned "/cache/xtts_v2") false torch_device load_config
     setup_tts_model load_checkpoint model_to librosa_load get_conditioning_latents).

End TestService.

(** ** Order facts on binary64 floats

    [SFcompare] orders the non-NaN floats like a lexicographic order on
    triples of integers (class, exponent, mantissa); every order fact used
    below follows from that by integer arithmetic. *)

Module FloatOrder.

Definition lex3 (x y : Z * Z * Z) : comparison :=
  let '(x1, x2, x3) := x in
  let '(y1, y2, y3) := y in
  match (x1 ?= y1)%Z with
  | Eq => match (x2 ?= y2)%Z with
          | Eq => (x3 ?= y3)%Z
          | c => c
          end
  | c => c
  end.

Definition key (f : spec_float) : option (Z * Z * Z) :=
  match f with
  | S754_nan => None
  | S754_infinity true => Some (-2, 0, 0)%Z
  | S754_finite true m e => Some (-1, - e, Z.neg m)%Z
  | S754_zero _ => Some (0, 0, 0)%Z
  | S754_finite false m e => Some (1, e, Z.pos m)%Z
  | S754_infinity false => Some (2, 0, 0)%Z
  end.

Definition key_compare (a b : spec_float) : option comparison :=
  match key a, key b with
  | Some x, Some y => Some (lex3 x y)
  | _, _ => None
  end.

Lemma SFcompare_key (a b : spec_float) : SFcompare a b = key_compare a b.
Proof.
  unfold key_compare.
  destruct a as [sa|sa| |sa ma ea], b as [sb|sb| |sb mb eb]; cbn;
    repeat match goal with s : bool |- _ => destruct s end; cbn; try reflexivity.
  - rewrite Pos.compare_cont_spec.
    destruct (Z.compare_spec ea eb), (Z.compare_spec (- ea) (- eb)); try lia; try reflexivity.
    cbn. destruct (ma ?= mb)%positive; reflexivity.
Qed.

Ltac order_prep :=
  rewrite ?ltb_spec, ?leb_spec; unfold SFltb, SFleb; rewrite ?SFcompare_key;
  unfold key_compare.

Ltac order_solve :=
  repeat match goal with
  | |- context [key ?f] => destruct (key f) as [[[? ?] ?]|]
  end;
  unfold lex3;
  repeat match goal with
  | |- context [(?x ?= ?y)%Z] => destruct (Z.compare_spec x y)
  end;
  intros; try reflexivity; try discriminate; try lia.

Open Scope float_scope.

Lemma ltb_trans (a b c : float) :
  (a <? b) = true -> (b <? c) = true -> (a <? c) = true.
Proof. order_prep. order_solve. Qed.

Lemma ltb_leb_trans (a b c : float) :
  (a <? b) = true -> (b <=? c) = true -> (a <? c) = true.
Proof. order_prep. order_solve. Qed.

Lemma leb_trans (a b c : float) :
  (a <=? b) = true -> (b <=? c) = true -> (a <=? c) = true.
Proof. order_prep. order_solve. Qed.


Lemma ltb_irrefl (a : float) : (a <? a) = false.
Proof. order_prep. order_solve. Qed.

Lemma ltb_not_leb (a b : float) : (a <? b) = true -> (b <=? a) = false.
Proof. order_prep. order_solve. Qed.

Lemma ltb_asym (a b : float) : (a <? b) = true -> (b <? a) = false.
Proof. order_prep. order_solve. Qed.

End FloatOrder.

(** ** Rounding to binary32 is monotone

    A valid binary64 number is an integer multiple of [2^-1074]; [ord] is
    that integer, on which the order of the floats is the order of [Z] and
    the rounding is [round32]. *)

Module Float32.

Open Scope Z_scope.

(** *** Rounding to the nearest integer is monotone *)

Lemma round_half_even_bounds (N sh : Z) :
  0 <= sh ->
  N / 2 ^ sh <= round_half_even N sh <= N / 2 ^ sh + 1 /\
  (N mod 2 ^ sh = 0 -> round_half_even N sh = N / 2 ^ sh).
Proof.
  intros Hsh. unfold round_half_even.
  assert (HP : 0 < 2 ^ sh) by (apply Z.pow_pos_nonneg; lia).
  pose proof (Z.mod_pos_bound N (2 ^ sh) HP) as Hr.
  generalize dependent (2 ^ sh). intros P HP Hr.
  generalize dependent (N mod P). intros r Hr. generalize (N / P). intros q.
  destruct (Z.compare_spec (2 * r) P); [destruct (Z.even q) | |]. all: lia.
Qed.

Lemma round_half_even_mono (N1 N2 sh : Z) :
  0 <= sh -> N1 <= N2 -> round_half_even N1 sh <= round_half_even N2 sh.
Proof.
  intros Hsh HN.
  assert (HP : 0 < 2 ^ sh) by (apply Z.pow_pos_nonneg; lia).
  pose proof (round_half_even_bounds N1 sh Hsh) as (B1 & _).
  pose proof (round_half_even_bounds N2 sh Hsh) as (B2 & _).
  pose proof (Z.div_le_mono N1 N2 (2 ^ sh) HP HN) as Hq.
  destruct (Z.eq_dec (N1 / 2 ^ sh) (N2 / 2 ^ sh)) as [Heq | Hne]; [| lia].
  clear B1 B2 Hq. unfold round_half_even. rewrite <- Heq.
  pose proof (Z.div_mod N1 (2 ^ sh) ltac:(lia)) as D1.
  pose proof (Z.div_mod N2 (2 ^ sh) ltac:(lia)) as D2.
  rewrite <- Heq in D2. clear Heq.
  set (P := 2 ^ sh) in *. clearbody P.
  set (q := N1 / P) in *. clearbody q.
  set (r1 := N1 mod P) in *. set (r2 := N2 mod P) in *. clearbody r1 r2.
  assert (Hr : r1 <= r2) by lia.
  destruct (Z.compare_spec (2 * r1) P), (Z.compare_spec (2 * r2) P);
    destruct (Z.even q); lia.
Qed.

Lemma round_half_even_lower (N sh a : Z) :
  0 <= sh -> a * 2 ^ sh <= N -> a <= round_half_even N sh.
Proof.
  intros Hsh Ha.
  assert (HP : 0 < 2 ^ sh) by (apply Z.pow_pos_nonneg; lia).
  pose proof (round_half_even_bounds N sh Hsh) as (B & _).
  assert (a <= N / 2 ^ sh) by (apply Z.div_le_lower_bound; lia). lia.
Qed.

Lemma round_half_even_upper (N sh b : Z) :
  0 <= sh -> N <= b * 2 ^ sh -> round_half_even N sh <= b.
Proof.
  intros Hsh Hb.
  assert (HP : 0 < 2 ^ sh) by (apply Z.pow_pos_nonneg; lia).
  pose proof (round_half_even_bounds N sh Hsh) as (B & Hex).
  assert (Hq : N / 2 ^ sh <= b).
  { rewrite <- (Z.div_mul b (2 ^ sh)) by lia. apply Z.div_le_mono; lia. }
  destruct (Z.eq_dec (N / 2 ^ sh) b) as [Heq | Hne]; [| lia].
  rewrite Hex; [lia |].
  pose proof (Z.div_mod N (2 ^ sh) ltac:(lia)) as D.
  pose proof (Z.mod_pos_bound N (2 ^ sh) HP). rewrite Heq in D. nia.
Qed.

(** *** Rounding a magnitude to binary32 is monotone *)

Lemma round32_nonneg (N : Z) : 0 <= N -> 0 <= round32 N.
Proof.
  intros HN. unfold round32.
  set (sh := Z.max (Z.log2 N - 23) 925).
  assert (Hsh : 0 <= sh) by (unfold sh; lia).
  assert (HP : 0 < 2 ^ sh) by (apply Z.pow_pos_nonneg; lia).
  pose proof (round_half_even_lower N sh 0 Hsh ltac:(lia)). nia.
Qed.

Lemma round32_mono (N1 N2 : Z) : 0 < N1 -> N1 <= N2 -> round32 N1 <= round32 N2.
Proof.
  intros H1 H12. unfold round32.
  pose proof (Z.log2_le_mono N1 N2 H12) as Hd.
  pose proof (Z.log2_spec N1 H1) as (L1 & U1).
  pose proof (Z.log2_spec N2 ltac:(lia)) as (L2 & U2).
  pose proof (Z.log2_nonneg N1) as Hd1.
  set (d1 := Z.log2 N1) in *. set (d2 := Z.log2 N2) in *. clearbody d1 d2.
  set (sh1 := Z.max (d1 - 23) 925). set (sh2 := Z.max (d2 - 23) 925).
  assert (Hsh1 : 0 <= sh1) by (unfold sh1; lia).
  assert (Hsh2 : 0 <= sh2) by (unfold sh2; lia).
  destruct (Z.eq_dec sh1 sh2) as [Heq | Hne].
  - rewrite <- Heq.
    assert (HP : 0 < 2 ^ sh1) by (apply Z.pow_pos_nonneg; lia).
    pose proof (round_half_even_mono N1 N2 sh1 Hsh1 H12). nia.
  - (* the binade of [N2] starts at a point of both grids *)
    assert (Hlt : sh1 < sh2 /\ sh2 = d2 - 23 /\ d1 < d2) by (unfold sh1, sh2 in *; lia).
    destruct Hlt as (Hlt & Hs2 & Hdd).
    assert (HB : N1 <= 2 ^ d2).
    { apply Z.lt_le_incl, Z.lt_le_trans with (2 ^ Z.succ d1); [exact U1 |].
      apply Z.pow_le_mono_r; lia. }
    apply Z.le_trans with (2 ^ d2).
    + replace (2 ^ d2) with (2 ^ (d2 - sh1) * 2 ^ sh1)
        by (rewrite <- Z.pow_add_r by lia; f_equal; lia).
      apply Z.mul_le_mono_nonneg_r; [apply Z.pow_nonneg; lia |].
      apply round_half_even_upper; [exact Hsh1 |].
      rewrite <- Z.pow_add_r by lia. replace (d2 - sh1 + sh1) with d2 by lia. exact HB.
    + replace (2 ^ d2) with (2 ^ (d2 - sh2) * 2 ^ sh2) at 1
        by (rewrite <- Z.pow_add_r by lia; f_equal; lia).
      apply Z.mul_le_mono_nonneg_r; [apply Z.pow_nonneg; lia |].
      apply round_half_even_lower; [exact Hsh2 |].
      rewrite <- Z.pow_add_r by lia. replace (d2 - sh2 + sh2) with d2 by lia. exact L2.
Qed.

(** A rounded magnitude has at most 24 significant bits above its last
    place. *)
Lemma round32_shape (N : Z) :
  0 < N ->
  exists q sh, round32 N = q * 2 ^ sh /\ 0 <= q <= 2 ^ 24 /\ 925 <= sh.
Proof.
  intros HN. unfold round32.
  pose proof (Z.log2_spec N HN) as (L & U). pose proof (Z.log2_nonneg N) as Hd.
  set (d := Z.log2 N) in *. clearbody d.
  set (sh := Z.max (d - 23) 925).
  assert (Hsh : 0 <= sh) by (unfold sh; lia).
  exists (round_half_even N sh), sh. split; [reflexivity |]. split; [| unfold sh; lia].
  split; [apply round_half_even_lower; [exact Hsh | lia] |].
  apply round_half_even_upper; [exact Hsh |].
  rewrite <- Z.pow_add_r by lia.
  apply Z.lt_le_incl, Z.lt_le_trans with (2 ^ Z.succ d); [exact U |].
  apply Z.pow_le_mono_r; unfold sh; lia.
Qed.

(** *** The order of binary64 through exact magnitudes *)

Lemma digits2_pos_bounds (m : positive) :
  2 ^ (Z.pos (digits2_pos m) - 1) <= Z.pos m < 2 ^ Z.pos (digits2_pos m).
Proof.
  induction m as [p IH | p IH |]; cbn [digits2_pos].
  - rewrite Pos2Z.inj_succ, Pos2Z.inj_xI.
    replace (Z.succ (Z.pos (digits2_pos p)) - 1)
      with (Z.succ (Z.pos (digits2_pos p) - 1)) by lia.
    rewrite !Z.pow_succ_r by lia. lia.
  - rewrite Pos2Z.inj_succ. change (Z.pos p~0) with (2 * Z.pos p).
    replace (Z.succ (Z.pos (digits2_pos p)) - 1)
      with (Z.succ (Z.pos (digits2_pos p) - 1)) by lia.
    rewrite !Z.pow_succ_r by lia. lia.
  - split; [apply Z.leb_le | apply Z.ltb_lt]; reflexivity.
Qed.

(** A mantissa between [2^52] and [2^53] has 53 digits. *)
Lemma digits2_pos_53 (m : positive) :
  2 ^ 52 <= Z.pos m < 2 ^ 53 -> Z.pos (digits2_pos m) = 53.
Proof.
  intros (Hlo & Hhi). pose proof (digits2_pos_bounds m) as (L & U).
  set (d := Z.pos (digits2_pos m)) in *.
  assert (Hd : 0 < d) by (unfold d; lia). clearbody d.
  destruct (Z.lt_trichotomy d 53) as [Hlt | [Heq | Hgt]]; [exfalso | exact Heq | exfalso].
  - assert (2 ^ d <= 2 ^ 52) by (apply Z.pow_le_mono_r; lia). lia.
  - assert (2 ^ 53 <= 2 ^ (d - 1)) by (apply Z.pow_le_mono_r; lia). lia.
Qed.

(** What a valid finite binary64 number looks like. *)
Lemma valid_finite (m : positive) (e : Z) :
  bounded prec emax m e = true ->
  -1074 <= e <= 971 /\ Z.pos m < 2 ^ 53 /\ (-1074 < e -> 2 ^ 52 <= Z.pos m).
Proof.
  unfold bounded, canonical_mantissa, fexp, SpecFloat.emin, prec, emax.
  intros H. apply andb_true_iff in H as (Hc & Hb).
  apply Z.eqb_eq in Hc. apply Z.leb_le in Hb.
  pose proof (digits2_pos_bounds m) as (L & U).
  set (d := Z.pos (digits2_pos m)) in *.
  assert (Hd : 0 < d) by (unfold d; lia). clearbody d.
  split; [lia |]. split.
  - apply Z.lt_le_trans with (2 ^ d); [exact U | apply Z.pow_le_mono_r; lia].
  - intros He. replace d with 53 in L by lia. exact L.
Qed.

Lemma mag_bounds (m : positive) (e : Z) :
  bounded prec emax m e = true -> 0 < mag m e < INF.
Proof.
  intros H. apply valid_finite in H as (He & Hm & _). unfold mag, INF.
  assert (HP : 0 < 2 ^ (e + 1074)) by (apply Z.pow_pos_nonneg; lia).
  split; [lia |].
  apply Z.lt_le_trans with (2 ^ 53 * 2 ^ (e + 1074)).
  - apply Z.mul_lt_mono_pos_r; assumption.
  - rewrite <- Z.pow_add_r by lia. apply Z.pow_le_mono_r; lia.
Qed.

Lemma mag_lt (m1 m2 : positive) (e1 e2 : Z) :
  bounded prec emax m1 e1 = true -> bounded prec emax m2 e2 = true ->
  e1 < e2 -> mag m1 e1 < mag m2 e2.
Proof.
  intros H1 H2 He.
  apply valid_finite in H1 as (He1 & Hm1 & _).
  apply valid_finite in H2 as (He2 & _ & Hm2). specialize (Hm2 ltac:(lia)).
  unfold mag.
  assert (HP1 : 0 < 2 ^ (e1 + 1074)) by (apply Z.pow_pos_nonneg; lia).
  assert (HP2 : 0 < 2 ^ (e2 + 1074)) by (apply Z.pow_pos_nonneg; lia).
  apply Z.lt_le_trans with (2 ^ 53 * 2 ^ (e1 + 1074));
    [apply Z.mul_lt_mono_pos_r; assumption |].
  apply Z.le_trans with (2 ^ 52 * 2 ^ (e2 + 1074));
    [| apply Z.mul_le_mono_nonneg_r; [lia | exact Hm2]].
  rewrite <- !Z.pow_add_r by lia. apply Z.pow_le_mono_r; lia.
Qed.

Lemma mag_compare (m1 m2 : positive) (e1 e2 : Z) :
  bounded prec emax m1 e1 = true -> bounded prec emax m2 e2 = true ->
  (mag m1 e1 ?= mag m2 e2) =
  match e1 ?= e2 with
  | Lt => Lt
  | Gt => Gt
  | Eq => (m1 ?= m2)%positive
  end.
Proof.
  intros H1 H2. destruct (Z.compare_spec e1 e2) as [-> | Hlt | Hgt].
  - unfold mag. apply valid_finite in H2 as (He2 & _).
    assert (HP : 0 < 2 ^ (e2 + 1074)) by (apply Z.pow_pos_nonneg; lia).
    destruct (Pos.compare_spec m1 m2) as [-> | Hm | Hm].
    + apply Z.compare_refl.
    + apply Z.compare_lt_iff, Z.mul_lt_mono_pos_r; [exact HP | lia].
    + apply Z.compare_gt_iff, Z.mul_lt_mono_pos_r; [exact HP | lia].
  - apply Z.compare_lt_iff, mag_lt; assumption.
  - apply Z.compare_gt_iff, mag_lt; assumption.
Qed.

Lemma INF_pos : 0 < INF.
Proof. unfold INF. apply Z.pow_pos_nonneg; lia. Qed.

Lemma SFcompare_ord (a b : spec_float) :
  valid_binary a = true -> valid_binary b = true ->
  a <> S754_nan -> b <> S754_nan ->
  SFcompare a b = Some (ord a ?= ord b).
Proof.
  intros Ha Hb Na Nb. pose proof INF_pos as HI.
  destruct a as [sa | sa | | sa ma ea], b as [sb | sb | | sb mb eb];
    try congruence; cbn [valid_binary] in Ha, Hb;
    try (pose proof (mag_bounds _ _ Ha) as Ba);
    try (pose proof (mag_bounds _ _ Hb) as Bb);
    unfold SFcompare, ord.
  all: try (destruct sa); try (destruct sb); f_equal; symmetry.
  all: try (apply Z.compare_eq_iff; lia); try (apply Z.compare_lt_iff; lia);
       try (apply Z.compare_gt_iff; lia).
  - rewrite Z.compare_opp, mag_compare by assumption.
    rewrite (Z.compare_antisym ea eb), (Pos.compare_antisym ma mb), Pos.compare_cont_spec.
    unfold Pos.switch_Eq. destruct (ea ?= eb); cbn; try reflexivity.
    destruct (ma ?= mb)%positive; reflexivity.
  - rewrite mag_compare by assumption. rewrite Pos.compare_cont_spec.
    unfold Pos.switch_Eq. destruct (ea ?= eb); try reflexivity.
    destruct (ma ?= mb)%positive; reflexivity.
Qed.

(** *** The rounded number as a binary64 number *)

Lemma round32_exact (N : Z) :
  0 < N -> 0 < round32 N ->
  let R := round32 N in
  let k := Z.log2 R - 52 in
  0 <= k /\ 2 ^ 52 <= R / 2 ^ k < 2 ^ 53 /\ R / 2 ^ k * 2 ^ k = R.
Proof.
  intros HN HR R k.
  destruct (round32_shape N HN) as (q & sh & Hq & (Hq0 & Hq24) & Hsh).
  fold R in Hq, HR.
  pose proof (Z.log2_spec R HR) as (L & U). fold (Z.log2 R) in *.
  assert (HPsh : 0 < 2 ^ sh) by (apply Z.pow_pos_nonneg; lia).
  assert (Hq1 : 1 <= q) by nia.
  assert (Hlo : sh <= Z.log2 R).
  { apply Z.log2_le_pow2; [exact HR |]. nia. }
  assert (Hhi : Z.log2 R <= 24 + sh).
  { rewrite <- (Z.log2_pow2 (24 + sh)) by lia. apply Z.log2_le_mono.
    rewrite Z.pow_add_r by lia. rewrite Hq. apply Z.mul_le_mono_nonneg_r; lia. }
  assert (Hk : 0 <= k < sh) by (unfold k; lia).
  assert (HPk : 0 < 2 ^ k) by (apply Z.pow_pos_nonneg; lia).
  assert (Hdiv : R / 2 ^ k = q * 2 ^ (sh - k)).
  { rewrite Hq. replace (2 ^ sh) with (2 ^ (sh - k) * 2 ^ k)
      by (rewrite <- Z.pow_add_r by lia; f_equal; lia).
    rewrite Z.mul_assoc. apply Z.div_mul. lia. }
  assert (Hexact : R / 2 ^ k * 2 ^ k = R).
  { rewrite Hdiv, <- Z.mul_assoc, <- Z.pow_add_r by lia.
    replace (sh - k + k) with sh by lia. symmetry; exact Hq. }
  split; [lia |]. split; [| exact Hexact].
  replace (Z.succ (Z.log2 R)) with (53 + k) in U by (unfold k; lia).
  replace (Z.log2 R) with (52 + k) in L by (unfold k; lia).
  rewrite Z.pow_add_r in L, U by lia. rewrite <- Hexact in L, U.
  split.
  - apply (Z.mul_le_mono_pos_r _ _ (2 ^ k)); assumption.
  - apply (Z.mul_lt_mono_pos_r (2 ^ k)); assumption.
Qed.

Lemma SF32_valid (f : spec_float) :
  valid_binary f = true -> valid_binary (SF32 f) = true.
Proof.
  destruct f as [s | s | | s m e]; try reflexivity. cbn [SpecFloat.valid_binary SF32].
  intros Hv. pose proof (mag_bounds m e Hv) as (HN & _). fold (mag m e).
  pose proof (round32_nonneg (mag m e) ltac:(lia)) as HR0.
  destruct (Z.eqb_spec (round32 (mag m e)) 0) as [| HRne]; [reflexivity |].
  destruct (Z.leb_spec (2 ^ 1202) (round32 (mag m e))) as [| Hfin]; [reflexivity |].
  cbn [SpecFloat.valid_binary].
  destruct (round32_exact (mag m e) HN ltac:(lia)) as (Hk & Hm & _).
  assert (Hlog : Z.log2 (round32 (mag m e)) < 1202)
    by (apply Z.log2_lt_pow2; lia).
  set (R := round32 (mag m e)) in *. set (k := Z.log2 R - 52) in *.
  assert (Hpos : Z.pos (Z.to_pos (R / 2 ^ k)) = R / 2 ^ k) by (apply Z2Pos.id; lia).
  unfold bounded, canonical_mantissa, fexp, SpecFloat.emin, prec, emax.
  rewrite digits2_pos_53 by (rewrite Hpos; exact Hm).
  apply andb_true_iff. split; [apply Z.eqb_eq | apply Z.leb_le]; lia.
Qed.

Lemma ord_SF32 (f : spec_float) :
  valid_binary f = true -> ord (SF32 f) = round32_ord (ord f).
Proof.
  pose proof INF_pos as HI.
  destruct f as [s | s | | s m e]; cbn [SpecFloat.valid_binary SF32 ord]; intros Hv.
  - reflexivity.
  - unfold round32_ord. destruct s.
    + destruct (Z.eqb_spec (- INF) 0); [lia |].
      destruct (Z.leb_spec INF (Z.abs (- INF))); [reflexivity | lia].
    + destruct (Z.eqb_spec INF 0); [lia |].
      destruct (Z.leb_spec INF (Z.abs INF)); [reflexivity | lia].
  - reflexivity.
  - pose proof (mag_bounds m e Hv) as (HN & HNI). fold (mag m e).
    pose proof (round32_nonneg (mag m e) ltac:(lia)) as HR0.
    assert (Hord : round32_ord (if s then - mag m e else mag m e) =
                   (if s then - clamp32 (mag m e) else clamp32 (mag m e))).
    { unfold round32_ord. destruct s.
      - destruct (Z.eqb_spec (- mag m e) 0); [lia |].
        destruct (Z.leb_spec INF (Z.abs (- mag m e))); [lia |].
        rewrite Z.abs_opp, Z.abs_eq, Z.sgn_neg by lia. lia.
      - destruct (Z.eqb_spec (mag m e) 0); [lia |].
        destruct (Z.leb_spec INF (Z.abs (mag m e))); [lia |].
        rewrite Z.abs_eq, Z.sgn_pos by lia. lia. }
    rewrite Hord. unfold clamp32.
    destruct (Z.eqb_spec (round32 (mag m e)) 0) as [HR | HRne].
    + rewrite HR. cbn [ord]. destruct (Z.leb_spec (2 ^ 1202) 0) as [Hbad | _].
      * exfalso. assert (0 < 2 ^ 1202) by (apply Z.pow_pos_nonneg; lia). lia.
      * destruct s; reflexivity.
    + destruct (Z.leb_spec (2 ^ 1202) (round32 (mag m e))) as [| Hfin]; [reflexivity |].
      destruct (round32_exact (mag m e) HN ltac:(lia)) as (Hk & Hm & Hex).
      set (R := round32 (mag m e)) in *. set (k := Z.log2 R - 52) in *.
      assert (Hmag : mag (Z.to_pos (R / 2 ^ k)) (k - 1074) = R).
      { unfold mag. assert (0 < 2 ^ 52) by (apply Z.pow_pos_nonneg; lia).
        rewrite Z2Pos.id by (apply Z.lt_le_trans with (2 ^ 52); [assumption | apply Hm]).
        replace (k - 1074 + 1074) with k by lia. exact Hex. }
      cbn [ord]. rewrite Hmag. reflexivity.
Qed.

Lemma clamp32_bounds (N : Z) : 0 < N -> 0 <= clamp32 N <= INF.
Proof.
  intros HN. unfold clamp32. pose proof INF_pos.
  pose proof (round32_nonneg N ltac:(lia)).
  destruct (Z.leb_spec (2 ^ 1202) (round32 N)); [lia |].
  assert (2 ^ 1202 <= INF) by (unfold INF; apply Z.pow_le_mono_r; lia). lia.
Qed.

Lemma clamp32_mono (N1 N2 : Z) : 0 < N1 -> N1 <= N2 -> clamp32 N1 <= clamp32 N2.
Proof.
  intros H1 H12. pose proof (round32_mono N1 N2 H1 H12) as HR.
  pose proof (clamp32_bounds N1 H1) as B1. unfold clamp32 in *.
  destruct (Z.leb_spec (2 ^ 1202) (round32 N1)), (Z.leb_spec (2 ^ 1202) (round32 N2)); lia.
Qed.

Lemma round32_ord_mono (z1 z2 : Z) :
  Z.abs z1 <= INF -> Z.abs z2 <= INF -> z1 <= z2 -> round32_ord z1 <= round32_ord z2.
Proof.
  intros A1 A2 H. pose proof INF_pos as HI. unfold round32_ord.
  destruct (Z.eqb_spec z1 0) as [-> | N1], (Z.eqb_spec z2 0) as [-> | N2];
    try lia;
    repeat match goal with
    | |- context [INF <=? ?a] => destruct (Z.leb_spec INF a)
    end;
    try (pose proof (clamp32_bounds (Z.abs z1) ltac:(lia)));
    try (pose proof (clamp32_bounds (Z.abs z2) ltac:(lia)));
    try lia.
  all: destruct (Z.sgn_spec z1) as [(S1 & ->) | [(S1 & ->) | (S1 & ->)]];
       destruct (Z.sgn_spec z2) as [(S2 & ->) | [(S2 & ->) | (S2 & ->)]]; try lia.
  - pose proof (clamp32_mono (Z.abs z1) (Z.abs z2) ltac:(lia) ltac:(lia)). lia.
  - pose proof (clamp32_mono (Z.abs z2) (Z.abs z1) ltac:(lia) ltac:(lia)). lia.
Qed.

Lemma ord_bound (f : spec_float) : valid_binary f = true -> Z.abs (ord f) <= INF.
Proof.
  pose proof INF_pos. destruct f as [s | s | | s m e]; cbn [SpecFloat.valid_binary ord];
    intros Hv; try (destruct s); try lia.
  all: pose proof (mag_bounds m e Hv); lia.
Qed.

Lemma SF32_nan (f : spec_float) : f <> S754_nan -> SF32 f <> S754_nan.
Proof.
  destruct f as [s | s | | s m e]; cbn [SF32]; try congruence.
  intros _. destruct (_ =? 0); [discriminate |]. destruct (_ <=? _); discriminate.
Qed.

(** Rounding to binary32 is monotone. *)
Theorem to_float32_monotone (x y : float) :
  (x <=? y)%float = true -> (to_float32 x <=? to_float32 y)%float = true.
Proof.
  rewrite !leb_spec. unfold to_float32.
  pose proof (Prim2SF_valid x) as Vx. pose proof (Prim2SF_valid y) as Vy.
  rewrite !Prim2SF_SF2Prim by (apply SF32_valid; assumption).
  set (a := Prim2SF x) in *. set (b := Prim2SF y) in *. clearbody a b.
  unfold SFleb. intros H.
  assert (Na : a <> S754_nan) by (intros ->; discriminate).
  assert (Nb : b <> S754_nan) by (intros ->; destruct a; discriminate).
  rewrite SFcompare_ord in H by assumption.
  rewrite SFcompare_ord
    by (try apply SF32_valid; try apply SF32_nan; assumption).
  rewrite !ord_SF32 by assumption.
  assert (Hle : ord a <= ord b).
  { destruct (Z.compare_spec (ord a) (ord b)); [lia | lia | discriminate]. }
  pose proof (round32_ord_mono _ _ (ord_bound a Vx) (ord_bound b Vy) Hle) as Hr.
  destruct (Z.compare_spec (round32_ord (ord a)) (round32_ord (ord b)));
    [reflexivity | reflexivity | lia].
Qed.

Lemma to_float32_minus_one : to_float32 (-1) = (-1)%float.
Proof. vm_compute. reflexivity. Qed.

(** Rounding a binary32 number leaves it as it is. *)
Lemma round_half_even_multiple (a sh : Z) :
  0 <= sh -> round_half_even (a * 2 ^ sh) sh = a.
Proof.
  intros Hsh. unfold round_half_even.
  assert (HP : 0 < 2 ^ sh) by (apply Z.pow_pos_nonneg; lia).
  rewrite Z.div_mul by lia. rewrite Z.mod_mul by lia.
  destruct (Z.compare_spec (2 * 0) (2 ^ sh)); [lia | reflexivity | lia].
Qed.

Lemma round32_multiple (a sh : Z) :
  0 <= a -> Z.max (Z.log2 (a * 2 ^ sh) - 23) 925 <= sh ->
  round32 (a * 2 ^ sh) = a * 2 ^ sh.
Proof.
  intros Ha Hsh. unfold round32.
  set (sh' := Z.max (Z.log2 (a * 2 ^ sh) - 23) 925) in *.
  assert (H0 : 0 <= sh') by (unfold sh'; lia). clearbody sh'.
  assert (E : a * 2 ^ sh = a * 2 ^ (sh - sh') * 2 ^ sh').
  { rewrite <- Z.mul_assoc, <- Z.pow_add_r by lia. do 2 f_equal. lia. }
  rewrite E, round_half_even_multiple by lia. reflexivity.
Qed.

Lemma round32_idem (N : Z) : 0 < N -> round32 (round32 N) = round32 N.
Proof.
  intros HN. destruct (round32_shape N HN) as (q & sh & HR & Hq & Hsh).
  rewrite HR.
  destruct (Z.eq_dec q 0) as [-> | Hq0]; [reflexivity |].
  assert (Hlog : Z.log2 (q * 2 ^ sh) = Z.log2 q + sh).
  { rewrite Z.log2_mul_pow2 by lia. lia. }
  assert (Hl24 : Z.log2 q <= 24).
  { replace 24 with (Z.log2 (2 ^ 24)) by reflexivity. apply Z.log2_le_mono. lia. }
  destruct (Z.eq_dec (Z.log2 q) 24) as [H24 | H24].
  - assert (q = 2 ^ 24).
    { pose proof (Z.log2_spec q ltac:(lia)) as (L & _). rewrite H24 in L. lia. }
    subst q. replace (2 ^ 24 * 2 ^ sh) with (2 ^ 23 * 2 ^ (sh + 1)).
    + apply round32_multiple; [lia |].
      rewrite Z.log2_mul_pow2 by lia. change (Z.log2 (2 ^ 23)) with 23. lia.
    + rewrite Z.pow_add_r by lia. lia.
  - apply round32_multiple; [lia |]. rewrite Hlog. lia.
Qed.

Lemma round32_ord_idem (z : Z) : round32_ord (round32_ord z) = round32_ord z.
Proof.
  pose proof INF_pos as HI. unfold round32_ord.
  destruct (Z.eqb_spec z 0) as [-> | Hz]; [reflexivity |].
  destruct (Z.leb_spec INF (Z.abs z)) as [Hbig | Hsmall].
  - rewrite (proj2 (Z.eqb_neq _ _) Hz), (proj2 (Z.leb_le _ _) Hbig). reflexivity.
  - assert (HN : 0 < Z.abs z) by lia.
    pose proof (clamp32_bounds (Z.abs z) HN) as Hc.
    set (c := clamp32 (Z.abs z)) in *.
    assert (Hsgn : Z.sgn z = 1 \/ Z.sgn z = -1)
      by (destruct (Z.sgn_spec z) as [(? & ->) | [(? & ?) | (? & ->)]]; lia).
    destruct (Z.eqb_spec (Z.sgn z * c) 0) as [-> | Hw]; [reflexivity |].
    assert (Hc0 : 0 < c) by (destruct Hsgn as [E | E]; rewrite E in Hw; lia).
    assert (Habs : Z.abs (Z.sgn z * c) = c)
      by (destruct Hsgn as [E | E]; rewrite E; lia).
    assert (Hs : Z.sgn (Z.sgn z * c) = Z.sgn z).
    { destruct Hsgn as [E | E]; rewrite E.
      - rewrite Z.mul_1_l. apply Z.sgn_pos. lia.
      - replace (-1 * c) with (- c) by lia. apply Z.sgn_neg. lia. }
    rewrite Habs, Hs.
    destruct (Z.leb_spec INF c) as [Hinf | Hfin]; [reflexivity |].
    f_equal. unfold c, clamp32 in *.
    destruct (Z.leb_spec (2 ^ 1202) (round32 (Z.abs z))) as [H1 | H1]; [lia |].
    rewrite round32_idem by lia.
    rewrite (proj2 (Z.leb_gt _ _) H1). reflexivity.
Qed.

(** A threshold below a binary32 number is, once rounded, still below it. *)
Lemma to_float32_leb_fixed (t y : float) :
  (t <=? to_float32 y)%float = true ->
  (to_float32 t <=? to_float32 y)%float = true.
Proof.
  rewrite !leb_spec. unfold to_float32.
  pose proof (Prim2SF_valid t) as Vt. pose proof (Prim2SF_valid y) as Vy.
  rewrite !Prim2SF_SF2Prim by (apply SF32_valid; assumption).
  set (a := Prim2SF t) in *. set (b := Prim2SF y) in *. clearbody a b.
  unfold SFleb. intros H.
  assert (Na : a <> S754_nan) by (intros ->; discriminate).
  assert (Nb : SF32 b <> S754_nan) by (intros E; rewrite E in H; destruct a; discriminate).
  assert (Nb' : b <> S754_nan) by (intros E; apply Nb; rewrite E; reflexivity).
  pose proof (SF32_valid b Vy) as Vb.
  rewrite SFcompare_ord in H by assumption.
  rewrite SFcompare_ord by (try apply SF32_valid; try apply SF32_nan; assumption).
  rewrite (ord_SF32 a) by assumption.
  assert (Hle : ord a <= ord (SF32 b)).
  { destruct (Z.compare_spec (ord a) (ord (SF32 b))); [lia | lia | discriminate]. }
  pose proof (round32_ord_mono _ _ (ord_bound a Vt) (ord_bound (SF32 b) Vb) Hle) as Hr.
  rewrite (ord_SF32 b Vy), round32_ord_idem in Hr.
  rewrite <- (ord_SF32 b Vy) in Hr.
  destruct (Z.compare_spec (round32_ord (ord a)) (ord (SF32 b)));
    [reflexivity | reflexivity | lia].
Qed.

End Float32.

(** The two roundings to binary32 agree: on the thresholds of the service,
    on ties, on numbers below the least binary32 number and above the
    greatest, and on numbers that are binary32 already. *)
Example to_float32_thresholds :
  to_float32 0.45 = 0.44999998807907104%float /\
  to_float32 0.2 = 0.20000000298023224%float /\
  to_float32 19 = 19%float /\ to_float32 (-1) = (-1)%float.
Proof. vm_compute. repeat split; reflexivity. Qed.

Example to_float32_agrees :
  let samples :=
    [0.45; 0.2; 0.05; 0.3; 1; -1; 19; 0; -0; 0.1; -0.1; 0.550000011920929;
     0.449999988079071; 16777217; 16777219; 33554434; 33554438; 1e-46; 1e-45;
     7e-46; 2e-45; 1.1754943508222875e-38; 1.1754942e-38; 1e-310; 3.4028234663852886e38;
     3.4028235677973366e38; 3.4028236e38; 1e39; -1e39; 1.5; 0.1234567890123;
     123456789.125; infinity; neg_infinity]%float in
  map to_float32 samples = map to_float32_ref samples.
Proof. vm_compute. reflexivity. Qed.

(** The cast of a Python number to the type of a scalar keeps the order. *)
Lemma cast_monotone (dt : dtype) (x y : float) :
  (x <=? y)%float = true -> (cast dt x <=? cast dt y)%float = true.
Proof.
  destruct dt; cbn [cast]; [apply Float32.to_float32_monotone | trivial].
Qed.

Lemma np_lt_not_ge (s : np_float) (t : float) :
  np_lt s t = true -> np_ge s t = false.
Proof. apply FloatOrder.ltb_not_leb. Qed.

(** A similarity [1 - d] whose value is at least the threshold reaches it. *)
Lemma np_ge_value (d : np_float) (t : float) :
  (t <=? np_value (np_rsub_one d))%float = true -> np_ge (np_rsub_one d) t = true.
Proof.
  unfold np_ge, np_rsub_one. cbn [np_dtype np_value].
  destruct (np_dtype d); cbn [cast]; [apply Float32.to_float32_leb_fixed | trivial].
Qed.


(** A scalar that reaches a threshold reaches every lower one. *)
Lemma np_ge_antitone (s : np_float) (t1 t2 : float) :
  (t1 <=? t2)%float = true -> np_ge s t2 = true -> np_ge s t1 = true.
Proof.
  unfold np_ge. intros Ht H2.
  exact (FloatOrder.leb_trans _ _ _ (cast_monotone (np_dtype s) _ _ Ht) H2).
Qed.

(** ** Facts on the Python helpers *)

Lemma bind_ok {A B : Type} (r : result A) (k : A -> result B) (b : B) :
  bind r k = Ok b -> exists a, r = Ok a /\ k a = Ok b.
Proof.
  destruct r as [a | e]; cbn; intros H; [exists a; auto | discriminate].
Qed.

Lemma valid_embeddings_from (pre embeddings : list (option ndarray)) :
  flat_map (fun i => match nth i (pre ++ embeddings) None with
                     | Some e => [e]
                     | None => []
                     end)
    (map fst (filter (fun ie => is_some (snd ie))
                     (enumerate_from (List.length pre) embeddings)))
  = somes embeddings.
Proof.
  revert pre; induction embeddings as [| x rest IH]; intros pre; [reflexivity |].
  assert (Hnth : nth (List.length pre) (pre ++ x :: rest) None = x).
  { rewrite app_nth2, Nat.sub_diag by lia. reflexivity. }
  specialize (IH (pre ++ [x])).
  rewrite <- app_assoc, length_app, Nat.add_1_r in IH. cbn [app] in IH.
  destruct x as [e |]; cbn [enumerate_from filter snd is_some map fst flat_map somes].
  - rewrite Hnth, IH. reflexivity.
  - exact IH.
Qed.

Lemma valid_embeddings_eq (embeddings : list (option ndarray)) :
  valid_embeddings embeddings = somes embeddings.
Proof. exact (valid_embeddings_from [] embeddings). Qed.


Lemma vstack_well_formed (d : nat) (rows : list ndarray) :
  rows <> [] -> well_formed d rows -> vstack rows = Ok rows.
Proof.
  destruct rows as [| r rest]; [congruence |]; intros _ H.
  inversion H as [| ? ? [Hr _] Hrest]; subst.
  cbn.
  match goal with |- context [forallb ?p rest] =>
    replace (forallb p rest) with true; [reflexivity |]
  end.
  symmetry; apply forallb_forall; intros r' Hin.
  rewrite Forall_forall in Hrest. destruct (Hrest r' Hin) as [-> _].
  apply Nat.eqb_refl.
Qed.

Lemma well_formed_somes (d : nat) (embeddings : list (option ndarray)) :
  wf_embeddings d embeddings -> well_formed d (somes embeddings).
Proof.
  induction 1 as [| [v |] rest Hx _ IH]; cbn; [constructor | | exact IH].
  constructor; assumption.
Qed.

Lemma len_set_exact (labels : list nat) (n : nat) :
  (forall c, In c labels <-> c < n) -> len_set labels = n.
Proof.
  intros H. unfold len_set.
  transitivity (List.length (seq 0 n)); [| apply length_seq].
  apply Permutation_length.
  apply NoDup_Permutation; [apply NoDup_nodup | apply seq_NoDup |].
  intros c. rewrite nodup_In, in_seq, H. lia.
Qed.

(** [argmax]: the first position of the largest entry. *)
Lemma argmax_from_spec (f : nat -> nat) (n i best_i : nat) :
  best_i < i ->
  (forall k, k < i -> f k <= f best_i) ->
  (forall k, k < best_i -> f k < f best_i) ->
  let j := argmax_from (map f (seq i n)) i best_i (f best_i) in
  j < i + n /\
  (forall k, k < i + n -> f k <= f j) /\
  (forall k, k < j -> f k < f j).
Proof.
  revert i best_i; induction n as [| n IH]; intros i best_i Hlt Hmax Hfirst;
    cbn [seq map argmax_from]; cbv zeta.
  - repeat split; [lia | | assumption].
    intros k Hk; apply Hmax; lia.
  - destruct (f best_i <? f i) eqn:Hcmp.
    + apply Nat.ltb_lt in Hcmp.
      destruct (IH (S i) i) as (H1 & H2 & H3); [lia | | |].
      * intros k Hk. destruct (Nat.eq_dec k i) as [-> | Hne]; [lia |].
        specialize (Hmax k); lia.
      * intros k Hk. specialize (Hmax k); lia.
      * repeat split; [lia | | exact H3].
        intros k Hk; apply H2; lia.
    + apply Nat.ltb_ge in Hcmp.
      destruct (IH (S i) best_i) as (H1 & H2 & H3); [lia | | assumption |].
      * intros k Hk. destruct (Nat.eq_dec k i) as [-> | Hne]; [lia |].
        apply Hmax; lia.
      * repeat split; [lia | | exact H3].
        intros k Hk; apply H2; lia.
Qed.

Lemma count_occ_above_max (l : list nat) (c : nat) :
  list_max l < c -> count_occ Nat.eq_dec l c = 0.
Proof.
  intros H. apply count_occ_not_In. intros Hin.
  assert (Hle : list_max l <= list_max l) by lia.
  rewrite list_max_le, Forall_forall in Hle.
  specialize (Hle c Hin). lia.
Qed.

Lemma argmax_bincount (l : list nat) :
  l <> [] ->
  exists c, argmax (bincount l) = Ok c /\ most_frequent c l.
Proof.
  intros Hne. destruct l as [| x r]; [congruence |].
  set (l := x :: r) in *.
  set (f := count_occ Nat.eq_dec l).
  assert (Hb : bincount l = f 0 :: map f (seq 1 (list_max l))) by reflexivity.
  rewrite Hb. cbn [argmax].
  destruct (argmax_from_spec f (list_max l) 1 0) as (H1 & H2 & H3);
    [lia | intros k Hk; replace k with 0 by lia; lia | intros k Hk; lia |].
  eexists; split; [reflexivity |].
  set (j := argmax_from _ _ _ _) in *.
  intros c'; split.
  - destruct (Nat.lt_ge_cases c' (1 + list_max l)) as [Hc | Hc].
    + apply H2, Hc.
    + fold f. unfold f at 1. rewrite count_occ_above_max by lia. lia.
  - intros Heq. destruct (Nat.lt_ge_cases c' j) as [Hc | Hc]; [| exact Hc].
    specialize (H3 c' Hc). unfold f in H3. lia.
Qed.


Lemma assign_repeat_zero (embeddings : list (option ndarray)) :
  assign embeddings (repeat 0 (List.length (somes embeddings))) 0 =
  repeat "speaker_0"%string (List.length embeddings).
Proof.
  induction embeddings as [| [e |] rest IH]; cbn; [reflexivity | |];
    rewrite IH; reflexivity.
Qed.

(** ** The unsupervised mode *)

Section Unsupervised.

Variable L : SciLib.

Lemma map_back_assign (embeddings : list (option ndarray)) (done ids : list nat)
    (most_common_label : nat) :
  List.length (somes embeddings) <= List.length ids ->
  map_back embeddings (done ++ ids) most_common_label (List.length done) =
  Ok (assign embeddings ids most_common_label).
Proof.
  revert done ids; induction embeddings as [| [e |] rest IH]; intros done ids H;
    cbn [map_back assign somes List.length] in *.
  - reflexivity.
  - destruct ids as [| c ids]; cbn [List.length] in H; [lia |].
    unfold list_get. rewrite nth_error_app2, Nat.sub_diag by lia. cbn [nth_error bind].
    specialize (IH (done ++ [c]) ids).
    rewrite <- app_assoc, length_app, Nat.add_1_r in IH. cbn [app] in IH.
    rewrite IH by lia. reflexivity.
  - rewrite IH by assumption. reflexivity.
Qed.

(** The loop body written with [candidate_score]. *)
Lemma search_clusters_cons (n : nat) (rest : list nat) (X_scaled : Matrix)
    (best : py_number * nat) :
  search_clusters L (n :: rest) X_scaled best =
  (o <- candidate_score L X_scaled n ;;
   match o with
   | Some score =>
       if np_gt_number score (fst best)
       then search_clusters L rest X_scaled (NpNumber score, n)
       else search_clusters L rest X_scaled best
   | None => search_clusters L rest X_scaled best
   end).
Proof.
  cbn [search_clusters]. unfold candidate_score.
  destruct (fit_predict L n X_scaled) as [labels | e]; cbn [bind]; [| reflexivity].
  destruct (1 <? len_set labels); [| reflexivity].
  destruct (silhouette_score L X_scaled labels); reflexivity.
Qed.

(** The comparison of a score with the integer -1, or with another score, is
    the comparison of the values. *)
Lemma exact_minus_one : exact_number (PyNumber (-1)).
Proof.
  intros [[|] v]; unfold np_gt_number, np_gt, cast; cbn [np_dtype np_value number_value];
    [rewrite Float32.to_float32_minus_one |]; reflexivity.
Qed.

Lemma exact_score (s : np_float) : exact_number (NpNumber s).
Proof. intros s'. reflexivity. Qed.

(** What the search returns over the candidates [a, a+1, ..]: either the
    pair it started from, or a scored candidate that beat it; no scored
    candidate has a strictly greater score, and no earlier scored candidate
    has a score as large. *)
Lemma search_clusters_best (X_scaled : Matrix) (len a : nat) (b : py_number) (n : nat)
    (bs : py_number) (bn : nat) :
  exact_number b ->
  n <= a ->
  search_clusters L (seq a len) X_scaled (b, n) = Ok (bs, bn) ->
  ((bs, bn) = (b, n) \/
   (a <= bn < a + len /\
    exists s0, bs = NpNumber s0 /\ candidate_score L X_scaled bn = Ok (Some s0) /\
               (number_value b <? np_value s0)%float = true)) /\
  (forall k s, a <= k < a + len -> candidate_score L X_scaled k = Ok (Some s) ->
               (number_value bs <? np_value s)%float = false) /\
  (forall k s, a <= k < a + len -> k < bn ->
               candidate_score L X_scaled k = Ok (Some s) ->
               (number_value bs <=? np_value s)%float = false).
Proof.
  revert a b n; induction len as [| len IH]; intros a b n Hex Hle Hrun.
  - cbn in Hrun. inversion Hrun; subst.
    split; [left; reflexivity |]. split; intros; lia.
  - cbn [seq] in Hrun. rewrite search_clusters_cons in Hrun.
    apply bind_ok in Hrun as (o & Ho & Hrun).
    destruct o as [s0 |]; cbn [fst] in Hrun.
    + rewrite Hex in Hrun.
      destruct (number_value b <? np_value s0)%float eqn:Hcmp.
      * destruct (IH (S a) (NpNumber s0) a (exact_score s0) (Nat.le_succ_diag_r a) Hrun)
          as (R1 & R2 & R3).
        cbn [number_value] in R1.
        assert (Hbs : (bs, bn) = (NpNumber s0, a) \/
                      (np_value s0 <? number_value bs)%float = true).
        { destruct R1 as [R1 | (_ & s1 & -> & _ & R1)]; auto. }
        split; [right | split].
        -- destruct R1 as [R1 | (Hr & s1 & -> & Hsc & Hlt)].
           ++ inversion R1; subst. split; [lia |]. exists s0. auto.
           ++ split; [lia |]. exists s1. repeat split; [assumption |].
              eapply FloatOrder.ltb_trans; eassumption.
        -- intros k s Hk Hs.
           destruct (Nat.eq_dec k a) as [-> | Hne]; [| apply (R2 k s); [lia | assumption]].
           assert (s = s0) by congruence; subst s.
           destruct Hbs as [Hbs | Hbs].
           ++ inversion Hbs; subst. apply FloatOrder.ltb_irrefl.
           ++ apply FloatOrder.ltb_asym, Hbs.
        -- intros k s Hk Hlt Hs.
           destruct (Nat.eq_dec k a) as [-> | Hne];
             [| apply (R3 k s); [lia | assumption | assumption]].
           assert (s = s0) by congruence; subst s.
           destruct Hbs as [Hbs | Hbs]; [inversion Hbs; lia |].
           apply FloatOrder.ltb_not_leb, Hbs.
      * destruct (IH (S a) b n Hex (Nat.le_le_succ_r _ _ Hle) Hrun) as (R1 & R2 & R3).
        split; [| split].
        -- destruct R1 as [R1 | (Hr & s1 & Hs1 & Hsc & Hlt)]; [left; assumption | right].
           split; [lia |]. exists s1. auto.
        -- intros k s Hk Hs.
           destruct (Nat.eq_dec k a) as [-> | Hne]; [| apply (R2 k s); [lia | assumption]].
           assert (s = s0) by congruence; subst s.
           destruct R1 as [R1 | (_ & s1 & -> & _ & Hlt)]; [inversion R1; subst; assumption |].
           cbn [number_value].
           destruct (np_value s1 <? np_value s0)%float eqn:Hbs; [| reflexivity].
           rewrite (FloatOrder.ltb_trans _ _ _ Hlt Hbs) in Hcmp. discriminate.
        -- intros k s Hk Hlt Hs.
           destruct (Nat.eq_dec k a) as [-> | Hne];
             [| apply (R3 k s); [lia | assumption | assumption]].
           assert (s = s0) by congruence; subst s.
           destruct R1 as [R1 | (_ & s1 & -> & _ & Hb)]; [inversion R1; lia |].
           cbn [number_value].
           destruct (np_value s1 <=? np_value s0)%float eqn:Hbs; [| reflexivity].
           rewrite (FloatOrder.ltb_leb_trans _ _ _ Hb Hbs) in Hcmp. discriminate.
    + destruct (IH (S a) b n Hex (Nat.le_le_succ_r _ _ Hle) Hrun) as (R1 & R2 & R3).
      split; [| split].
      * destruct R1 as [R1 | (Hr & s1 & Hs1 & Hsc & Hlt)]; [left; assumption | right].
        split; [lia |]. exists s1. auto.
      * intros k s Hk Hs.
        destruct (Nat.eq_dec k a) as [-> | Hne]; [congruence |].
        apply (R2 k s); [lia | assumption].
      * intros k s Hk Hlt Hs.
        destruct (Nat.eq_dec k a) as [-> | Hne]; [congruence |].
        apply (R3 k s); [lia | assumption | assumption].
Qed.

Lemma search_clusters_returns (d : nat) (X_scaled : Matrix) :
  SciLibSpec L -> 0 < d -> well_formed d X_scaled -> 2 <= List.length X_scaled ->
  forall ns best,
    (forall k, In k ns -> 2 <= k <= List.length X_scaled - 1) ->
    exists best', search_clusters L ns X_scaled best = Ok best'.
Proof.
  intros HL Hd Hwf Hlen ns; induction ns as [| n rest IH]; intros best Hns.
  - exists best; reflexivity.
  - assert (Hn : 2 <= n <= List.length X_scaled - 1) by (apply Hns; left; reflexivity).
    assert (Hrest : forall k, In k rest -> 2 <= k <= List.length X_scaled - 1)
      by (intros k Hk; apply Hns; right; assumption).
    destruct (fit_predict_ok L HL d X_scaled n Hd Hwf Hlen) as (labels & Hfp & Hlab & Hin);
      [lia |].
    apply len_set_exact in Hin.
    destruct (silhouette_ok L HL d X_scaled labels Hd Hwf Hlab) as (s & Hs); [lia |].
    cbn [search_clusters]. rewrite Hfp; cbn [bind].
    replace (1 <? len_set labels) with true by (symmetry; apply Nat.ltb_lt; lia).
    rewrite Hs; cbn [bind].
    destruct (np_gt_number s (fst best)); apply IH; assumption.
Qed.

Lemma cluster_speakers_no_valid (embeddings : list (option ndarray))
    (segments : list Segment) :
  somes embeddings = [] ->
  cluster_speakers L embeddings segments =
  Ok (repeat "speaker_0"%string (List.length embeddings)).
Proof.
  intros H. unfold cluster_speakers. rewrite valid_embeddings_eq, H.
  destruct embeddings; reflexivity.
Qed.

Lemma cluster_speakers_one_valid (embeddings : list (option ndarray))
    (segments : list Segment) :
  List.length (somes embeddings) = 1 ->
  cluster_speakers L embeddings segments =
  Ok (repeat "speaker_0"%string (List.length embeddings)).
Proof.
  intros H. unfold cluster_speakers. rewrite valid_embeddings_eq.
  destruct embeddings as [| x rest]; [discriminate |].
  destruct (somes (x :: rest)) as [| v [| w vs]]; [discriminate | | discriminate].
  reflexivity.
Qed.

(** The run of [cluster_speakers] once the maximum pairwise distance [m] of
    the standardized matrix is known. *)
Lemma cluster_speakers_steps (embeddings : list (option ndarray))
    (segments : list Segment) (X X_scaled Z : Matrix) (ds : list float) (m : float) :
  vstack (valid_embeddings embeddings) = Ok X ->
  2 <= List.length X ->
  fit_transform L X = Ok X_scaled ->
  linkage L X_scaled = Ok Z ->
  pdist L X_scaled = Ok ds ->
  np_max L ds = Ok m ->
  cluster_speakers L embeddings segments =
  (n_clusters <-
     (if (m <? two_speaker_threshold)%float then Ok 1
      else
        best <- search_clusters L (range 2 (Nat.min 10 (List.length X - 1) + 1))
                  X_scaled (PyNumber (-1), 2) ;;
        Ok (snd best)) ;;
   if n_clusters =? 1
   then Ok (repeat "speaker_0"%string (List.length embeddings))
   else
     valid_labels <- fit_predict L n_clusters X_scaled ;;
     most_common_label <- argmax (bincount valid_labels) ;;
     map_back embeddings valid_labels most_common_label 0).
Proof.
  intros Hv Hlen Hft Hlk Hpd Hmax. unfold cluster_speakers.
  destruct embeddings as [| x rest]; [discriminate |].
  destruct (valid_embeddings (x :: rest)) as [| v vs]; [discriminate |].
  rewrite Hv; cbn [bind].
  replace (List.length X <? 2) with false by (symmetry; apply Nat.ltb_ge; lia).
  rewrite Hft; cbn [bind]. rewrite Hlk; cbn [bind].
  rewrite Hpd; cbn [bind]. rewrite Hmax; cbn [bind]. reflexivity.
Qed.

Lemma most_frequent_repeat_zero (k : nat) : most_frequent 0 (repeat 0 k).
Proof.
  intros c'; split; [| lia].
  destruct (Nat.eq_dec c' 0) as [-> | Hne]; [lia |].
  assert (H0 : count_occ Nat.eq_dec (repeat 0 k) c' = 0).
  { apply count_occ_not_In. intros Hin; apply repeat_spec in Hin; congruence. }
  lia.
Qed.

(** Under the documented behaviour of the routines, [cluster_speakers]
    returns: the valid embeddings take cluster ids [ids] in order, the
    missing ones the most frequent of them. *)
Lemma cluster_speakers_returns (d : nat) (embeddings : list (option ndarray))
    (segments : list Segment) :
  SciLibSpec L -> 0 < d -> wf_embeddings d embeddings ->
  exists ids fallback,
    cluster_speakers L embeddings segments = Ok (assign embeddings ids fallback) /\
    List.length ids = List.length (somes embeddings) /\
    most_frequent fallback ids.
Proof.
  intros HL Hd Hwf.
  assert (Hsingle : cluster_speakers L embeddings segments =
                    Ok (repeat "speaker_0"%string (List.length embeddings)) ->
                    exists ids fallback,
                      cluster_speakers L embeddings segments =
                        Ok (assign embeddings ids fallback) /\
                      List.length ids = List.length (somes embeddings) /\
                      most_frequent fallback ids).
  { intros ->. exists (repeat 0 (List.length (somes embeddings))), 0.
    rewrite assign_repeat_zero, repeat_length.
    repeat split; [apply most_frequent_repeat_zero | apply most_frequent_repeat_zero]. }
  set (X := somes embeddings).
  destruct (Nat.lt_ge_cases (List.length X) 2) as [Hshort | Hlen].
  { apply Hsingle. destruct X as [| v [| w vs]] eqn:HX; cbn in Hshort; [| | lia].
    - apply cluster_speakers_no_valid, HX.
    - apply cluster_speakers_one_valid. fold X. rewrite HX. reflexivity. }
  assert (HwfX : well_formed d X) by (apply well_formed_somes, Hwf).
  assert (HneX : X <> []) by (intros E; rewrite E in Hlen; cbn in Hlen; lia).
  destruct (fit_transform_ok L HL d X Hd HneX HwfX) as (Xs & Hft & HwfXs & HlenXs).
  assert (Hlen' : 2 <= List.length Xs) by lia.
  destruct (linkage_ok L HL d Xs Hd Hlen' HwfXs) as (Z & Hlk).
  destruct (pdist_ok L HL d Xs Hd Hlen' HwfXs) as (ds & Hpd & Hds).
  destruct (np_max_ok L HL ds Hds) as (m & Hmax).
  assert (Hv : vstack (valid_embeddings embeddings) = Ok X)
    by (rewrite valid_embeddings_eq; apply (vstack_well_formed d); assumption).
  pose proof (cluster_speakers_steps embeddings segments X Xs Z ds m
                Hv Hlen Hft Hlk Hpd Hmax) as Hsteps.
  destruct (m <? two_speaker_threshold)%float.
  { apply Hsingle. rewrite Hsteps. reflexivity. }
  set (ns := range 2 (Nat.min 10 (List.length X - 1) + 1)) in *.
  destruct (search_clusters_returns d Xs HL Hd HwfXs Hlen' ns (PyNumber (-1), 2))
    as ([bs bn] & Hsearch).
  { intros k Hk. unfold ns, range in Hk. apply in_seq in Hk. lia. }
  pose proof Hsearch as Hbest. unfold ns, range in Hbest.
  apply search_clusters_best in Hbest as (Hsel & _); [| apply exact_minus_one | lia].
  assert (Hbn : 2 <= bn <= List.length Xs)
    by (destruct Hsel as [Hsel | (Hr & _)]; [inversion Hsel |]; lia).
  destruct (fit_predict_ok L HL d Xs bn Hd HwfXs Hlen') as (vl & Hfp & Hvl & Hin); [lia |].
  assert (Hne : vl <> []) by (intros E; rewrite E in Hvl; cbn in Hvl; lia).
  destruct (argmax_bincount vl Hne) as (c & Hc & Hmf).
  exists vl, c. rewrite Hsteps, Hsearch; cbn [bind snd].
  replace (bn =? 1) with false by (symmetry; apply Nat.eqb_neq; lia).
  rewrite Hfp; cbn [bind]. rewrite Hc; cbn [bind].
  pose proof (map_back_assign embeddings [] vl c) as Hmb; cbn [app List.length] in Hmb.
  rewrite Hmb by (fold X; lia).
  repeat split; [fold X; lia | apply Hmf | apply Hmf].
Qed.

End Unsupervised.

(** ** The personalized mode *)

Lemma list_set_app {A : Type} (pre rest : list A) (x v : A) :
  list_set (pre ++ x :: rest) (List.length pre) v = Ok (pre ++ v :: rest).
Proof.
  induction pre as [| y pre IH]; cbn; [reflexivity |].
  rewrite IH. reflexivity.
Qed.

Lemma placeholders_length (i j : nat) (all_labels : list (option string)) :
  List.length (placeholders i all_labels) = List.length (placeholders j all_labels).
Proof.
  revert i j; induction all_labels as [| [l |] rest IH]; intros i j; cbn;
    [reflexivity | apply IH | f_equal; apply IH].
Qed.

Lemma merge_length (all_labels : list (option string)) (other_labels : list string) :
  List.length (merge all_labels other_labels) = List.length all_labels.
Proof.
  revert other_labels; induction all_labels as [| [l |] rest IH]; intros ols; cbn;
    [reflexivity | rewrite IH; reflexivity |].
  destruct ols; cbn; rewrite IH; reflexivity.
Qed.

Lemma merge_nil (all_labels : list (option string)) : merge all_labels [] = all_labels.
Proof.
  induction all_labels as [| [l |] rest IH]; cbn; [reflexivity | |];
    rewrite IH; reflexivity.
Qed.

(** With enough labels no placeholder is left. *)
Lemma merge_filled (all_labels : list (option string)) (other_labels : list string) :
  List.length (placeholders 0 all_labels) <= List.length other_labels ->
  Forall (fun l => exists s : string, l = Some s) (merge all_labels other_labels).
Proof.
  revert other_labels; induction all_labels as [| [l |] rest IH]; intros ols H;
    cbn [merge placeholders List.length] in *.
  - constructor.
  - constructor; [exists l; reflexivity |]. apply IH.
    rewrite (placeholders_length 0 1). exact H.
  - destruct ols as [| o os]; cbn [List.length] in H; [lia |].
    constructor; [exists o; reflexivity |]. apply IH.
    rewrite (placeholders_length 0 1). lia.
Qed.

Lemma merge_some (all_labels : list (option string)) (other_labels : list string)
    (k : nat) (l : string) :
  nth_error all_labels k = Some (Some l) ->
  nth_error (merge all_labels other_labels) k = Some (Some l).
Proof.
  revert other_labels k; induction all_labels as [| [x |] rest IH]; intros ols k H.
  - destruct k; discriminate.
  - destruct k as [| k]; cbn in *; [assumption | apply IH, H].
  - destruct k as [| k]; cbn in H; [discriminate |].
    destruct ols; cbn; apply IH, H.
Qed.

(** The [j]-th placeholder takes the [j]-th label. *)
Lemma merge_placeholder (all_labels : list (option string)) (other_labels : list string)
    (i0 j i : nat) (o : string) :
  nth_error (placeholders i0 all_labels) j = Some i ->
  nth_error other_labels j = Some o ->
  i0 <= i /\ nth_error (merge all_labels other_labels) (i - i0) = Some (Some o).
Proof.
  revert other_labels i0 j; induction all_labels as [| [x |] rest IH];
    intros ols i0 j Hp Ho; cbn [placeholders merge] in *.
  - destruct j; discriminate.
  - destruct (IH ols (S i0) j Hp Ho) as (Hle & Hn). split; [lia |].
    replace (i - i0) with (S (i - S i0)) by lia. exact Hn.
  - destruct j as [| j]; cbn [nth_error] in Hp.
    + inversion Hp; subst. destruct ols as [| o' os]; [discriminate |].
      cbn in Ho; inversion Ho; subst. rewrite Nat.sub_diag. split; [lia | reflexivity].
    + destruct ols as [| o' os]; [discriminate |]. cbn [nth_error] in Ho.
      destruct (IH os (S i0) j Hp Ho) as (Hle & Hn). split; [lia |].
      replace (i - i0) with (S (i - S i0)) by lia. exact Hn.
Qed.

Lemma fill_others_merge (all_labels pre : list (option string))
    (other_labels done : list string) :
  List.length (placeholders 0 all_labels) <= List.length other_labels ->
  fill_others (pre ++ all_labels) (placeholders (List.length pre) all_labels)
              (done ++ other_labels) (List.length done) =
  Ok (pre ++ merge all_labels other_labels).
Proof.
  revert pre other_labels done; induction all_labels as [| [l |] rest IH];
    intros pre ols done H; cbn [placeholders merge fill_others].
  - reflexivity.
  - specialize (IH (pre ++ [Some l]) ols done).
    rewrite <- !app_assoc, length_app, Nat.add_1_r in IH. cbn [app] in IH.
    apply IH. cbn [placeholders] in H.
    rewrite (placeholders_length 0 1). exact H.
  - cbn [placeholders List.length] in H.
    destruct ols as [| o os]; cbn [List.length] in H; [lia |].
    unfold list_get. rewrite nth_error_app2, Nat.sub_diag by lia. cbn [nth_error bind].
    rewrite list_set_app; cbn [bind].
    specialize (IH (pre ++ [Some o]) os (done ++ [o])).
    rewrite <- !app_assoc, !length_app, !Nat.add_1_r in IH. cbn [app] in IH.
    apply IH. rewrite (placeholders_length 0 1). lia.
Qed.

Lemma other_family_other_n (c : nat) : other_family (Some (other_n c)) = true.
Proof. unfold other_n. cbn. destruct (str_of_nat c); reflexivity. Qed.

(** The number of OTHER-family labels after the placeholders are filled. *)
Lemma count_other_family_merge (all_labels : list (option string))
    (other_labels : list string) :
  Forall (fun l => l = None \/ l = Some "YOU"%string) all_labels ->
  Forall (fun o => other_family (Some o) = true) other_labels ->
  List.length (placeholders 0 all_labels) <= List.length other_labels ->
  List.length (filter other_family (merge all_labels other_labels)) =
  List.length (placeholders 0 all_labels).
Proof.
  revert other_labels; induction all_labels as [| x rest IH]; intros ols Hal Hols Hlen.
  - reflexivity.
  - inversion Hal as [| ? ? Hx Hrest]; subst.
    destruct Hx as [-> | ->]; cbn [merge placeholders] in *.
    + destruct ols as [| o os]; cbn [List.length] in Hlen; [lia |].
      inversion Hols as [| ? ? Ho Hos]; subst.
      cbn [filter]. rewrite Ho. cbn [List.length].
      rewrite (placeholders_length 1 0). f_equal.
      apply IH; [assumption | assumption |].
      rewrite (placeholders_length 0 1). lia.
    + cbn [filter]. replace (other_family (Some "YOU"%string)) with false by reflexivity.
      rewrite (placeholders_length 1 0) in *. apply IH; assumption.
Qed.

Section Personalized.

Variable L : SciLib.

Lemma label_loop_spec (embeddings : list (option ndarray)) (u : ndarray) (t : float)
    (i0 : nat) (all_labels : list (option string)) (other_embeddings : list ndarray)
    (other_indices : list nat) :
  label_loop L i0 embeddings u t = Ok (all_labels, other_embeddings, other_indices) ->
  Forall2 (labelled L u t) embeddings all_labels /\
  other_indices = placeholders i0 all_labels /\
  List.length other_embeddings = List.length other_indices /\
  Forall (fun v => In (Some v) embeddings) other_embeddings.
Proof.
  revert i0 all_labels other_embeddings other_indices;
    induction embeddings as [| [v |] rest IH]; intros i0 al oe oi H;
    cbn [label_loop] in H.
  - inversion H; subst. repeat split; constructor.
  - apply bind_ok in H as (d & Hd & H).
    apply bind_ok in H as ([[al' oe'] oi'] & Hrec & H).
    destruct (IH _ _ _ _ Hrec) as (Hall & Hoi & Hlen & Hin).
    assert (Hin' : Forall (fun w => In (Some w) (Some v :: rest)) oe')
      by (eapply Forall_impl; [| exact Hin]; intros w Hw; right; exact Hw).
    destruct (np_ge (np_rsub_one d) t) eqn:Hcmp; inversion H; subst; cbn [placeholders].
    + split; [| split; [reflexivity | split; assumption]].
      constructor; [| assumption]. exists d. rewrite Hcmp. auto.
    + split; [| split; [reflexivity | split]].
      * constructor; [| assumption]. exists d. rewrite Hcmp. auto.
      * cbn [List.length]. f_equal. assumption.
      * constructor; [left; reflexivity | assumption].
  - apply bind_ok in H as ([[al' oe'] oi'] & Hrec & H).
    destruct (IH _ _ _ _ Hrec) as (Hall & Hoi & Hlen & Hin).
    inversion H; subst; cbn [placeholders].
    split; [| split; [reflexivity | split; [assumption |]]].
    + constructor; [reflexivity | assumption].
    + eapply Forall_impl; [| exact Hin]. intros w Hw; right; exact Hw.
Qed.

Lemma label_loop_returns (embeddings : list (option ndarray)) (u : ndarray) (t : float)
    (i0 : nat) :
  (forall a b, List.length a = List.length b -> exists x, cosine L a b = Ok x) ->
  wf_embeddings (List.length u) embeddings ->
  exists r, label_loop L i0 embeddings u t = Ok r.
Proof.
  intros Hcos Hwf; revert i0; induction Hwf as [| [v |] rest Hx _ IH]; intros i0;
    cbn [label_loop].
  - eexists; reflexivity.
  - destruct (Hcos v u (proj1 Hx)) as (d & ->); cbn [bind].
    destruct (IH (S i0)) as ([[al oe] oi] & ->); cbn [bind].
    destruct (np_ge (np_rsub_one d) t); eexists; reflexivity.
  - destruct (IH (S i0)) as ([[al oe] oi] & ->); cbn [bind].
    eexists; reflexivity.
Qed.

Lemma labelled_you_or_placeholder (embeddings : list (option ndarray)) (u : ndarray)
    (t : float) (all_labels : list (option string)) :
  Forall2 (labelled L u t) embeddings all_labels ->
  Forall (fun l => l = None \/ l = Some "YOU"%string) all_labels.
Proof.
  induction 1 as [| emb lab rest labs Hl _ IH]; constructor; [| exact IH].
  destruct emb as [v |]; cbn [labelled] in Hl; [| right; exact Hl].
  destruct Hl as (d & _ & ->). destruct (np_ge (np_rsub_one d) t); auto.
Qed.

Lemma label_loop_no_valid (embeddings : list (option ndarray)) (u : ndarray) (t : float)
    (i0 : nat) :
  somes embeddings = [] ->
  label_loop L i0 embeddings u t =
  Ok (repeat (Some "YOU"%string) (List.length embeddings), [], []).
Proof.
  revert i0; induction embeddings as [| [v |] rest IH]; intros i0 H; cbn in *;
    [reflexivity | discriminate |].
  rewrite IH by assumption. reflexivity.
Qed.

(** The result once the loop of lines 244-264 has run: the placeholders take
    the labels of [cluster_others] when there are two or more of them, and
    ["OTHER"] otherwise. *)
Lemma personalized_merge (embeddings : list (option ndarray)) (u : ndarray) (t : float)
    (all_labels : list (option string)) (other_embeddings : list ndarray)
    (other_indices : list nat) (other_labels : list string) :
  label_loop L 0 embeddings u t = Ok (all_labels, other_embeddings, other_indices) ->
  (if 1 <? List.length other_embeddings
   then cluster_others L other_embeddings = Ok other_labels /\
        List.length other_embeddings <= List.length other_labels
   else other_labels = repeat "OTHER"%string (List.length other_embeddings)) ->
  cluster_speakers_personalized L embeddings u t =
  Ok (merge all_labels other_labels).
Proof.
  intros Hloop Hols.
  destruct (label_loop_spec _ _ _ _ _ _ _ Hloop) as (Hall & Hoi & Hlen & _).
  pose proof (fill_others_merge all_labels [] other_labels []) as Hfill.
  cbn [app List.length] in Hfill. rewrite <- Hoi in Hfill.
  unfold cluster_speakers_personalized.
  destruct embeddings as [| x rest] eqn:He.
  { cbn in Hloop. inversion Hloop; subst. reflexivity. }
  rewrite <- He in *. clear He x rest.
  rewrite valid_embeddings_eq.
  destruct (somes embeddings) as [| v vs] eqn:Hs.
  { rewrite (label_loop_no_valid _ u t 0 Hs) in Hloop. inversion Hloop; subst.
    cbn in Hols. subst. rewrite merge_nil. reflexivity. }
  rewrite Hloop; cbn [bind].
  destruct (1 <? List.length other_embeddings) eqn:Hmany.
  - destruct Hols as (-> & Hle); cbn [bind]. apply Hfill. lia.
  - subst other_labels. apply Nat.ltb_ge in Hmany.
    destruct (List.length other_embeddings =? 1) eqn:Hone.
    + apply Nat.eqb_eq in Hone. rewrite Hone in *.
      destruct other_indices as [| i [| i' r]]; cbn in Hlen; try lia.
      cbn [repeat List.length] in Hfill. specialize (Hfill (Nat.le_refl 1)).
      cbn [fill_others list_get nth_error bind] in Hfill |- *.
      destruct (list_set all_labels i (Some "OTHER"%string)); cbn [bind] in Hfill;
        [exact Hfill | discriminate].
    + apply Nat.eqb_neq in Hone.
      replace (List.length other_embeddings) with 0 by lia.
      cbn [repeat]. rewrite merge_nil. reflexivity.
Qed.

(** The run of [cluster_others] once the maximum pairwise distance [m] of
    the standardized matrix is known. *)
Lemma cluster_others_steps (other_embeddings : list ndarray)
    (X X_scaled Z : Matrix) (ds : list float) (m : float) :
  vstack other_embeddings = Ok X ->
  fit_transform L X = Ok X_scaled ->
  linkage L X_scaled = Ok Z ->
  pdist L X_scaled = Ok ds ->
  np_max L ds = Ok m ->
  cluster_others L other_embeddings =
  (n_clusters <-
     (if (m <? 19)%float || (List.length X <? 2) then Ok 1
      else
        best <- search_clusters L (range 2 (Nat.min 5 (List.length X - 1) + 1))
                  X_scaled (PyNumber (-1), 1) ;;
        Ok (if number_gt (fst best) 0.2 then snd best else 1)) ;;
   if n_clusters =? 1
   then Ok (repeat "OTHER"%string (List.length other_embeddings))
   else
     cluster_ids <- fit_predict L n_clusters X_scaled ;;
     Ok (map other_n cluster_ids)).
Proof.
  intros Hv Hft Hlk Hpd Hmax. unfold cluster_others.
  rewrite Hv; cbn [bind]. rewrite Hft; cbn [bind]. rewrite Hlk; cbn [bind].
  rewrite Hpd; cbn [bind]. rewrite Hmax; cbn [bind]. reflexivity.
Qed.

(** The acceptance gate: a best score above 0.2 belongs to a candidate of
    the search, so the accepted count is at least 2. *)
Lemma search_gate (X_scaled : Matrix) (len : nat) (bs : py_number) (bn : nat) :
  search_clusters L (seq 2 len) X_scaled (PyNumber (-1), 1) = Ok (bs, bn) ->
  number_gt bs 0.2 = true ->
  2 <= bn < 2 + len /\
  exists s, bs = NpNumber s /\ candidate_score L X_scaled bn = Ok (Some s).
Proof.
  intros Hsearch Hgate.
  apply search_clusters_best in Hsearch as ([Hsel | (Hr & s & -> & Hsc & _)] & _);
    [| | apply exact_minus_one | lia].
  - inversion Hsel; subst. vm_compute in Hgate. discriminate.
  - split; [assumption | exists s; split; [reflexivity | assumption]].
Qed.

Lemma cluster_others_returns (d : nat) (other_embeddings : list ndarray) :
  SciLibSpec L -> 0 < d -> well_formed d other_embeddings ->
  2 <= List.length other_embeddings ->
  exists other_labels,
    cluster_others L other_embeddings = Ok other_labels /\
    List.length other_labels = List.length other_embeddings /\
    Forall (fun o => other_family (Some o) = true) other_labels.
Proof.
  intros HL Hd Hwf Hlen. set (X := other_embeddings) in *.
  assert (Hsingle : exists other_labels,
             Ok (repeat "OTHER"%string (List.length X)) = Ok other_labels /\
             List.length other_labels = List.length X /\
             Forall (fun o => other_family (Some o) = true) other_labels).
  { eexists; split; [reflexivity |]. rewrite repeat_length. split; [reflexivity |].
    apply Forall_forall. intros o Ho. apply repeat_spec in Ho. subst. reflexivity. }
  assert (HneX : X <> []) by (intros E; rewrite E in Hlen; cbn in Hlen; lia).
  destruct (fit_transform_ok L HL d X Hd HneX Hwf) as (Xs & Hft & HwfXs & HlenXs).
  assert (Hlen' : 2 <= List.length Xs) by lia.
  destruct (linkage_ok L HL d Xs Hd Hlen' HwfXs) as (Z & Hlk).
  destruct (pdist_ok L HL d Xs Hd Hlen' HwfXs) as (ds & Hpd & Hds).
  destruct (np_max_ok L HL ds Hds) as (m & Hmax).
  rewrite (cluster_others_steps X X Xs Z ds m
             (vstack_well_formed d X HneX Hwf) Hft Hlk Hpd Hmax).
  destruct ((m <? 19)%float || (List.length X <? 2)); [exact Hsingle |].
  set (ns := range 2 (Nat.min 5 (List.length X - 1) + 1)) in *.
  destruct (search_clusters_returns L d Xs HL Hd HwfXs Hlen' ns (PyNumber (-1), 1))
    as ([bs bn] & Hsearch).
  { intros k Hk. unfold ns, range in Hk. apply in_seq in Hk. lia. }
  rewrite Hsearch; cbn [bind fst snd].
  destruct (number_gt bs 0.2) eqn:Hgate; [| exact Hsingle].
  unfold ns, range in Hsearch.
  destruct (search_gate _ _ _ _ Hsearch Hgate) as (Hbn & _).
  cbn [bind].
  replace (bn =? 1) with false by (symmetry; apply Nat.eqb_neq; lia).
  destruct (fit_predict_ok L HL d Xs bn Hd HwfXs Hlen') as (ids & Hfp & Hids & _); [lia |].
  rewrite Hfp; cbn [bind].
  eexists; split; [reflexivity |]. rewrite length_map. split; [lia |].
  apply Forall_forall. intros o Ho. apply in_map_iff in Ho as (c & <- & _).
  apply other_family_other_n.
Qed.

(** Under the documented behaviour of the routines, the personalized mode
    returns [all_labels] with its placeholders filled by OTHER-family
    labels. *)
Lemma personalized_returns (d : nat) (embeddings : list (option ndarray))
    (u : ndarray) (t : float) :
  SciLibSpec L -> 0 < d -> wf_embeddings d embeddings -> List.length u = d ->
  exists all_labels other_embeddings other_indices other_labels,
    label_loop L 0 embeddings u t =
      Ok (all_labels, other_embeddings, other_indices) /\
    cluster_speakers_personalized L embeddings u t =
      Ok (merge all_labels other_labels) /\
    List.length other_labels = List.length other_indices /\
    Forall (fun o => other_family (Some o) = true) other_labels /\
    (if 1 <? List.length other_embeddings
     then cluster_others L other_embeddings = Ok other_labels
     else other_labels = repeat "OTHER"%string (List.length other_embeddings)).
Proof.
  intros HL Hd Hwf Hu. subst d.
  destruct (label_loop_returns embeddings u t 0 (cosine_total L HL) Hwf)
    as ([[al oe] oi] & Hloop).
  destruct (label_loop_spec _ _ _ _ _ _ _ Hloop) as (Hall & Hoi & Hlen & Hin).
  exists al, oe, oi.
  destruct (1 <? List.length oe) eqn:Hmany.
  - apply Nat.ltb_lt in Hmany.
    assert (Hwfo : well_formed (List.length u) oe).
    { eapply Forall_impl; [| exact Hin]. intros v Hv.
      unfold wf_embeddings in Hwf. rewrite Forall_forall in Hwf.
      exact (Hwf (Some v) Hv). }
    destruct (cluster_others_returns (List.length u) oe HL Hd Hwfo) as (ols & Hco & Hl & Hf);
      [lia |].
    exists ols. split; [exact Hloop |]. split; [| split; [lia | split; assumption]].
    apply (personalized_merge embeddings u t al oe oi ols Hloop).
    replace (1 <? List.length oe) with true by (symmetry; apply Nat.ltb_lt; lia).
    split; [assumption | lia].
  - exists (repeat "OTHER"%string (List.length oe)).
    split; [exact Hloop |]. split; [| split; [| split; [| reflexivity]]].
    + apply (personalized_merge embeddings u t al oe oi _ Hloop).
      rewrite Hmany. reflexivity.
    + rewrite repeat_length. assumption.
    + apply Forall_forall. intros o Ho. apply repeat_spec in Ho. subst. reflexivity.
Qed.

(** With a reference of another dimension, the loop of lines 244-264 stops
    at the first valid embedding. *)
Lemma label_loop_wrong_dimension (embeddings : list (option ndarray)) (u : ndarray)
    (t : float) (i0 : nat) :
  (forall a b, List.length a <> List.length b -> cosine L a b = Raise ValueError) ->
  somes embeddings <> [] ->
  Forall (fun v => List.length v <> List.length u) (somes embeddings) ->
  label_loop L i0 embeddings u t = Raise ValueError.
Proof.
  intros Hcos; revert i0; induction embeddings as [| [v |] rest IH];
    intros i0 Hne Hdim; cbn [label_loop somes] in *.
  - contradiction.
  - inversion Hdim; subst. rewrite Hcos by assumption. reflexivity.
  - rewrite IH by assumption. reflexivity.
Qed.

Lemma personalized_no_valid (embeddings : list (option ndarray)) (u : ndarray)
    (t : float) :
  somes embeddings = [] ->
  cluster_speakers_personalized L embeddings u t =
  Ok (repeat (Some "YOU"%string) (List.length embeddings)).
Proof.
  intros H. unfold cluster_speakers_personalized. rewrite valid_embeddings_eq, H.
  destruct embeddings; reflexivity.
Qed.

End Personalized.

(** ** The test routines behave as documented *)

Lemma lib_with_scores_spec (score : nat -> float) :
  SciLibSpec (TestLib.lib_with_scores score).
Proof.
  constructor; cbn [cosine fit_transform linkage pdist np_max fit_predict
                    silhouette_score TestLib.lib_with_scores].
  - intros u v H. unfold TestLib.cosine.
    rewrite (proj2 (Nat.eqb_eq _ _) H). eexists; reflexivity.
  - intros u v H. unfold TestLib.cosine.
    rewrite (proj2 (Nat.eqb_neq _ _) H). reflexivity.
  - intros d X _ Hne Hwf. exists X. destruct X; [congruence |].
    repeat split; assumption.
  - intros d X _ _ _. exists X; reflexivity.
  - intros d X _ Hlen _. eexists; split; [reflexivity |].
    destruct X as [| u [| v r]]; cbn in Hlen; try lia. discriminate.
  - intros ds Hne. destruct ds; [congruence |]. eexists; reflexivity.
  - intros d X n _ _ _ Hn. unfold TestLib.fit_predict.
    replace ((1 <=? n) && (n <=? List.length X)) with true
      by (symmetry; apply andb_true_iff; split; apply Nat.leb_le; lia).
    eexists; split; [reflexivity |]. rewrite length_map, length_seq.
    split; [reflexivity |]. intros c. rewrite in_map_iff. split.
    + intros (i & <- & _). lia.
    + intros Hc. exists c. split; [lia |]. apply in_seq. lia.
  - intros d X labels _ _ _ Hk. unfold TestLib.silhouette_score.
    replace ((2 <=? len_set labels) && (len_set labels <=? List.length X - 1)) with true
      by (symmetry; apply andb_true_iff; split; apply Nat.leb_le; lia).
    eexists; reflexivity.
Qed.

Lemma test_lib_spec : SciLibSpec TestLib.test_lib.
Proof. apply lib_with_scores_spec. Qed.

(** ** Labels as strings *)

Lemma str_of_nat_inj (a b : nat) : str_of_nat a = str_of_nat b -> a = b.
Proof.
  unfold str_of_nat. intros H.
  apply Unsigned.to_uint_inj.
  assert (Hs : Some (Nat.to_uint a) = Some (Nat.to_uint b))
    by (rewrite <- !NilEmpty.usu, H; reflexivity).
  inversion Hs. reflexivity.
Qed.

Lemma speaker_inj (a b : nat) : speaker a = speaker b -> a = b.
Proof.
  unfold speaker. cbn. intros H. inversion H. apply str_of_nat_inj. assumption.
Qed.

Lemma labels_at_valid_assign (embeddings : list (option ndarray)) (ids : list nat)
    (fallback : nat) :
  List.length ids = List.length (somes embeddings) ->
  labels_at_valid embeddings (assign embeddings ids fallback) = map speaker ids.
Proof.
  revert ids; induction embeddings as [| [e |] rest IH]; intros ids H; cbn in *.
  - destruct ids; [reflexivity | discriminate].
  - destruct ids as [| c ids]; [discriminate |]. cbn. rewrite IH by (cbn in H; lia).
    reflexivity.
  - apply IH, H.
Qed.

Lemma assign_nth_none (embeddings : list (option ndarray)) (ids : list nat)
    (fallback i : nat) :
  List.length (somes embeddings) <= List.length ids ->
  nth_error embeddings i = Some None ->
  nth_error (assign embeddings ids fallback) i = Some (speaker fallback).
Proof.
  revert ids i; induction embeddings as [| [e |] rest IH]; intros ids i Hlen Hi.
  - destruct i; discriminate.
  - destruct i as [| i]; [discriminate |]. cbn in *.
    destruct ids as [| c ids]; cbn in *; [lia |]. apply IH; [lia | assumption].
  - destruct i as [| i]; cbn in *; [reflexivity |]. apply IH; assumption.
Qed.

(** ** Pending candidates and placeholders *)

Lemma Forall2_nth_error_l {A B : Type} (P : A -> B -> Prop) (l1 : list A)
    (l2 : list B) (i : nat) (a : A) :
  Forall2 P l1 l2 -> nth_error l1 i = Some a ->
  exists b, nth_error l2 i = Some b /\ P a b.
Proof.
  intros H; revert i; induction H as [| x y r1 r2 Hxy _ IH]; intros i Hi.
  - destruct i; discriminate.
  - destruct i as [| i]; cbn in *.
    + inversion Hi; subst. exists y; auto.
    + apply IH, Hi.
Qed.

Lemma Forall2_nth_error_r {A B : Type} (P : A -> B -> Prop) (l1 : list A)
    (l2 : list B) (i : nat) (b : B) :
  Forall2 P l1 l2 -> nth_error l2 i = Some b ->
  exists a, nth_error l1 i = Some a /\ P a b.
Proof.
  intros H; revert i; induction H as [| x y r1 r2 Hxy _ IH]; intros i Hi.
  - destruct i; discriminate.
  - destruct i as [| i]; cbn in *.
    + inversion Hi; subst. exists x; auto.
    + apply IH, Hi.
Qed.

Lemma placeholders_In (all_labels : list (option string)) (i0 k : nat) :
  In k (placeholders i0 all_labels) <->
  i0 <= k /\ nth_error all_labels (k - i0) = Some None.
Proof.
  revert i0; induction all_labels as [| [l |] rest IH]; intros i0; cbn [placeholders].
  - split; [intros [] | intros (_ & H)]. destruct (k - i0); discriminate.
  - rewrite IH. split.
    + intros (Hle & Hn). split; [lia |].
      replace (k - i0) with (S (k - S i0)) by lia. exact Hn.
    + intros (Hle & Hn). destruct (k - i0) as [| j] eqn:Hk; [discriminate |].
      split; [lia |]. replace (k - S i0) with j by lia. exact Hn.
  - cbn [In]. rewrite IH. split.
    + intros [<- | (Hle & Hn)].
      * rewrite Nat.sub_diag. split; [lia | reflexivity].
      * split; [lia |]. replace (k - i0) with (S (k - S i0)) by lia. exact Hn.
    + intros (Hle & Hn). destruct (k - i0) as [| j] eqn:Hk; [left; lia | right].
      split; [lia |]. replace (k - S i0) with j by lia. exact Hn.
Qed.

Lemma placeholders_single (all_labels : list (option string)) (i0 i : nat) :
  In i (placeholders i0 all_labels) ->
  (forall k, In k (placeholders i0 all_labels) -> k = i) ->
  placeholders i0 all_labels = [i].
Proof.
  revert i0; induction all_labels as [| [l |] rest IH]; intros i0 Hin Hall;
    cbn [placeholders] in *.
  - destruct Hin.
  - apply IH; assumption.
  - assert (Hi : i0 = i) by (apply Hall; left; reflexivity). subst i0.
    destruct (placeholders (S i) rest) as [| k r] eqn:Hp; [reflexivity |].
    assert (Hk : k = i) by (apply Hall; right; left; reflexivity).
    assert (Hkin : In k (placeholders (S i) rest)) by (rewrite Hp; left; reflexivity).
    apply placeholders_In in Hkin. lia.
Qed.

Lemma placeholders_position (all_labels : list (option string)) (i0 k : nat) :
  In k (placeholders i0 all_labels) ->
  exists j, nth_error (placeholders i0 all_labels) j = Some k.
Proof. apply In_nth_error. Qed.

(** The placeholders of the loop are the pending candidates. *)
Lemma placeholder_pending (L : SciLib) (embeddings : list (option ndarray))
    (u : ndarray) (t : float) (all_labels : list (option string)) (i : nat) :
  Forall2 (labelled L u t) embeddings all_labels ->
  (In i (placeholders 0 all_labels) <-> pending L embeddings u t i).
Proof.
  intros Hall. rewrite placeholders_In, Nat.sub_0_r. split.
  - intros (_ & Hn).
    destruct (Forall2_nth_error_r _ _ _ _ _ Hall Hn) as ([v |] & He & Hl);
      cbn [labelled] in Hl; [| discriminate].
    destruct Hl as (d & Hd & Hlab). exists v, d.
    destruct (np_ge (np_rsub_one d) t); [discriminate | auto].
  - intros (v & d & He & Hd & Hcmp). split; [lia |].
    destruct (Forall2_nth_error_l _ _ _ _ _ Hall He) as (b & Hb & Hl).
    cbn [labelled] in Hl.
    destruct Hl as (d' & Hd' & ->). rewrite Hd in Hd'. inversion Hd'; subst d'.
    rewrite Hcmp in Hb. exact Hb.
Qed.

(** After the placeholders are filled, the [j]-th pending index carries the
    [j]-th label. *)
Lemma merge_others (all_labels : list (option string)) (other_labels : list string)
    (j i : nat) (o : string) :
  nth_error (placeholders 0 all_labels) j = Some i ->
  nth_error other_labels j = Some o ->
  nth_error (merge all_labels other_labels) i = Some (Some o).
Proof.
  intros Hp Ho. destruct (merge_placeholder _ _ _ _ _ _ Hp Ho) as (_ & H).
  rewrite Nat.sub_0_r in H. exact H.
Qed.

(** A higher threshold leaves at least as many placeholders. *)
Lemma placeholders_monotone (L : SciLib) (embeddings : list (option ndarray))
    (u : ndarray) (t1 t2 : float) (labels1 labels2 : list (option string)) :
  (t1 <=? t2)%float = true ->
  Forall2 (labelled L u t1) embeddings labels1 ->
  Forall2 (labelled L u t2) embeddings labels2 ->
  List.length (placeholders 0 labels1) <= List.length (placeholders 0 labels2).
Proof.
  intros Ht H1; revert labels2; induction H1 as [| emb l1 rest r1 Hl1 _ IH];
    intros labels2 H2; inversion H2 as [| ? l2 ? r2 Hl2 Hr2]; subst.
  - lia.
  - specialize (IH r2 Hr2).
    destruct emb as [v |]; cbn [labelled] in Hl1, Hl2.
    + destruct Hl1 as (d1 & Hd1 & ->). destruct Hl2 as (d2 & Hd2 & ->).
      rewrite Hd1 in Hd2. inversion Hd2; subst d2.
      destruct (np_ge (np_rsub_one d1) t2) eqn:H2le.
      * rewrite (np_ge_antitone _ _ _ Ht H2le). cbn [placeholders].
        rewrite !(placeholders_length 1 0). exact IH.
      * destruct (np_ge (np_rsub_one d1) t1); cbn [placeholders List.length];
          rewrite !(placeholders_length 1 0); lia.
    + subst. cbn [placeholders]. rewrite !(placeholders_length 1 0). exact IH.
Qed.

Lemma sample_embeddings_wf : wf_embeddings 2 TestLib.sample_embeddings.
Proof. repeat constructor. Qed.

(** ** The properties of the specification *)



(** C2, as stated, fails: [cluster_speakers_personalized] has no check of
    the reference embedding's dimension.  With a reference of 3 components
    and no valid embedding the call returns its labels and rejects nothing;
    and [diarize_audio], given that reference, does not reject the request
    either: it clusters the sample request in the unsupervised mode. *)
Lemma wrong_dimension_not_rejected :
  List.length [1; 2; 3]%float <> 512 /\
  cluster_speakers_personalized TestLib.test_lib [None; None] [1; 2; 3]%float 0.45%float =
    Ok [Some "YOU"; Some "YOU"]%string /\
  diarize_audio_labels TestLib.test_lib TestLib.sample_embeddings []
    (Some [1; 2; 3]%float) =
    Ok [Some "speaker_0"; Some "speaker_1"; Some "speaker_1"; Some "speaker_1";
        Some "speaker_1"; Some "speaker_1"]%string.
Proof. split; [discriminate | split; vm_compute; reflexivity]. Qed.

(** C2, amended.  The dimension of the reference embedding is checked by the
    caller: [diarize_audio] uses the personalized mode only for a reference
    of exactly 512 components and runs [cluster_speakers] on the same
    embeddings otherwise.  [cluster_speakers_personalized] itself has no
    check: when some embedding is valid and the valid embeddings have another
    dimension than the reference, the call fails with the [ValueError] of the
    first cosine distance, whatever the clustering routines are, so before
    any clustering; when no embedding is valid it returns ["YOU"] at every
    index. *)
Theorem wrong_dimension_behaviour (L : SciLib) (embeddings : list (option ndarray))
    (segment_list : list Segment) (u : ndarray) (t : float) :
  (List.length u <> 512 ->
   diarize_audio_labels L embeddings segment_list (Some u) =
   (speaker_labels <- cluster_speakers L embeddings segment_list ;;
    Ok (map Some speaker_labels))) /\
  ((forall a b, List.length a <> List.length b -> cosine L a b = Raise ValueError) ->
   valid_embeddings embeddings <> [] ->
   Forall (fun v => List.length v <> List.length u) (valid_embeddings embeddings) ->
   cluster_speakers_personalized L embeddings u t = Raise ValueError) /\
  (valid_embeddings embeddings = [] ->
   cluster_speakers_personalized L embeddings u t =
   Ok (repeat (Some "YOU"%string) (List.length embeddings))).
Proof.
  split; [| split].
  - intros H. unfold diarize_audio_labels.
    rewrite (proj2 (Nat.eqb_neq _ _) H). reflexivity.
  - rewrite valid_embeddings_eq. intros Hcos Hne Hdim.
    pose proof (label_loop_wrong_dimension L embeddings u t 0 Hcos Hne Hdim) as Hloop.
    unfold cluster_speakers_personalized. rewrite valid_embeddings_eq.
    destruct embeddings as [| x rest]; [contradiction |].
    destruct (somes (x :: rest)); [contradiction |].
    rewrite Hloop. reflexivity.
  - rewrite valid_embeddings_eq. apply personalized_no_valid.
Qed.

Lemma wrong_dimension_behaviour_witness :
  let L := TestLib.test_lib in
  let embeddings := TestLib.sample_embeddings in
  diarize_audio_labels L embeddings [] (Some [1; 2; 3]%float) =
    (speaker_labels <- cluster_speakers L embeddings [] ;; Ok (map Some speaker_labels)) /\
  cluster_speakers_personalized L embeddings [1; 2; 3]%float 0.45%float =
    Raise ValueError /\
  cluster_speakers_personalized L [None; None] [1; 2; 3]%float 0.45%float =
    Ok [Some "YOU"; Some "YOU"]%string.
Proof.
  split; [| split].
  - apply (proj1 (wrong_dimension_behaviour TestLib.test_lib
                    TestLib.sample_embeddings [] [1; 2; 3]%float 0.45%float)).
    discriminate.
  - apply (proj1 (proj2 (wrong_dimension_behaviour TestLib.test_lib
                           TestLib.sample_embeddings [] [1; 2; 3]%float 0.45%float))).
    + exact (cosine_shape _ test_lib_spec).
    + discriminate.
    + cbv [valid_embeddings valid_indices TestLib.sample_embeddings enumerate
           enumerate_from filter snd fst is_some map flat_map nth app].
      repeat constructor; discriminate.
  - apply (proj2 (proj2 (wrong_dimension_behaviour TestLib.test_lib
                           [None; None] [] [1; 2; 3]%float 0.45%float))).
    reflexivity.
Defined.

(** C3. Single-speaker short-circuit: with two or more valid embeddings, when
    the maximum pairwise distance [m] of the standardized matrix is strictly
    below 19, [cluster_speakers] returns ["speaker_0"] at every index. *)
Theorem single_speaker_short_circuit (L : SciLib) (embeddings : list (option ndarray))
    (segments : list Segment) (X X_scaled Z : Matrix) (ds : list float) (m : float) :
  vstack (valid_embeddings embeddings) = Ok X ->
  2 <= List.length X ->
  fit_transform L X = Ok X_scaled ->
  linkage L X_scaled = Ok Z ->
  pdist L X_scaled = Ok ds ->
  np_max L ds = Ok m ->
  (m <? 19)%float = true ->
  cluster_speakers L embeddings segments =
  Ok (repeat "speaker_0"%string (List.length embeddings)).
Proof.
  intros Hv Hlen Hft Hlk Hpd Hmax Hm.
  rewrite (cluster_speakers_steps L embeddings segments X X_scaled Z ds m
             Hv Hlen Hft Hlk Hpd Hmax).
  unfold two_speaker_threshold. rewrite Hm. reflexivity.
Qed.

Lemma single_speaker_short_circuit_witness :
  cluster_speakers TestLib.test_lib
    [Some [0; 0]%float; None; Some [3; 4]%float; Some [6; 8]%float] [] =
  Ok ["speaker_0"; "speaker_0"; "speaker_0"; "speaker_0"]%string.
Proof.
  apply (single_speaker_short_circuit TestLib.test_lib
           [Some [0; 0]%float; None; Some [3; 4]%float; Some [6; 8]%float] []
           [[0; 0]; [3; 4]; [6; 8]]%float [[0; 0]; [3; 4]; [6; 8]]%float
           [[0; 0]; [3; 4]; [6; 8]]%float [5; 10; 5]%float 10%float);
    try reflexivity.
  cbn; lia.
Defined.

(** C4. Cluster-count selection: when the short-circuit does not apply,
    [cluster_speakers] scans the candidates [2 .. min 10 (n-1)] in increasing
    order, each scored by [candidate_score] (the silhouette score of its
    partition, none when the partition has one effective cluster), starting
    from the pair [(-1, 2)].  The selected count [bn] is the start value 2 or
    a scored candidate whose score is the best score [bs]; no scored
    candidate has a score strictly greater than [bs], and every scored
    candidate before [bn] has a score that is not as large as [bs]: an equal
    score never replaces an earlier candidate.  The scores are compared by
    value ([exact_number]), whatever their floating-point type.  The final
    clustering is run with [bn] clusters. *)
Theorem cluster_count_selection (L : SciLib) (embeddings : list (option ndarray))
    (segments : list Segment) (X X_scaled Z : Matrix) (ds : list float) (m : float) :
  vstack (valid_embeddings embeddings) = Ok X ->
  2 <= List.length X ->
  fit_transform L X = Ok X_scaled ->
  linkage L X_scaled = Ok Z ->
  pdist L X_scaled = Ok ds ->
  np_max L ds = Ok m ->
  (m <? 19)%float = false ->
  let max_clusters := Nat.min 10 (List.length X - 1) in
  let search :=
    search_clusters L (range 2 (max_clusters + 1)) X_scaled (PyNumber (-1), 2) in
  range 2 (max_clusters + 1) = seq 2 (max_clusters - 1) /\
  cluster_speakers L embeddings segments =
    (best <- search ;;
     valid_labels <- fit_predict L (snd best) X_scaled ;;
     most_common_label <- argmax (bincount valid_labels) ;;
     map_back embeddings valid_labels most_common_label 0) /\
  forall bs bn, search = Ok (bs, bn) ->
    ((bs, bn) = (PyNumber (-1), 2) \/
     (2 <= bn <= max_clusters /\
      exists score, bs = NpNumber score /\
        candidate_score L X_scaled bn = Ok (Some score) /\
        (-1 <? np_value score)%float = true)) /\
    (forall k s, 2 <= k <= max_clusters ->
                 candidate_score L X_scaled k = Ok (Some s) ->
                 (number_value bs <? np_value s)%float = false) /\
    (forall k s, 2 <= k < bn ->
                 candidate_score L X_scaled k = Ok (Some s) ->
                 (number_value bs <=? np_value s)%float = false).
Proof.
  intros Hv Hlen Hft Hlk Hpd Hmax Hm max_clusters search.
  assert (Hrange : range 2 (max_clusters + 1) = seq 2 (max_clusters - 1))
    by (unfold range; f_equal; lia).
  assert (Hmc : 1 <= max_clusters) by (unfold max_clusters; lia).
  assert (Hbest : forall bs bn, search = Ok (bs, bn) ->
    ((bs, bn) = (PyNumber (-1), 2) \/
     (2 <= bn <= max_clusters /\
      exists score, bs = NpNumber score /\
        candidate_score L X_scaled bn = Ok (Some score) /\
        (-1 <? np_value score)%float = true)) /\
    (forall k s, 2 <= k <= max_clusters ->
                 candidate_score L X_scaled k = Ok (Some s) ->
                 (number_value bs <? np_value s)%float = false) /\
    (forall k s, 2 <= k < bn ->
                 candidate_score L X_scaled k = Ok (Some s) ->
                 (number_value bs <=? np_value s)%float = false)).
  { intros bs bn Hs. unfold search in Hs. rewrite Hrange in Hs.
    apply search_clusters_best in Hs as (R1 & R2 & R3);
      [| apply exact_minus_one | lia].
    split; [| split].
    - destruct R1 as [R1 | (Hr & s0 & Hbs & Hsc & Hlt)]; [left; exact R1 | right].
      split; [lia |]. exists s0. repeat split; assumption.
    - intros k s Hk. apply R2. lia.
    - intros k s Hk. apply R3; [| lia].
      destruct R1 as [R1 | (Hr & _)]; [inversion R1; subst; lia | lia]. }
  split; [exact Hrange |]. split; [| exact Hbest].
  rewrite (cluster_speakers_steps L embeddings segments X X_scaled Z ds m
             Hv Hlen Hft Hlk Hpd Hmax).
  unfold two_speaker_threshold. rewrite Hm. fold max_clusters. fold search.
  destruct search as [[bs bn] | e] eqn:Hs; cbn [bind snd]; [| reflexivity].
  destruct (Hbest bs bn eq_refl) as (R1 & _).
  replace (bn =? 1) with false; [reflexivity |].
  symmetry; apply Nat.eqb_neq.
  destruct R1 as [R1 | (Hr & _)]; [inversion R1 |]; lia.
Qed.

Lemma cluster_count_selection_witness :
  let L := TestLib.test_lib in
  let X := TestLib.sample_valid in
  let max_clusters := Nat.min 10 (List.length X - 1) in
  let search := search_clusters L (range 2 (max_clusters + 1)) X (PyNumber (-1), 2) in
  range 2 (max_clusters + 1) = seq 2 (max_clusters - 1) /\
  cluster_speakers L TestLib.sample_embeddings [] =
    (best <- search ;;
     valid_labels <- fit_predict L (snd best) X ;;
     most_common_label <- argmax (bincount valid_labels) ;;
     map_back TestLib.sample_embeddings valid_labels most_common_label 0) /\
  forall bs bn, search = Ok (bs, bn) ->
    ((bs, bn) = (PyNumber (-1), 2) \/
     (2 <= bn <= max_clusters /\
      exists score, bs = NpNumber score /\
        candidate_score L X bn = Ok (Some score) /\
        (-1 <? np_value score)%float = true)) /\
    (forall k s, 2 <= k <= max_clusters ->
                 candidate_score L X k = Ok (Some s) ->
                 (number_value bs <? np_value s)%float = false) /\
    (forall k s, 2 <= k < bn ->
                 candidate_score L X k = Ok (Some s) ->
                 (number_value bs <=? np_value s)%float = false).
Proof.
  apply (cluster_count_selection TestLib.test_lib TestLib.sample_embeddings []
           TestLib.sample_valid TestLib.sample_valid TestLib.sample_valid
           (TestLib.pdist_rows TestLib.sample_valid) TestLib.sample_max);
    try reflexivity.
  cbn; lia.
Defined.

(** The search on the sample request: the candidates 2, 3 and 4 score 1/2,
    1/3 and 1/4, and 2 is selected. *)
Example search_clusters_sample :
  search_clusters TestLib.test_lib (range 2 5) TestLib.sample_valid (PyNumber (-1), 2) =
  Ok (NpNumber (mkNp float64 0.5), 2).
Proof. vm_compute. reflexivity. Qed.

(** With equal scores the first candidate is kept; with rising scores the
    last one is selected. *)
Example search_clusters_tie :
  search_clusters (TestLib.lib_with_scores (fun _ => 0.5%float)) (range 2 5)
    TestLib.sample_valid (PyNumber (-1), 2) =
  Ok (NpNumber (mkNp float64 0.5), 2).
Proof. vm_compute. reflexivity. Qed.

Example search_clusters_rising :
  search_clusters
    (TestLib.lib_with_scores (fun k => of_uint63 (Uint63.of_Z (Z.of_nat k)) / 8)%float)
    (range 2 5) TestLib.sample_valid (PyNumber (-1), 2) =
  Ok (NpNumber (mkNp float64 0.5), 4).
Proof. vm_compute. reflexivity. Qed.

(** C5. Majority fallback: [cluster_speakers] gives every index whose
    embedding is [None] the label [speaker fallback] that is the most
    frequent among the labels of the valid indices: no label occurs there
    more often, and a cluster id whose label occurs as often is not lower
    than [fallback]. *)
Theorem majority_fallback (L : SciLib) (d : nat) (embeddings : list (option ndarray))
    (segments : list Segment) :
  SciLibSpec L -> 0 < d -> wf_embeddings d embeddings ->
  exists labels fallback,
    cluster_speakers L embeddings segments = Ok labels /\
    (forall i, nth_error embeddings i = Some None ->
               nth_error labels i = Some (speaker fallback)) /\
    (forall lab,
       count_occ string_dec (labels_at_valid embeddings labels) lab <=
       count_occ string_dec (labels_at_valid embeddings labels) (speaker fallback)) /\
    (forall c,
       count_occ string_dec (labels_at_valid embeddings labels) (speaker c) =
       count_occ string_dec (labels_at_valid embeddings labels) (speaker fallback) ->
       fallback <= c).
Proof.
  intros HL Hd Hwf.
  destruct (cluster_speakers_returns L d embeddings segments HL Hd Hwf)
    as (ids & fallback & Hrun & Hlen & Hmf).
  exists (assign embeddings ids fallback), fallback.
  rewrite labels_at_valid_assign by assumption.
  assert (Hcount : forall c, count_occ string_dec (map speaker ids) (speaker c) =
                             count_occ Nat.eq_dec ids c).
  { intros c. symmetry. apply count_occ_map. exact speaker_inj. }
  split; [exact Hrun |]. split; [| split].
  - intros i Hi. apply assign_nth_none; [lia | assumption].
  - intros lab. rewrite Hcount.
    destruct (in_dec string_dec lab (map speaker ids)) as [Hin | Hout].
    + apply in_map_iff in Hin as (c & <- & _). rewrite Hcount. apply Hmf.
    + rewrite (proj1 (count_occ_not_In string_dec _ _) Hout). lia.
  - intros c. rewrite !Hcount. apply Hmf.
Qed.

Lemma majority_fallback_witness :
  let L := TestLib.test_lib in
  let embeddings := TestLib.sample_embeddings in
  exists labels fallback,
    cluster_speakers L embeddings [] = Ok labels /\
    (forall i, nth_error embeddings i = Some None ->
               nth_error labels i = Some (speaker fallback)) /\
    (forall lab,
       count_occ string_dec (labels_at_valid embeddings labels) lab <=
       count_occ string_dec (labels_at_valid embeddings labels) (speaker fallback)) /\
    (forall c,
       count_occ string_dec (labels_at_valid embeddings labels) (speaker c) =
       count_occ string_dec (labels_at_valid embeddings labels) (speaker fallback) ->
       fallback <= c).
Proof.
  exact (majority_fallback TestLib.test_lib 2 TestLib.sample_embeddings []
           test_lib_spec (Nat.lt_0_succ 1) sample_embeddings_wf).
Defined.

(** The sample request: four of the five valid embeddings are in cluster 1,
    which the missing one takes. *)
Example cluster_speakers_sample :
  cluster_speakers TestLib.test_lib TestLib.sample_embeddings [] =
  Ok ["speaker_0"; "speaker_1"; "speaker_1"; "speaker_1"; "speaker_1"; "speaker_1"]%string.
Proof. vm_compute. reflexivity. Qed.

(** C6, as stated, fails on the [float32] arrays of the service.  The
    distance is then an [np.float32], the similarity [1 - d] keeps that type
    and the threshold is rounded to it before the comparison of line 254.
    At the distance float32(0.55) the similarity is 0.44999998807907104,
    strictly below the threshold 0.45, and yet the label is ["YOU"], which
    is not of the OTHER family: 0.45 rounds to that very number. *)
Lemma below_threshold_labelled_you :
  let d := mkNp float32 0.550000011920929%float in
  let L := TestLib.lib_with_cosine d in
  cosine L [0; 1]%float TestLib.sample_user = Ok d /\
  np_value (np_rsub_one d) = 0.44999998807907104%float /\
  (np_value (np_rsub_one d) <? 0.45)%float = true /\
  cluster_speakers_personalized L [Some [0; 1]%float] TestLib.sample_user 0.45%float =
    Ok [Some "YOU"%string] /\
  other_family (Some "YOU"%string) = false.
Proof. vm_compute. repeat split; reflexivity. Qed.

(** C6, amended.  An index without embedding is labelled ["YOU"]; an index
    whose similarity [1 - d] to the reference is at least the threshold is
    labelled ["YOU"]; an index whose similarity is strictly below the
    threshold rounded to the type of the similarity ([np_lt]; for an
    [np.float32], 0.45 rounds to 0.44999998807907104), or more generally
    fails the comparison [similarity >= threshold] made in that type
    ([np_ge]; a similarity that is not a number fails it), takes a label of
    the OTHER family, and an index that passes that comparison is labelled
    ["YOU"]; and when exactly one index is a pending candidate, its label is
    exactly ["OTHER"]. *)
Theorem personalized_labelling_rule (L : SciLib) (d : nat)
    (embeddings : list (option ndarray)) (u : ndarray) (t : float) :
  SciLibSpec L -> 0 < d -> wf_embeddings d embeddings -> List.length u = d ->
  exists labels,
    cluster_speakers_personalized L embeddings u t = Ok labels /\
    (forall i, nth_error embeddings i = Some None ->
               nth_error labels i = Some (Some "YOU"%string)) /\
    (forall i v x,
       nth_error embeddings i = Some (Some v) -> cosine L v u = Ok x ->
       let similarity := np_rsub_one x in
       ((t <=? np_value similarity)%float = true ->
        nth_error labels i = Some (Some "YOU"%string)) /\
       (np_ge similarity t = true ->
        nth_error labels i = Some (Some "YOU"%string)) /\
       (np_lt similarity t = true ->
        exists lab, nth_error labels i = Some lab /\ other_family lab = true) /\
       (np_ge similarity t = false ->
        exists lab, nth_error labels i = Some lab /\ other_family lab = true)) /\
    (forall i, pending L embeddings u t i ->
               (forall j, pending L embeddings u t j -> j = i) ->
               nth_error labels i = Some (Some "OTHER"%string)).
Proof.
  intros HL Hd Hwf Hu.
  destruct (personalized_returns L d embeddings u t HL Hd Hwf Hu)
    as (al & oe & oi & ols & Hloop & Hrun & Hols & Hfam & Hif).
  destruct (label_loop_spec _ _ _ _ _ _ _ _ Hloop) as (Hall & Hoi & Hlen & _).
  exists (merge al ols). split; [exact Hrun |]. split; [| split].
  - intros i Hi.
    destruct (Forall2_nth_error_l _ _ _ _ _ Hall Hi) as (b & Hb & Hl).
    cbn [labelled] in Hl. subst b. apply merge_some, Hb.
  - intros i v x Hi Hx similarity.
    destruct (Forall2_nth_error_l _ _ _ _ _ Hall Hi) as (b & Hb & Hl).
    cbn [labelled] in Hl.
    destruct Hl as (x' & Hx' & ->). rewrite Hx in Hx'. inversion Hx'; subst x'.
    fold similarity in Hb.
    assert (Hyou : np_ge similarity t = true ->
              nth_error (merge al ols) i = Some (Some "YOU"%string))
      by (intros Hcmp; rewrite Hcmp in Hb; apply merge_some, Hb).
    assert (Hother : np_ge similarity t = false ->
              exists lab, nth_error (merge al ols) i = Some lab /\
                          other_family lab = true);
      [| split; [intros Hle; apply Hyou, np_ge_value, Hle |];
         split; [exact Hyou |];
         split; [intros Hlt; apply Hother, np_lt_not_ge, Hlt | exact Hother]].
    intros Hcmp.
    + assert (Hp : In i (placeholders 0 al)).
      { apply (placeholder_pending L embeddings u t al i Hall).
        exists v, x. repeat split; assumption. }
      apply placeholders_position in Hp as (j & Hj).
      destruct (nth_error ols j) as [o |] eqn:Ho.
      * exists (Some o). split; [eapply merge_others; eassumption |].
        rewrite Forall_forall in Hfam. apply Hfam. eapply nth_error_In, Ho.
      * apply nth_error_None in Ho.
        assert (j < List.length (placeholders 0 al))
          by (apply nth_error_Some; rewrite Hj; discriminate).
        rewrite Hoi in Hols. lia.
  - intros i Hpend Huniq.
    assert (Hsingle : placeholders 0 al = [i]).
    { apply placeholders_single.
      - apply (placeholder_pending L embeddings u t al i Hall), Hpend.
      - intros k Hk. apply Huniq.
        apply (placeholder_pending L embeddings u t al k Hall), Hk. }
    rewrite Hoi, Hsingle in Hlen. cbn in Hlen. rewrite Hlen in Hif. cbn in Hif.
    subst ols. apply (merge_others al _ 0 i); [rewrite Hsingle |]; reflexivity.
Qed.

Lemma personalized_labelling_rule_witness :
  let L := TestLib.test_lib in
  let embeddings := TestLib.sample_embeddings in
  let u := TestLib.sample_user in
  let t := 0.45%float in
  exists labels,
    cluster_speakers_personalized L embeddings u t = Ok labels /\
    (forall i, nth_error embeddings i = Some None ->
               nth_error labels i = Some (Some "YOU"%string)) /\
    (forall i v x,
       nth_error embeddings i = Some (Some v) -> cosine L v u = Ok x ->
       let similarity := np_rsub_one x in
       ((t <=? np_value similarity)%float = true ->
        nth_error labels i = Some (Some "YOU"%string)) /\
       (np_ge similarity t = true ->
        nth_error labels i = Some (Some "YOU"%string)) /\
       (np_lt similarity t = true ->
        exists lab, nth_error labels i = Some lab /\ other_family lab = true) /\
       (np_ge similarity t = false ->
        exists lab, nth_error labels i = Some lab /\ other_family lab = true)) /\
    (forall i, pending L embeddings u t i ->
               (forall j, pending L embeddings u t j -> j = i) ->
               nth_error labels i = Some (Some "OTHER"%string)).
Proof.
  exact (personalized_labelling_rule TestLib.test_lib 2 TestLib.sample_embeddings
           TestLib.sample_user 0.45%float test_lib_spec (Nat.lt_0_succ 1)
           sample_embeddings_wf eq_refl).
Defined.

(** The sample request in the personalized mode. *)
Example cluster_speakers_personalized_sample :
  cluster_speakers_personalized TestLib.test_lib TestLib.sample_embeddings
    TestLib.sample_user 0.45%float =
  Ok [Some "YOU"; Some "YOU"; Some "OTHER_0"; Some "OTHER_1"; Some "OTHER_1";
      Some "YOU"]%string.
Proof. vm_compute. reflexivity. Qed.

(** On the [float32] arrays of the service the distance is an [np.float32].
    At the distance float32(0.55) the similarity is float32(0.45), which the
    threshold 0.45 cast to [float32] equals: the label is ["YOU"].  The same
    distance as an [np.float64] gives a similarity below 0.45. *)
Example cluster_speakers_personalized_float32 :
  cluster_speakers_personalized
    (TestLib.lib_with_cosine (mkNp float32 0.550000011920929%float))
    [Some [0; 1]%float] TestLib.sample_user 0.45%float =
  Ok [Some "YOU"%string].
Proof. vm_compute. reflexivity. Qed.

Example cluster_speakers_personalized_float64 :
  cluster_speakers_personalized
    (TestLib.lib_with_cosine (mkNp float64 0.550000011920929%float))
    [Some [0; 1]%float] TestLib.sample_user 0.45%float =
  Ok [Some "OTHER"%string].
Proof. vm_compute. reflexivity. Qed.

(** With a single dissimilar segment the label is ["OTHER"]. *)
Example cluster_speakers_personalized_single_other :
  cluster_speakers_personalized TestLib.test_lib
    [Some [0; 1]%float; None; Some [30; 0]%float; Some [0.1; 1]%float]
    TestLib.sample_user 0.45%float =
  Ok [Some "YOU"; Some "YOU"; Some "OTHER"; Some "YOU"]%string.
Proof. vm_compute. reflexivity. Qed.



(** With scores of 0.2 for every count the gate of line 299 fails and the
    three pending segments of the sample request are one other speaker. *)
Example cluster_speakers_personalized_gate :
  cluster_speakers_personalized (TestLib.lib_with_scores (fun _ => 0.2%float))
    TestLib.sample_embeddings TestLib.sample_user 0.45%float =
  Ok [Some "YOU"; Some "YOU"; Some "OTHER"; Some "OTHER"; Some "OTHER";
      Some "YOU"]%string.
Proof. vm_compute. reflexivity. Qed.

(** The gate of line 299 on a score float32(0.2): as an [np.float32] it is
    not above 0.2, as an [np.float64] of the same value it is. *)
Example acceptance_gate_float32 :
  number_gt (NpNumber (mkNp float32 0.20000000298023224%float)) 0.2%float = false /\
  number_gt (NpNumber (mkNp float64 0.20000000298023224%float)) 0.2%float = true /\
  number_gt (PyNumber (-1)%float) 0.2%float = false.
Proof. vm_compute. repeat split; reflexivity. Qed.

(** C8. Threshold monotonicity: for thresholds [t1 <= t2] the number of
    OTHER-family labels under [t2] is at least the number under [t1]. *)
Theorem threshold_monotonicity (L : SciLib) (d : nat)
    (embeddings : list (option ndarray)) (u : ndarray) (t1 t2 : float) :
  SciLibSpec L -> 0 < d -> wf_embeddings d embeddings -> List.length u = d ->
  (t1 <=? t2)%float = true ->
  exists labels1 labels2,
    cluster_speakers_personalized L embeddings u t1 = Ok labels1 /\
    cluster_speakers_personalized L embeddings u t2 = Ok labels2 /\
    count_other labels1 <= count_other labels2.
Proof.
  intros HL Hd Hwf Hu Ht.
  assert (Hcount : forall t, exists labels all_labels,
            cluster_speakers_personalized L embeddings u t = Ok labels /\
            Forall2 (labelled L u t) embeddings all_labels /\
            count_other labels = List.length (placeholders 0 all_labels)).
  { intros t.
    destruct (personalized_returns L d embeddings u t HL Hd Hwf Hu)
      as (al & oe & oi & ols & Hloop & Hrun & Hols & Hfam & _).
    destruct (label_loop_spec _ _ _ _ _ _ _ _ Hloop) as (Hall & Hoi & _).
    exists (merge al ols), al. repeat split; try assumption.
    apply count_other_family_merge;
      [eapply labelled_you_or_placeholder, Hall | exact Hfam | rewrite <- Hoi; lia]. }
  destruct (Hcount t1) as (labels1 & al1 & Hrun1 & Hall1 & Hc1).
  destruct (Hcount t2) as (labels2 & al2 & Hrun2 & Hall2 & Hc2).
  exists labels1, labels2. repeat split; try assumption.
  rewrite Hc1, Hc2. eapply placeholders_monotone; eassumption.
Qed.

Lemma threshold_monotonicity_witness :
  exists labels1 labels2,
    cluster_speakers_personalized TestLib.test_lib TestLib.sample_embeddings
      TestLib.sample_user 0.01%float = Ok labels1 /\
    cluster_speakers_personalized TestLib.test_lib TestLib.sample_embeddings
      TestLib.sample_user 0.45%float = Ok labels2 /\
    count_other labels1 <= count_other labels2.
Proof.
  exact (threshold_monotonicity TestLib.test_lib 2 TestLib.sample_embeddings
           TestLib.sample_user 0.01%float 0.45%float test_lib_spec (Nat.lt_0_succ 1)
           sample_embeddings_wf eq_refl eq_refl).
Defined.

(** On the sample request the threshold 0.01 leaves two OTHER-family labels
    and the threshold 0.45 three. *)
Example threshold_sample :
  cluster_speakers_personalized TestLib.test_lib TestLib.sample_embeddings
    TestLib.sample_user 0.01%float =
  Ok [Some "YOU"; Some "YOU"; Some "OTHER"; Some "YOU"; Some "OTHER";
      Some "YOU"]%string.
Proof. vm_compute. reflexivity. Qed.

(** C9. Degenerate inputs: with no valid embedding [cluster_speakers] returns
    ["speaker_0"] at every index and [cluster_speakers_personalized] returns
    ["YOU"] at every index; with exactly one valid embedding
    [cluster_speakers] returns ["speaker_0"] at every index.  No routine of
    the library is called on these paths, so nothing is raised. *)
Theorem degenerate_input_fallback (L : SciLib) (embeddings : list (option ndarray))
    (segments : list Segment) (u : ndarray) (t : float) :
  (valid_embeddings embeddings = [] ->
   cluster_speakers L embeddings segments =
     Ok (repeat "speaker_0"%string (List.length embeddings)) /\
   cluster_speakers_personalized L embeddings u t =
     Ok (repeat (Some "YOU"%string) (List.length embeddings))) /\
  (List.length (valid_embeddings embeddings) = 1 ->
   cluster_speakers L embeddings segments =
     Ok (repeat "speaker_0"%string (List.length embeddings))).
Proof.
  rewrite valid_embeddings_eq. split.
  - intros H. split; [apply cluster_speakers_no_valid, H |].
    apply personalized_no_valid, H.
  - apply cluster_speakers_one_valid.
Qed.

Lemma degenerate_input_fallback_witness :
  let L := TestLib.test_lib in
  (cluster_speakers L [None; None; None] [] =
     Ok ["speaker_0"; "speaker_0"; "speaker_0"]%string /\
   cluster_speakers_personalized L [None; None; None] [1; 0]%float 0.45%float =
     Ok [Some "YOU"; Some "YOU"; Some "YOU"]%string) /\
  cluster_speakers L [None; Some [3; 4]%float; None] [] =
    Ok ["speaker_0"; "speaker_0"; "speaker_0"]%string.
Proof.
  split.
  - apply (proj1 (degenerate_input_fallback TestLib.test_lib [None; None; None] []
                    [1; 0]%float 0.45%float)).
    reflexivity.
  - apply (proj2 (degenerate_input_fallback TestLib.test_lib
                    [None; Some [3; 4]%float; None] [] [] 0%float)).
    reflexivity.
Defined.

(** ** The engine and its effects *)

Section EffectFacts.

Variable State : Type.
Variable L : SciLibIO State.

Lemma runs_ret {A : Type} (a : A) : runs (ret (State := State) a) (Ok a) [].
Proof. intros [s out]. exists s. unfold ret. cbn. rewrite app_nil_r. reflexivity. Qed.

Lemma runs_lift {A : Type} (r : result A) : runs (lift (State := State) r) r [].
Proof. intros [s out]. exists s. unfold lift. cbn. rewrite app_nil_r. reflexivity. Qed.

Lemma runs_print (l : line) : runs (print (State := State) l) (Ok tt) [l].
Proof. intros [s out]. exists s. reflexivity. Qed.

Lemma runs_call {A : Type} (routine : State -> result A * State) (s0 : State) :
  stateless routine -> runs (lib_call routine) (fst (routine s0)) [].
Proof.
  intros H [s out]. unfold lib_call. cbn. rewrite (H s0 s).
  destruct (routine s) as [r s']. exists s'. cbn. rewrite app_nil_r. reflexivity.
Qed.

Lemma runs_bind {A B : Type} (m : io State A) (k : A -> io State B) (r : result A)
    (r' : result B) (l1 l2 : list line) :
  runs m r l1 ->
  (forall a, r = Ok a -> runs (k a) r' l2) ->
  (forall e, r = Raise e -> r' = Raise e /\ l2 = []) ->
  runs (io_bind m k) r' (l1 ++ l2).
Proof.
  intros Hm Hk He w. destruct (Hm w) as (s & Hw). unfold io_bind. rewrite Hw.
  destruct r as [a | e].
  - destruct (Hk a eq_refl (mkWorld s (stdout w ++ l1))) as (s' & Hw').
    exists s'. rewrite Hw'. cbn. rewrite app_assoc. reflexivity.
  - destruct (He e eq_refl) as (-> & ->). exists s. rewrite app_nil_r. reflexivity.
Qed.

Lemma pure_ret {A : Type} (a : A) : pure_io (ret (State := State) a) (Ok a).
Proof. exists []. apply runs_ret. Qed.

Lemma pure_lift {A : Type} (r : result A) : pure_io (lift (State := State) r) r.
Proof. exists []. apply runs_lift. Qed.

Lemma pure_call {A : Type} (routine : State -> result A * State) (s0 : State) :
  stateless routine -> pure_io (lib_call routine) (fst (routine s0)).
Proof. intros H. exists []. apply runs_call, H. Qed.

Lemma pure_bind {A B : Type} (m : io State A) (k : A -> io State B) (r : result A)
    (kp : A -> result B) :
  pure_io m r -> (forall a, pure_io (k a) (kp a)) ->
  pure_io (io_bind m k) (bind r kp).
Proof.
  intros (l1 & Hm) Hk. destruct r as [a | e]; cbn [bind].
  - destruct (Hk a) as (l2 & Ha). exists (l1 ++ l2). intros w.
    destruct (Hm w) as (s & Hw). unfold io_bind. rewrite Hw.
    destruct (Ha (mkWorld s (stdout w ++ l1))) as (s' & Hw').
    exists s'. rewrite Hw'. cbn. rewrite app_assoc. reflexivity.
  - exists l1. intros w. destruct (Hm w) as (s & Hw). unfold io_bind. rewrite Hw.
    exists s. reflexivity.
Qed.

Lemma pure_print {A : Type} (l : line) (k : unit -> io State A) (r : result A) :
  pure_io (k tt) r -> pure_io (io_bind (print l) k) r.
Proof.
  intros (l2 & Hk). exists (l :: l2). intros w. unfold io_bind, print.
  destruct (Hk (mkWorld (hidden w) (stdout w ++ [l]))) as (s & Hw).
  exists s. rewrite Hw. cbn. rewrite <- app_assoc. reflexivity.
Qed.

Hypothesis HL : deterministic L.

Lemma search_clusters_io_pure (s0 : State) (ns : list nat) (X_scaled : Matrix)
    (best : py_number * nat) :
  pure_io (search_clusters_io L ns X_scaled best)
          (search_clusters (at_state L s0) ns X_scaled best).
Proof.
  revert best; induction ns as [| n rest IH]; intros best;
    cbn [search_clusters_io search_clusters].
  - apply pure_ret.
  - apply pure_bind; [apply (pure_call _ s0), (fit_predict_det State L HL) |].
    intros labels. destruct (1 <? len_set labels); [| apply IH].
    apply pure_bind; [apply (pure_call _ s0), (silhouette_score_det State L HL) |].
    intros score. destruct (np_gt_number score (fst best)); apply IH.
Qed.

Lemma cluster_speakers_io_pure (s0 : State) (embeddings : list (option ndarray))
    (segments : list Segment) :
  pure_io (cluster_speakers_io L embeddings segments)
          (cluster_speakers (at_state L s0) embeddings segments).
Proof.
  unfold cluster_speakers_io, cluster_speakers.
  destruct embeddings as [| e0 rest]; [apply pure_ret |].
  set (embeddings := e0 :: rest).
  destruct (valid_embeddings embeddings) as [| v vs].
  { apply pure_print, pure_ret. }
  apply pure_bind; [apply pure_lift |]. intros X.
  destruct (List.length X <? 2); [apply pure_ret |].
  apply pure_bind; [apply (pure_call _ s0), (fit_transform_det State L HL) |]. intros X_scaled.
  apply pure_bind; [apply (pure_call _ s0), (linkage_det State L HL) |]. intros _.
  apply pure_bind; [apply (pure_call _ s0), (pdist_det State L HL) |]. intros distances.
  apply pure_bind; [apply (pure_call _ s0), (np_max_det State L HL) |]. intros max_distance.
  apply pure_bind.
  { destruct (max_distance <? two_speaker_threshold)%float; [apply pure_ret |].
    apply pure_bind; [apply search_clusters_io_pure |]. intros best. apply pure_ret. }
  intros n_clusters. apply pure_print.
  destruct (n_clusters =? 1); [apply pure_ret |].
  apply pure_bind; [apply (pure_call _ s0), (fit_predict_det State L HL) |]. intros valid_labels.
  apply pure_bind; [apply pure_lift |]. intros most_common_label. apply pure_lift.
Qed.

End EffectFacts.


Lemma counting_lib_deterministic : deterministic TestLib.counting_lib.
Proof. constructor; intros; intros s s'; reflexivity. Qed.

(** C10. Purity and determinism of [cluster_speakers].  The function is
    run with its effects ([cluster_speakers_io]): it prints, and it calls
    library routines that carry a state of their own.  When the result of
    each routine is determined by its arguments ([deterministic]: the
    routines may still change the state of their library), two invocations
    on equal embedding lists return the same outcome (the same labels, or
    the same exception) from any two worlds [w1] and [w2] and for any two
    [segments] arguments; both print the same lines and do nothing else to
    the world than what the routines do to their own state; and the outcome
    is the one of the function [cluster_speakers] over the routines read at
    any one state. *)
Theorem cluster_speakers_pure (State : Type) (L : SciLibIO State)
    (embeddings1 embeddings2 : list (option ndarray))
    (segments1 segments2 : list Segment) (w1 w2 : World State) :
  deterministic L ->
  embeddings1 = embeddings2 ->
  exists labels lines s1 s2,
    cluster_speakers_io L embeddings1 segments1 w1 =
      (labels, mkWorld s1 (stdout w1 ++ lines)) /\
    cluster_speakers_io L embeddings2 segments2 w2 =
      (labels, mkWorld s2 (stdout w2 ++ lines)) /\
    labels = cluster_speakers (at_state L (hidden w1)) embeddings1 segments1.
Proof.
  intros HL <-.
  destruct (cluster_speakers_io_pure State L HL (hidden w1) embeddings1 segments1)
    as (lines & Hruns).
  destruct (Hruns w1) as (s1 & H1).
  change (cluster_speakers_io L embeddings1 segments2)
    with (cluster_speakers_io L embeddings1 segments1).
  destruct (Hruns w2) as (s2 & H2).
  exists (cluster_speakers (at_state L (hidden w1)) embeddings1 segments1), lines, s1, s2.
  repeat split; assumption.
Qed.

Lemma cluster_speakers_pure_witness :
  let embeddings := [Some [0; 0]%float; None; Some [30; 0]%float] in
  let w1 := mkWorld 0 [] in
  let w2 := mkWorld 7 [Detected 3; NoValidEmbeddings] in
  exists labels lines s1 s2,
    cluster_speakers_io TestLib.counting_lib embeddings [] w1 =
      (labels, mkWorld s1 (stdout w1 ++ lines)) /\
    cluster_speakers_io TestLib.counting_lib embeddings
      [mkSegment 0%float 1.5%float "hello"; mkSegment 1.5%float 2%float ""] w2 =
      (labels, mkWorld s2 (stdout w2 ++ lines)) /\
    labels = cluster_speakers (at_state TestLib.counting_lib (hidden w1)) embeddings [].
Proof.
  exact (cluster_speakers_pure nat TestLib.counting_lib _ _ _ _ _ _
           counting_lib_deterministic eq_refl).
Defined.

(** The sample request from two worlds: the same labels and the same line
    printed, after eleven calls of the library. *)
Example cluster_speakers_io_sample :
  cluster_speakers_io TestLib.counting_lib TestLib.sample_embeddings [] (mkWorld 0 []) =
    (Ok ["speaker_0"; "speaker_1"; "speaker_1"; "speaker_1"; "speaker_1";
         "speaker_1"]%string,
     mkWorld 11 [Detected 2]) /\
  cluster_speakers_io TestLib.counting_lib TestLib.sample_embeddings []
    (mkWorld 7 [NoValidEmbeddings]) =
    (Ok ["speaker_0"; "speaker_1"; "speaker_1"; "speaker_1"; "speaker_1";
         "speaker_1"]%string,
     mkWorld 18 [NoValidEmbeddings; Detected 2]).
Proof. vm_compute. split; reflexivity. Qed.

(** The hypothesis on the routines is needed: with a clustering that depends
    on the state of its library, two invocations on the same embeddings
    return different labels. *)
Example cluster_speakers_io_seeded :
  fst (cluster_speakers_io TestLib.seeded_lib TestLib.sample_embeddings []
         (mkWorld 0 [])) <>
  fst (cluster_speakers_io TestLib.seeded_lib TestLib.sample_embeddings []
         (mkWorld 1 [])).
Proof. vm_compute. discriminate. Qed.

(** ** Facts on Python numbers, slices and paths *)

Lemma and_then_returned {A B : Type} (r : attempt A) (k : A -> attempt B) (b : B) :
  and_then r k = Returned b -> exists a, r = Returned a /\ k a = Returned b.
Proof.
  destruct r as [a | e]; cbn; intros H; [exists a; auto | discriminate].
Qed.

(** [sr * 0.3] is exactly 6615. *)
Lemma min_samples_exact (n : Z) :
  int_lt_float n (float_of_Z sr * 0.3)%float = (n <? 6615)%Z.
Proof.
  unfold int_lt_float.
  replace (Prim2SF (float_of_Z sr * 0.3)%float)
    with (S754_finite false 7273269417738240 (-40)) by (vm_compute; reflexivity).
  cbn [Z.leb Z.compare Z.opp].
  change (2 ^ 40)%Z with 1099511627776%Z.
  destruct (n <? 6615)%Z eqn:H; [apply Z.ltb_lt in H; apply Z.ltb_lt |
                                  apply Z.ltb_ge in H; apply Z.ltb_ge]; lia.
Qed.

(** [int(x)] returns for every float that is neither NaN nor infinite. *)
Lemma py_int_finite (x : float) :
  is_nan x = false -> is_infinity x = false -> exists z, py_int x = Returned z.
Proof.
  intros Hnan Hinf. unfold py_int, Prim2SF. rewrite Hnan.
  destruct (is_zero x); [eexists; reflexivity |]. rewrite Hinf.
  destruct (Z.frexp x) as [r e].
  destruct (shr_fexp prec emax (Uint63Axioms.to_Z (normfr_mantissa r)) (e - prec) loc_Exact)
    as [shr e'].
  destruct (shr_m shr); eexists; reflexivity.
Qed.

Lemma slice_bound_range (n i : Z) :
  (0 <= n -> 0 <= slice_bound n i <= n)%Z.
Proof.
  unfold slice_bound. destruct (Z.ltb_spec i 0); lia.
Qed.

(** The length of a slice. *)
Lemma py_slice_length {A : Type} (l : list A) (start stop : Z) :
  Z.of_nat (List.length (py_slice l start stop)) =
  Z.max 0 (slice_bound (Z.of_nat (List.length l)) stop -
           slice_bound (Z.of_nat (List.length l)) start).
Proof.
  unfold py_slice. rewrite length_firstn, length_skipn.
  pose proof (slice_bound_range (Z.of_nat (List.length l)) start).
  pose proof (slice_bound_range (Z.of_nat (List.length l)) stop).
  lia.
Qed.

Lemma py_slice_length_le {A : Type} (l : list A) (start stop : Z) :
  List.length (py_slice l start stop) <= List.length l.
Proof.
  pose proof (py_slice_length l start stop).
  pose proof (slice_bound_range (Z.of_nat (List.length l)) start).
  pose proof (slice_bound_range (Z.of_nat (List.length l)) stop).
  lia.
Qed.

Lemma string_length_append (a b : string) :
  String.length (a ++ b) = String.length a + String.length b.
Proof. induction a as [| c a IH]; cbn; [reflexivity | rewrite IH; reflexivity]. Qed.

Lemma append_inj_l (p a b : string) : (p ++ a = p ++ b)%string -> a = b.
Proof.
  induction p as [| c p IH]; cbn; intros H; [exact H |].
  inversion H. apply IH. assumption.
Qed.

Lemma append_inj_r (a b t : string) : (a ++ t = b ++ t)%string -> a = b.
Proof.
  revert b; induction a as [| c a IH]; intros [| d b] H; cbn in H.
  - reflexivity.
  - apply (f_equal String.length) in H. cbn in H.
    rewrite string_length_append in H. lia.
  - apply (f_equal String.length) in H. cbn in H.
    rewrite string_length_append in H. lia.
  - inversion H. f_equal. apply IH. assumption.
Qed.

Lemma append_assoc (a b c : string) : ((a ++ b) ++ c = a ++ (b ++ c))%string.
Proof. induction a as [| x a IH]; cbn; [reflexivity | rewrite IH; reflexivity]. Qed.

Lemma path_join_inj (dir a b : string) : path_join dir a = path_join dir b -> a = b.
Proof.
  unfold path_join. destruct dir as [| c dir]; [auto |].
  destruct (ends_with_slash (String c dir)); intros H.
  - apply append_inj_l in H. exact H.
  - apply append_inj_l in H. cbn in H. inversion H. reflexivity.
Qed.

Lemma read_nat_zeros (k : nat) (s : string) : read_nat (zeros k ++ s) = read_nat s.
Proof.
  induction k as [| k IH]; [reflexivity |].
  unfold read_nat in *. cbn [zeros append NilEmpty.uint_of_string].
  destruct (NilEmpty.uint_of_string (zeros k ++ s)) as [d |] eqn:Hd;
    destruct (NilEmpty.uint_of_string s) as [d' |] eqn:Hd'; cbn in IH |- *;
    try discriminate; [| reflexivity].
  inversion IH as [Heq]. unfold Nat.of_uint in *. cbn. rewrite Heq. reflexivity.
Qed.

Lemma read_format_04d (i : nat) : read_nat (format_04d i) = Some i.
Proof.
  unfold format_04d. rewrite read_nat_zeros. unfold read_nat, str_of_nat.
  rewrite NilEmpty.usu. cbn. rewrite Unsigned.of_to. reflexivity.
Qed.

Lemma format_04d_inj (i j : nat) : format_04d i = format_04d j -> i = j.
Proof.
  intros H. pose proof (read_format_04d i) as Hi. rewrite H, read_format_04d in Hi.
  inversion Hi. reflexivity.
Qed.

(** The name of the file of segment [i]. *)
Lemma segment_path_inj (dir : string) (i j : nat) :
  path_join dir ("segment_" ++ format_04d i ++ ".wav") =
  path_join dir ("segment_" ++ format_04d j ++ ".wav") -> i = j.
Proof.
  intros H. apply path_join_inj in H. apply append_inj_l in H.
  apply append_inj_r in H. apply format_04d_inj, H.
Qed.

(** ** Splitting the audio *)

(** A slice is a part of the sequence. *)
Lemma py_slice_part {A : Type} (l : list A) (start stop : Z) :
  exists before after, l = before ++ py_slice l start stop ++ after.
Proof.
  unfold py_slice.
  set (a := Z.to_nat (slice_bound (Z.of_nat (List.length l)) start)).
  set (n := Z.to_nat (_ - _)).
  exists (firstn a l), (skipn n (skipn a l)).
  rewrite firstn_skipn, firstn_skipn. reflexivity.
Qed.

(** The sample position of a timestamp. *)
Lemma sample_position_float (int_of_str : string -> attempt Z) (seg : Segment)
    (key : string) (x : float) :
  py_getitem seg key = Returned (JFloat x) ->
  sample_position int_of_str seg key = py_int (x * 22050)%float.
Proof. unfold sample_position. intros ->. reflexivity. Qed.

Lemma sample_position_int (int_of_str : string -> attempt Z) (seg : Segment)
    (key : string) (n : Z) :
  py_getitem seg key = Returned (JInt n) ->
  sample_position int_of_str seg key = Returned (n * 22050)%Z.
Proof. unfold sample_position. intros ->. reflexivity. Qed.

Lemma sample_position_timestamp (int_of_str : string -> attempt Z) (seg : Segment)
    (key : string) (v : json) :
  py_getitem seg key = Returned v -> timestamp v ->
  exists a, sample_position int_of_str seg key = Returned a.
Proof.
  unfold sample_position. intros -> Hv. cbn [and_then].
  destruct v as [| b | n | x | s | items | members]; cbn in Hv; try contradiction.
  - eexists; reflexivity.
  - eexists; reflexivity.
  - destruct Hv as (Hnan & Hinf). cbn [py_mul_sr and_then py_int_of].
    apply py_int_finite; assumption.
Qed.

(** One step of the loop of [split_audio_by_segments]. *)
Lemma split_loop_cons (int_of_str : string -> attempt Z) (dir : string)
    (audio : list float) (i : nat) (seg : Segment)
    (rest : list Segment) (paths : list (option string)) (files : list written_file) :
  split_loop int_of_str dir audio i (seg :: rest) = Returned (paths, files) ->
  exists a b paths' files',
    sample_position int_of_str seg "start" = Returned a /\
    sample_position int_of_str seg "end" = Returned b /\
    split_loop int_of_str dir audio (S i) rest = Returned (paths', files') /\
    ((Z.of_nat (List.length (py_slice audio a b)) < 6615)%Z /\
     paths = None :: paths' /\ files = files' \/
     (6615 <= Z.of_nat (List.length (py_slice audio a b)))%Z /\
     paths = Some (segment_path dir i) :: paths' /\
     files = mkWritten (segment_path dir i) (py_slice audio a b) sr :: files').
Proof.
  cbn [split_loop]. intros H.
  apply and_then_returned in H as (a & Ha & H).
  apply and_then_returned in H as (b & Hb & H).
  rewrite min_samples_exact in H.
  destruct (Z.ltb_spec (Z.of_nat (List.length (py_slice audio a b))) 6615) as [Hlt | Hge];
    apply and_then_returned in H as ([paths' files'] & Hrec & H);
    cbn [fst snd] in H; injection H as <- <-;
    exists a, b, paths', files'; (split; [assumption |]);
    (split; [assumption |]); (split; [assumption |]);
    [left | right]; repeat split; assumption.
Qed.

Lemma split_loop_spec (int_of_str : string -> attempt Z) (dir : string)
    (audio : list float) (segments : list Segment) :
  forall (i : nat) (paths : list (option string)) (files : list written_file),
  split_loop int_of_str dir audio i segments = Returned (paths, files) ->
  List.length paths = List.length segments /\
  map written_path files = somes paths /\
  (forall p, In p (somes paths) ->
             exists k, i <= k < i + List.length segments /\ p = segment_path dir k).
Proof.
  induction segments as [| seg rest IH]; intros i paths files H.
  - cbn in H. inversion H; subst. repeat split; try constructor. intros p [].
  - apply split_loop_cons in H
      as (a & b & paths' & files' & _ & _ & Hrec & [(Hlt & -> & ->) | (Hge & -> & ->)]);
      destruct (IH _ _ _ Hrec) as (Hlen & Hmap & Hin);
      cbn [List.length somes map written_path].
    + repeat split; [lia | assumption |].
      intros p Hp. destruct (Hin p Hp) as (k & Hk & ->). exists k. split; [lia | reflexivity].
    + repeat split; [lia | f_equal; assumption |].
      intros p [<- | Hp]; [exists i; split; [lia | reflexivity] |].
      destruct (Hin p Hp) as (k & Hk & ->). exists k. split; [lia | reflexivity].
Qed.

Lemma split_loop_files (int_of_str : string -> attempt Z) (dir : string)
    (audio : list float) (segments : list Segment) :
  forall (i : nat) (paths : list (option string)) (files : list written_file),
  split_loop int_of_str dir audio i segments = Returned (paths, files) ->
  Forall (file_of_segment int_of_str dir audio segments paths i) files.
Proof.
  induction segments as [| seg rest IH]; intros i paths files H.
  - cbn in H. inversion H; subst. constructor.
  - apply split_loop_cons in H
      as (a & b & paths' & files' & Ha & Hb & Hrec & [(Hlt & -> & ->) | (Hge & -> & ->)]);
      pose proof (IH _ _ _ Hrec) as Hfiles.
    + eapply Forall_impl; [| exact Hfiles].
      intros f (k & s & x & y & Hk & Hx & Hy & Hp & Hname & Hdata & Hrate & Hlen).
      exists (S k), s, x, y. cbn [nth_error].
      replace (i + S k) with (S i + k) by lia. repeat split; assumption.
    + constructor.
      * exists 0, seg, a, b. cbn [nth_error written_path written_data written_rate].
        rewrite Nat.add_0_r. repeat split; assumption.
      * eapply Forall_impl; [| exact Hfiles].
        intros f (k & s & x & y & Hk & Hx & Hy & Hp & Hname & Hdata & Hrate & Hlen).
        exists (S k), s, x, y. cbn [nth_error].
        replace (i + S k) with (S i + k) by lia. repeat split; assumption.
Qed.

Lemma split_loop_distinct (int_of_str : string -> attempt Z) (dir : string)
    (audio : list float) (segments : list Segment) :
  forall (i : nat) (paths : list (option string)) (files : list written_file),
  split_loop int_of_str dir audio i segments = Returned (paths, files) ->
  NoDup (somes paths).
Proof.
  induction segments as [| seg rest IH]; intros i paths files H.
  - cbn in H. inversion H; subst. constructor.
  - apply split_loop_cons in H
      as (a & b & paths' & files' & _ & _ & Hrec & [(Hlt & -> & ->) | (Hge & -> & ->)]);
      cbn [somes]; [eapply IH; eassumption |].
    constructor; [| eapply IH; eassumption].
    intros Hin. destruct (split_loop_spec _ _ _ _ _ _ _ Hrec) as (_ & _ & Hk).
    destruct (Hk _ Hin) as (k & Hrange & Heq).
    apply segment_path_inj in Heq. lia.
Qed.

(** The entry of segment [k]. *)
Lemma split_loop_nth (int_of_str : string -> attempt Z) (dir : string)
    (audio : list float) (segments : list Segment) :
  forall (i : nat) (paths : list (option string)) (files : list written_file)
         (k : nat) (seg : Segment),
  split_loop int_of_str dir audio i segments = Returned (paths, files) ->
  nth_error segments k = Some seg ->
  exists a b,
    sample_position int_of_str seg "start" = Returned a /\
    sample_position int_of_str seg "end" = Returned b /\
    nth_error paths k =
      Some (if (Z.of_nat (List.length (py_slice audio a b)) <? 6615)%Z
            then None else Some (segment_path dir (i + k))).
Proof.
  induction segments as [| seg0 rest IH]; intros i paths files k seg H Hk.
  - destruct k; discriminate.
  - apply split_loop_cons in H
      as (a & b & paths' & files' & Ha & Hb & Hrec & Hcase).
    destruct k as [| k]; cbn [nth_error] in Hk.
    + inversion Hk; subst seg0. exists a, b. repeat split; try assumption.
      rewrite Nat.add_0_r.
      destruct Hcase as [(Hlt & -> & _) | (Hge & -> & _)]; cbn [nth_error].
      * rewrite (proj2 (Z.ltb_lt _ _) Hlt). reflexivity.
      * rewrite (proj2 (Z.ltb_ge _ _) Hge). reflexivity.
    + destruct (IH _ _ _ _ _ Hrec Hk) as (a' & b' & Ha' & Hb' & Hn).
      exists a', b'. repeat split; try assumption.
      replace (i + S k) with (S i + k) by lia.
      destruct Hcase as [(_ & -> & _) | (_ & -> & _)]; exact Hn.
Qed.

Lemma split_loop_returns (int_of_str : string -> attempt Z) (dir : string)
    (audio : list float) (segments : list Segment) :
  Forall (fun seg =>
            (exists a, sample_position int_of_str seg "start" = Returned a) /\
            (exists b, sample_position int_of_str seg "end" = Returned b))
         segments ->
  forall i, exists r, split_loop int_of_str dir audio i segments = Returned r.
Proof.
  induction 1 as [| seg rest ((a & Ha) & (b & Hb)) _ IH]; intros i; cbn [split_loop].
  - eexists; reflexivity.
  - rewrite Ha, Hb; cbn [and_then]. destruct (IH (S i)) as (r & ->).
    destruct (int_lt_float _ _); cbn [and_then]; eexists; reflexivity.
Qed.

Lemma timed_positions (int_of_str : string -> attempt Z) (segments : list Segment) :
  Forall timed segments ->
  Forall (fun seg =>
            (exists a, sample_position int_of_str seg "start" = Returned a) /\
            (exists b, sample_position int_of_str seg "end" = Returned b))
         segments.
Proof.
  intros H. eapply Forall_impl; [| exact H].
  intros seg (a & b & Ha & Hb & Hta & Htb).
  split; eapply sample_position_timestamp; eassumption.
Qed.

(** ** Properties of [split_audio_by_segments] *)

(** The steps of a call that returns. *)
Lemma split_audio_returned (librosa_load : string -> attempt (list float))
    (int_of_str : string -> attempt Z) (temp_dir audio_path : string) (segments : json)
    (segment_paths : list (option string)) (dir : string) (files : list written_file) :
  split_audio_by_segments librosa_load int_of_str temp_dir audio_path segments =
    Returned (segment_paths, dir, files) ->
  exists audio items,
    librosa_load audio_path = Returned audio /\
    py_iter segments = Returned items /\
    split_loop int_of_str temp_dir audio 0 items = Returned (segment_paths, files) /\
    dir = temp_dir.
Proof.
  unfold split_audio_by_segments. intros H.
  apply and_then_returned in H as (audio & Haudio & H).
  apply and_then_returned in H as (items & Hitems & H).
  apply and_then_returned in H as ([paths fs] & Hloop & H).
  cbn [fst snd] in H. injection H as <- <- <-.
  exists audio, items. repeat split; assumption.
Qed.

Lemma split_audio_segment_rule_aux (librosa_load : string -> attempt (list float))
    (int_of_str : string -> attempt Z) (temp_dir audio_path : string) (segments : json)
    (segment_paths : list (option string)) (dir : string) (files : list written_file)
    (items : list Segment) (k : nat) (seg : Segment) :
  split_audio_by_segments librosa_load int_of_str temp_dir audio_path segments =
    Returned (segment_paths, dir, files) ->
  py_iter segments = Returned items ->
  nth_error items k = Some seg ->
  exists audio start_sample end_sample,
    librosa_load audio_path = Returned audio /\
    sample_position int_of_str seg "start" = Returned start_sample /\
    sample_position int_of_str seg "end" = Returned end_sample /\
    nth_error segment_paths k =
      Some (if (Z.of_nat (List.length (py_slice audio start_sample end_sample)) <? 6615)%Z
            then None
            else Some (path_join temp_dir ("segment_" ++ format_04d k ++ ".wav"))).
Proof.
  intros H Hitems Hk.
  apply split_audio_returned in H as (audio & items' & Haudio & Hitems' & Hloop & _).
  rewrite Hitems in Hitems'. injection Hitems' as <-.
  destruct (split_loop_nth _ _ _ _ _ _ _ _ _ Hloop Hk) as (a & b & Ha & Hb & Hn).
  exists audio, a, b. repeat split; assumption.
Qed.

(** X1. Index alignment of the splitter: when [split_audio_by_segments]
    returns, [segments] is a sequence, [segment_paths] has exactly one entry
    per segment, the returned directory is the one it made, and the files
    written are exactly the entries that are paths, in order. *)
Theorem split_audio_index_alignment (librosa_load : string -> attempt (list float))
    (int_of_str : string -> attempt Z) (temp_dir audio_path : string) (segments : json)
    (segment_paths : list (option string)) (dir : string) (files : list written_file) :
  split_audio_by_segments librosa_load int_of_str temp_dir audio_path segments =
    Returned (segment_paths, dir, files) ->
  exists items,
    py_iter segments = Returned items /\
    List.length segment_paths = List.length items /\
    dir = temp_dir /\
    map written_path files = somes segment_paths.
Proof.
  intros H.
  apply split_audio_returned in H as (audio & items & _ & Hitems & Hloop & ->).
  destruct (split_loop_spec _ _ _ _ _ _ _ Hloop) as (Hlen & Hmap & _).
  exists items. repeat split; assumption.
Qed.

(** X2. The files of the splitter: no two segments share a file name, and
    every file written belongs to a segment [k] of the request: its name is
    [segment_<k, four digits>.wav] in the temporary directory, it is the
    entry [k] of [segment_paths], and it holds, at the rate 22050, the slice
    of the loaded audio between the two sample positions of that segment, a
    part of the audio of at least 6615 samples (0.3 s). *)
Theorem split_audio_files (librosa_load : string -> attempt (list float))
    (int_of_str : string -> attempt Z) (temp_dir audio_path : string) (segments : json)
    (segment_paths : list (option string)) (dir : string) (files : list written_file) :
  split_audio_by_segments librosa_load int_of_str temp_dir audio_path segments =
    Returned (segment_paths, dir, files) ->
  NoDup (somes segment_paths) /\
  exists audio items,
    librosa_load audio_path = Returned audio /\
    py_iter segments = Returned items /\
    Forall (fun f =>
              exists k seg start_sample end_sample,
                nth_error items k = Some seg /\
                sample_position int_of_str seg "start" = Returned start_sample /\
                sample_position int_of_str seg "end" = Returned end_sample /\
                nth_error segment_paths k = Some (Some (written_path f)) /\
                written_path f =
                  path_join temp_dir ("segment_" ++ format_04d k ++ ".wav") /\
                written_data f = py_slice audio start_sample end_sample /\
                (exists before after, audio = before ++ written_data f ++ after) /\
                written_rate f = 22050%Z /\
                (6615 <= Z.of_nat (List.length (written_data f)))%Z /\
                List.length (written_data f) <= List.length audio) files.
Proof.
  intros H.
  apply split_audio_returned in H as (audio & items & Haudio & Hitems & Hloop & ->).
  split; [eapply split_loop_distinct, Hloop |].
  exists audio, items. split; [exact Haudio |]. split; [exact Hitems |].
  eapply Forall_impl; [| exact (split_loop_files _ _ _ _ _ _ _ Hloop)].
  intros f (k & seg & a & b & Hk & Ha & Hb & Hp & Hname & Hdata & Hrate & Hlen).
  exists k, seg, a, b. rewrite Hdata in *.
  repeat split; try assumption.
  - apply py_slice_part.
  - apply py_slice_length_le.
Qed.

(** X3. The rule of the splitter: segment [k] gets the file
    [segment_<k, four digits>.wav] of the temporary directory exactly when
    the slice of the audio between its two sample positions, clamped as
    Python slices are, holds at least 6615 samples; otherwise its entry is
    [None].  The sample position of a timestamp is [int(seg[key] * 22050)],
    for a float [x] the truncation of [x * 22050]. *)
Theorem split_audio_segment_rule (librosa_load : string -> attempt (list float))
    (int_of_str : string -> attempt Z) (temp_dir audio_path : string) (segments : json)
    (segment_paths : list (option string)) (dir : string) (files : list written_file)
    (items : list Segment) (k : nat) (seg : Segment) :
  split_audio_by_segments librosa_load int_of_str temp_dir audio_path segments =
    Returned (segment_paths, dir, files) ->
  py_iter segments = Returned items ->
  nth_error items k = Some seg ->
  exists audio start_sample end_sample,
    librosa_load audio_path = Returned audio /\
    sample_position int_of_str seg "start" = Returned start_sample /\
    sample_position int_of_str seg "end" = Returned end_sample /\
    (forall x, py_getitem seg "start" = Returned (JFloat x) ->
               py_int (x * 22050)%float = Returned start_sample) /\
    (forall y, py_getitem seg "end" = Returned (JFloat y) ->
               py_int (y * 22050)%float = Returned end_sample) /\
    nth_error segment_paths k =
      Some (if (Z.of_nat (List.length (py_slice audio start_sample end_sample)) <? 6615)%Z
            then None
            else Some (path_join temp_dir ("segment_" ++ format_04d k ++ ".wav"))).
Proof.
  intros H Hitems Hk.
  destruct (split_audio_segment_rule_aux _ _ _ _ _ _ _ _ _ _ _ H Hitems Hk)
    as (audio & a & b & Haudio & Ha & Hb & Hn).
  exists audio, a, b. repeat split; try assumption.
  - intros x Hx. rewrite <- Ha. symmetry. apply sample_position_float, Hx.
  - intros y Hy. rewrite <- Hb. symmetry. apply sample_position_float, Hy.
Qed.

(** X4. Timestamps out of range are tolerated: whatever the audio, the
    splitter returns as soon as the audio loads and every segment has two
    timestamps that are integers, or floats whose product with the sample
    rate is a number (neither NaN nor infinite). *)
Theorem split_audio_tolerates_out_of_range
    (librosa_load : string -> attempt (list float)) (int_of_str : string -> attempt Z)
    (temp_dir audio_path : string) (segments : list Segment) (audio : list float) :
  librosa_load audio_path = Returned audio ->
  Forall timed segments ->
  exists segment_paths files,
    split_audio_by_segments librosa_load int_of_str temp_dir audio_path
      (JArray segments) =
      Returned (segment_paths, temp_dir, files).
Proof.
  intros Haudio Hfin.
  destruct (split_loop_returns int_of_str temp_dir audio segments
              (timed_positions int_of_str segments Hfin) 0) as ([paths fs] & Hloop).
  exists paths, fs. unfold split_audio_by_segments.
  rewrite Haudio; cbn [and_then py_iter]. rewrite Hloop. reflexivity.
Qed.

(** X5. Segments that get no file: a segment that starts at or after the end
    of the audio, a segment whose end is not after its start, and a segment
    whose start is negative and whose end lies before the position that
    start denotes counted from the end of the audio (a negative start is not
    clamped to 0). *)
Theorem split_audio_no_file (librosa_load : string -> attempt (list float))
    (int_of_str : string -> attempt Z) (temp_dir audio_path : string) (segments : json)
    (segment_paths : list (option string)) (dir : string) (files : list written_file)
    (items : list Segment) (k : nat) (seg : Segment) (audio : list float)
    (start_sample end_sample : Z) :
  split_audio_by_segments librosa_load int_of_str temp_dir audio_path segments =
    Returned (segment_paths, dir, files) ->
  py_iter segments = Returned items ->
  nth_error items k = Some seg ->
  librosa_load audio_path = Returned audio ->
  sample_position int_of_str seg "start" = Returned start_sample ->
  sample_position int_of_str seg "end" = Returned end_sample ->
  (Z.of_nat (List.length audio) <= start_sample \/
   0 <= end_sample <= start_sample \/
   start_sample < 0 <= end_sample /\
   end_sample <= Z.of_nat (List.length audio) + start_sample)%Z ->
  nth_error segment_paths k = Some None.
Proof.
  intros H Hitems Hk Haudio Ha Hb Hcase.
  destruct (split_audio_segment_rule_aux librosa_load int_of_str temp_dir audio_path
              segments segment_paths dir files items k seg H Hitems Hk)
    as (audio' & a & b & Haudio' & Ha' & Hb' & Hn).
  rewrite Haudio in Haudio'. injection Haudio' as <-.
  rewrite Ha in Ha'. injection Ha' as <-. rewrite Hb in Hb'. injection Hb' as <-.
  rewrite Hn. f_equal.
  pose proof (py_slice_length audio start_sample end_sample) as Hlen.
  unfold slice_bound in Hlen.
  destruct (Z.ltb_spec start_sample 0), (Z.ltb_spec end_sample 0);
    rewrite (proj2 (Z.ltb_lt _ _)) by lia; reflexivity.
Qed.

(** ** What the engine returns, whatever the routines do *)

Lemma map_back_length (embeddings : list (option ndarray)) (valid_labels : list nat)
    (most_common_label : nat) :
  forall idx labels,
    map_back embeddings valid_labels most_common_label idx = Ok labels ->
    List.length labels = List.length embeddings.
Proof.
  induction embeddings as [| [e |] rest IH]; intros idx labels H; cbn [map_back] in H.
  - inversion H. reflexivity.
  - apply bind_ok in H as (l & _ & H). apply bind_ok in H as (ls & Hrec & H).
    inversion H. cbn. f_equal. eapply IH, Hrec.
  - apply bind_ok in H as (ls & Hrec & H).
    inversion H. cbn. f_equal. eapply IH, Hrec.
Qed.

Ltac unbind H :=
  repeat match type of H with
  | bind _ _ = Ok _ => let x := fresh "x" in let Hx := fresh "Hx" in
                       apply bind_ok in H as (x & Hx & H)
  | (if ?c then _ else _) = Ok _ => destruct c
  end.

Lemma cluster_speakers_length (L : SciLib) (embeddings : list (option ndarray))
    (segments : list Segment) (labels : list string) :
  cluster_speakers L embeddings segments = Ok labels ->
  List.length labels = List.length embeddings.
Proof.
  unfold cluster_speakers. intros H.
  destruct embeddings as [| x rest]; [inversion H; reflexivity |].
  destruct (valid_embeddings (x :: rest));
    [injection H as <-; exact (repeat_length _ (List.length (x :: rest))) |].
  unbind H;
    try (injection H as <-; exact (repeat_length _ (List.length (x :: rest)))).
  all: eapply map_back_length; eassumption.
Qed.

Lemma list_set_length {A : Type} (l : list A) (i : nat) (v : A) (l' : list A) :
  list_set l i v = Ok l' -> List.length l' = List.length l.
Proof.
  revert i l'; induction l as [| x r IH]; intros i l' H; [destruct i; discriminate |].
  destruct i as [| i]; cbn in H.
  - inversion H. reflexivity.
  - apply bind_ok in H as (r' & Hr & H). inversion H. cbn. f_equal. eapply IH, Hr.
Qed.

(** When the filling of the placeholders returns, there were enough labels
    and the result is [merge]. *)
Lemma fill_others_ok (all_labels pre : list (option string))
    (other_labels done : list string) (r : list (option string)) :
  fill_others (pre ++ all_labels) (placeholders (List.length pre) all_labels)
              (done ++ other_labels) (List.length done) = Ok r ->
  List.length (placeholders 0 all_labels) <= List.length other_labels.
Proof.
  revert pre other_labels done; induction all_labels as [| [l |] rest IH];
    intros pre ols done H; cbn [placeholders fill_others List.length] in *.
  - lia.
  - specialize (IH (pre ++ [Some l]) ols done).
    rewrite <- !app_assoc, length_app, Nat.add_1_r in IH. cbn [app] in IH.
    rewrite (placeholders_length 1 0). apply IH, H.
  - apply bind_ok in H as (o & Ho & H). unfold list_get in Ho.
    rewrite nth_error_app2, Nat.sub_diag in Ho by lia.
    destruct ols as [| o' os]; [discriminate |]. cbn in Ho. inversion Ho; subst o'.
    rewrite list_set_app in H. cbn [bind] in H.
    specialize (IH (pre ++ [Some o]) os (done ++ [o])).
    rewrite <- !app_assoc, !length_app, !Nat.add_1_r in IH. cbn [app] in IH.
    rewrite (placeholders_length 1 0). cbn [List.length]. apply le_n_S, IH, H.
Qed.

(** Whenever the personalized mode returns, its result is [all_labels] with
    every placeholder filled. *)
Lemma personalized_ok (L : SciLib) (embeddings : list (option ndarray)) (u : ndarray)
    (t : float) (labels : list (option string)) :
  cluster_speakers_personalized L embeddings u t = Ok labels ->
  exists all_labels other_embeddings other_indices other_labels,
    label_loop L 0 embeddings u t = Ok (all_labels, other_embeddings, other_indices) /\
    labels = merge all_labels other_labels /\
    List.length other_indices <= List.length other_labels /\
    (if 1 <? List.length other_embeddings
     then cluster_others L other_embeddings = Ok other_labels
     else other_labels = repeat "OTHER"%string (List.length other_embeddings)).
Proof.
  intros H.
  destruct (somes embeddings) as [| v vs] eqn:Hs.
  { rewrite personalized_no_valid in H by assumption. inversion H; subst.
    exists (repeat (Some "YOU"%string) (List.length embeddings)), [], [], [].
    rewrite merge_nil.
    split; [apply label_loop_no_valid, Hs |].
    split; [reflexivity |]. split; [cbn; lia | reflexivity]. }
  assert (Hne : embeddings <> []) by (intros ->; discriminate).
  unfold cluster_speakers_personalized in H. rewrite valid_embeddings_eq, Hs in H.
  destruct embeddings as [| x rest]; [congruence |].
  apply bind_ok in H as ([[al oe] oi] & Hloop & H).
  destruct (label_loop_spec _ _ _ _ _ _ _ _ Hloop) as (Hall & Hoi & Hlen & _).
  exists al, oe, oi.
  destruct (1 <? List.length oe) eqn:Hmany.
  - apply bind_ok in H as (ols & Hco & H). exists ols.
    pose proof (fill_others_ok al [] ols [] labels) as Hok.
    pose proof (fill_others_merge al [] ols []) as Hmerge.
    cbn [app List.length] in Hok, Hmerge. rewrite <- Hoi in Hok, Hmerge.
    specialize (Hok H). rewrite Hmerge in H by assumption. injection H as <-.
    split; [exact Hloop |]. split; [reflexivity |].
    split; [exact Hok | exact Hco].
  - exists (repeat "OTHER"%string (List.length oe)).
    assert (Hrun : cluster_speakers_personalized L (x :: rest) u t = Ok labels).
    { unfold cluster_speakers_personalized. rewrite valid_embeddings_eq, Hs, Hloop.
      cbn [bind]. rewrite Hmany. exact H. }
    rewrite (personalized_merge L (x :: rest) u t al oe oi
               (repeat "OTHER"%string (List.length oe)) Hloop) in Hrun
      by (rewrite Hmany; reflexivity).
    injection Hrun as <-. rewrite repeat_length.
    split; [exact Hloop |]. split; [reflexivity |]. split; [lia | reflexivity].
Qed.

Lemma personalized_length (L : SciLib) (embeddings : list (option ndarray)) (u : ndarray)
    (t : float) (labels : list (option string)) :
  cluster_speakers_personalized L embeddings u t = Ok labels ->
  List.length labels = List.length embeddings /\
  Forall (fun l => exists s : string, l = Some s) labels.
Proof.
  intros H. apply personalized_ok in H as (al & oe & oi & ols & Hloop & -> & Hlen & _).
  destruct (label_loop_spec _ _ _ _ _ _ _ _ Hloop) as (Hall & Hoi & _).
  split.
  - rewrite merge_length. symmetry. eapply Forall2_length, Hall.
  - apply merge_filled. rewrite <- Hoi. exact Hlen.
Qed.

(** ** The response of [diarize_audio] *)

Lemma insert_sorted_In (s x : string) (l : list string) :
  In x (insert_sorted s l) <-> x = s \/ In x l.
Proof.
  induction l as [| y r IH]; cbn.
  - intuition.
  - destruct (s <=? y)%string; cbn; [intuition |]. rewrite IH. intuition.
Qed.

Lemma insert_sorted_NoDup (s : string) (l : list string) :
  ~ In s l -> NoDup l -> NoDup (insert_sorted s l).
Proof.
  induction l as [| y r IH]; intros Hs Hl; cbn.
  - constructor; [intros [] | constructor].
  - destruct (s <=? y)%string; [constructor; assumption |].
    inversion Hl; subst. constructor.
    + rewrite insert_sorted_In. intros [-> | Hin]; [apply Hs; left; reflexivity | auto].
    + apply IH; [intros Hin; apply Hs; right; exact Hin | assumption].
Qed.

Lemma insert_sorted_Sorted (s : string) (l : list string) :
  Sorted string_le l -> Sorted string_le (insert_sorted s l).
Proof.
  induction l as [| y r IH]; intros Hl; cbn.
  - repeat constructor.
  - destruct (s <=? y)%string eqn:Hle.
    + constructor; [assumption | constructor; exact Hle].
    + inversion Hl as [| ? ? Hr Hhd]; subst.
      assert (Hys : string_le y s).
      { destruct (String.leb_total s y) as [H | H]; [congruence | exact H]. }
      constructor; [apply IH, Hr |].
      destruct r as [| z r']; cbn; [constructor; exact Hys |].
      destruct (s <=? z)%string; constructor; [exact Hys |].
      inversion Hhd; assumption.
Qed.

(** [sorted(set(labels))] is increasing, without repetition, and holds the
    labels of the list. *)
Lemma sorted_set_spec (labels : list string) :
  Sorted string_le (sorted_set labels) /\
  NoDup (sorted_set labels) /\
  (forall s, In s (sorted_set labels) <-> In s labels).
Proof.
  unfold sorted_set.
  pose proof (NoDup_nodup string_dec labels) as Hnd.
  assert (Hin : forall s, In s (nodup string_dec labels) <-> In s labels)
    by (intros s; apply nodup_In).
  revert Hnd Hin. generalize (nodup string_dec labels) as d.
  intros d Hnd Hin.
  assert (H : Sorted string_le (fold_right insert_sorted [] d) /\
              NoDup (fold_right insert_sorted [] d) /\
              (forall s, In s (fold_right insert_sorted [] d) <-> In s d)).
  { clear Hin. induction Hnd as [| x r Hx Hr IH]; cbn.
    - repeat split; try constructor; intros [].
    - destruct IH as (Hs & Hn & Hi). split; [apply insert_sorted_Sorted, Hs |].
      split.
      + apply insert_sorted_NoDup; [rewrite Hi; exact Hx | exact Hn].
      + intros s. rewrite insert_sorted_In, Hi. intuition. }
  destruct H as (Hs & Hn & Hi). repeat split; try assumption.
  - intros Hs'. apply Hin, Hi, Hs'.
  - intros Hs'. apply Hi, Hin, Hs'.
Qed.

Lemma label_strings_ok (speaker_labels : list (option string)) (labels : list string) :
  label_strings speaker_labels = Returned labels -> speaker_labels = map Some labels.
Proof.
  revert labels; induction speaker_labels as [| [l |] rest IH]; intros labels H;
    cbn [label_strings] in H.
  - inversion H. reflexivity.
  - apply and_then_returned in H as (ls & Hls & H). inversion H. cbn.
    f_equal. apply IH, Hls.
  - discriminate.
Qed.

Lemma label_strings_returns (speaker_labels : list (option string)) :
  Forall (fun l => exists s : string, l = Some s) speaker_labels ->
  exists labels, label_strings speaker_labels = Returned labels.
Proof.
  induction 1 as [| l rest (s & ->) _ (ls & IH)]; cbn [label_strings].
  - eexists; reflexivity.
  - rewrite IH. eexists; reflexivity.
Qed.

(** What the clustering step of [diarize_audio] returns: one string per
    embedding. *)
Lemma diarize_audio_labels_ok (L : SciLib) (embeddings : list (option ndarray))
    (segment_list : list Segment) (user_emb : option ndarray)
    (speaker_labels : list (option string)) :
  diarize_audio_labels L embeddings segment_list user_emb = Ok speaker_labels ->
  List.length speaker_labels = List.length embeddings /\
  Forall (fun l => exists s : string, l = Some s) speaker_labels.
Proof.
  assert (Hplain : forall r,
    (speaker_labels0 <- cluster_speakers L embeddings segment_list ;;
     Ok (map Some speaker_labels0)) = Ok r ->
    List.length r = List.length embeddings /\
    Forall (fun l => exists s : string, l = Some s) r).
  { intros r H. apply bind_ok in H as (ls & Hls & H). injection H as <-.
    rewrite length_map. split; [eapply cluster_speakers_length, Hls |].
    apply Forall_forall. intros l Hl. apply in_map_iff in Hl as (s & <- & _).
    exists s; reflexivity. }
  unfold diarize_audio_labels. destruct user_emb as [u |]; [| apply Hplain].
  destruct (List.length u =? 512); [apply personalized_length | apply Hplain].
Qed.

Section EndpointFacts.

Variable L : SciLib.
Variable convert_to_wav : string -> attempt string.
Variable get_duration : string -> attempt float.
Variable librosa_load : string -> attempt (list float).
Variable json_loads : string -> attempt json.
Variable np_array : json -> attempt array_nd.
Variable int_of_str : string -> attempt Z.
Variable cosine_nd : ndarray -> array_nd -> result np_float.
Variable coerce_float : json -> option float.
Variable coerce_str : json -> option string.
Variable get_speaker_embedding : string -> attempt (option ndarray).
Variable temp_dir : string.
Variable str : exception -> string.

Let diarize := diarize_audio L convert_to_wav get_duration librosa_load json_loads
                 np_array int_of_str cosine_nd coerce_float coerce_str
                 get_speaker_embedding temp_dir str.
Let diarize_try := diarize_audio_try L convert_to_wav get_duration librosa_load
                     json_loads np_array int_of_str cosine_nd coerce_float coerce_str
                     get_speaker_embedding temp_dir.
Let parse := parse_segments get_duration json_loads.
Let reference := parse_user_emb json_loads np_array.
Let split := split_audio_by_segments librosa_load int_of_str temp_dir.
Let init := SpeakerSegment_init coerce_float coerce_str.

Lemma extract_embeddings_length (segment_paths : list (option string)) :
  List.length (extract_embeddings get_speaker_embedding segment_paths) =
  List.length segment_paths.
Proof.
  induction segment_paths as [| [p |] rest IH]; cbn; [reflexivity | |].
  - destruct (get_speaker_embedding p); cbn; rewrite IH; reflexivity.
  - rewrite IH. reflexivity.
Qed.

(** *** The segments of the request *)

Lemma segment_fields_some (seg : Segment) (x y : float) (t : string) :
  segment_fields seg = Some (x, y, t) ->
  py_getitem seg "start" = Returned (JFloat x) /\
  py_getitem seg "end" = Returned (JFloat y) /\
  py_get seg "text" (JString "") = Returned (JString t).
Proof.
  unfold segment_fields.
  destruct (py_getitem seg "start") as [[| | | x' | | |] |]; try discriminate.
  destruct (py_getitem seg "end") as [[| | | y' | | |] |]; try discriminate.
  destruct (py_get seg "text" (JString "")) as [[| | | | t' | |] |]; try discriminate.
  intros H. injection H as -> -> ->. repeat split.
Qed.

Lemma segment_fields_mkSegment (x y : float) (t : string) :
  segment_fields (mkSegment x y t) = Some (x, y, t).
Proof. reflexivity. Qed.

Lemma py_get_getitem (seg : Segment) (key : string) (v default : json) :
  py_getitem seg key = Returned v -> exists w, py_get seg key default = Returned w.
Proof.
  destruct seg; cbn; try discriminate. intros _. eexists; reflexivity.
Qed.

Lemma expected_timed (seg : Segment) : expected_segment seg -> timed seg.
Proof.
  intros (x & y & t & Hf & Hx & Hy).
  apply segment_fields_some in Hf as (Hs & He & _).
  exists (JFloat x), (JFloat y).
  split; [exact Hs | split; [exact He | split; [exact Hx | exact Hy]]].
Qed.

(** The lines 458-460 print the segments of the expected form. *)
Lemma print_segments_expected (shown : list json) :
  Forall expected_segment shown -> print_segments shown = Returned tt.
Proof.
  induction 1 as [| seg rest (x & y & t & Hf & _) _ IH]; [reflexivity |].
  apply segment_fields_some in Hf as (Hs & He & Ht). cbn [print_segments].
  destruct (py_get_getitem seg "start" _ JNull Hs) as (w1 & ->).
  destruct (py_get_getitem seg "end" _ JNull He) as (w2 & ->).
  rewrite Ht. cbn [and_then py_slice_to]. exact IH.
Qed.

Lemma print_received_expected (items : list Segment) :
  Forall expected_segment items -> print_received (JArray items) = Returned tt.
Proof.
  intros H. unfold print_received. cbn [py_len py_slice_to py_iter and_then].
  apply print_segments_expected.
  rewrite <- (firstn_skipn 3 items) in H. apply Forall_app in H. apply H.
Qed.

Lemma parse_segments_expected (audio_file : string) (segments : option string)
    (items : list Segment) :
  segment_list_is get_duration json_loads audio_file segments items ->
  Forall expected_segment items ->
  parse audio_file segments = Returned (JArray items).
Proof.
  unfold parse, parse_segments.
  intros [(s & -> & Ht & Hs) | (Hf & duration & Hd & ->)] Hexp.
  - rewrite Ht, Hs. cbn [and_then]. rewrite print_received_expected by assumption.
    reflexivity.
  - destruct segments as [s |]; [rewrite Hf |]; rewrite Hd; reflexivity.
Qed.

(** *** The clustering step *)

Lemma scalars_length (rows : list array_nd) (v : ndarray) :
  scalars rows = Some v -> List.length v = List.length rows.
Proof.
  revert v; induction rows as [| [x | r] rest IH]; intros v H; cbn in H.
  - injection H as <-. reflexivity.
  - destruct (scalars rest) as [w |]; [| discriminate]. injection H as <-.
    cbn. f_equal. apply IH. reflexivity.
  - discriminate.
Qed.

(** For a reference of one dimension the step is the choice
    [diarize_audio_labels]. *)
Lemma cluster_step_1d (embeddings : list (option ndarray)) (segment_list : json)
    (rows : list array_nd) (user_embedding : ndarray) :
  scalars rows = Some user_embedding ->
  cluster_step L cosine_nd embeddings segment_list (Some (Rows rows)) =
  of_result (diarize_audio_labels L embeddings (segments_of segment_list)
               (Some user_embedding)).
Proof.
  intros H. unfold cluster_step, diarize_audio_labels, cluster_with_reference.
  cbn [np_len and_then as_1d]. rewrite H, (scalars_length _ _ H).
  destruct (List.length rows =? 512); reflexivity.
Qed.

Lemma cluster_step_none (embeddings : list (option ndarray)) (segment_list : json) :
  cluster_step L cosine_nd embeddings segment_list None =
  of_result (diarize_audio_labels L embeddings (segments_of segment_list) None).
Proof. reflexivity. Qed.

(** A reference whose length is not 512 is not used. *)
Lemma cluster_step_other_length (embeddings : list (option ndarray))
    (segment_list : json) (rows : list array_nd) :
  List.length rows <> 512 ->
  cluster_step L cosine_nd embeddings segment_list (Some (Rows rows)) =
  cluster_step L cosine_nd embeddings segment_list None.
Proof.
  intros H. unfold cluster_step. cbn [np_len and_then].
  rewrite (proj2 (Nat.eqb_neq _ _) H). reflexivity.
Qed.

(** A reference without dimension stops the request. *)
Lemma cluster_step_scalar (embeddings : list (option ndarray)) (segment_list : json)
    (x : float) :
  cluster_step L cosine_nd embeddings segment_list (Some (Scalar x)) = Raised TypeError.
Proof. reflexivity. Qed.

Lemma of_result_returned {A : Type} (r : result A) (a : A) :
  of_result r = Returned a -> r = Ok a.
Proof. destruct r; cbn; intros H; [injection H as -> | discriminate]; reflexivity. Qed.

(** What the clustering step returns: one string per embedding. *)
Lemma cluster_step_ok (embeddings : list (option ndarray)) (segment_list : json)
    (user_emb : option array_nd) (speaker_labels : list (option string)) :
  cluster_step L cosine_nd embeddings segment_list user_emb = Returned speaker_labels ->
  List.length speaker_labels = List.length embeddings /\
  Forall (fun l => exists s : string, l = Some s) speaker_labels.
Proof.
  assert (Hplain : forall r,
    of_result (speaker_labels0 <-
                 cluster_speakers L embeddings (segments_of segment_list) ;;
               Ok (map Some speaker_labels0)) = Returned r ->
    List.length r = List.length embeddings /\
    Forall (fun l => exists s : string, l = Some s) r).
  { intros r H. apply of_result_returned in H.
    apply bind_ok in H as (ls & Hls & H). injection H as <-.
    rewrite length_map. split; [eapply cluster_speakers_length, Hls |].
    apply Forall_forall. intros l Hl. apply in_map_iff in Hl as (s & <- & _).
    exists s; reflexivity. }
  unfold cluster_step. destruct user_emb as [[x | rows] |]; cbn [np_len and_then];
    [discriminate | | apply Hplain].
  destruct (List.length rows =? 512); [| apply Hplain].
  unfold cluster_with_reference. intros H. apply of_result_returned in H.
  destruct (as_1d (Rows rows)); eapply personalized_length, H.
Qed.

(** *** The response *)

Lemma Forall2_combine_l {A B C : Type} (P : A -> B -> C -> Prop) (l : list A) :
  forall (labels : list B) (rs : list C),
  List.length labels = List.length l ->
  Forall2 (fun p r => P (fst p) (snd p) r) (combine l labels) rs ->
  Forall2 (fun a r => exists b, P a b r) l rs.
Proof.
  induction l as [| a rest IH]; intros [| b bs] rs Hlen Hall; cbn in Hlen; try lia;
    cbn [combine] in Hall; inversion Hall as [| p r ps rs' Hp Hrest]; subst;
    constructor.
  - exists b. exact Hp.
  - eapply IH; [| exact Hrest]. lia.
Qed.

Lemma Forall2_impl {A B : Type} (P Q : A -> B -> Prop) (l : list A) (l' : list B) :
  (forall a b, P a b -> Q a b) -> Forall2 P l l' -> Forall2 Q l l'.
Proof. intros H. induction 1; constructor; auto. Qed.

Lemma SpeakerSegment_init_returned (a b : json) (speaker : string) (t : json)
    (r : SpeakerSegment) :
  init a b speaker t = Returned r ->
  validate_float coerce_float a = Some (ss_start r) /\
  validate_float coerce_float b = Some (ss_end r) /\
  validate_str coerce_str t = Some (ss_text r) /\
  ss_speaker r = speaker.
Proof.
  unfold init, SpeakerSegment_init.
  destruct (validate_float coerce_float a) as [x |],
           (validate_float coerce_float b) as [y |],
           (validate_str coerce_str t) as [s |]; try discriminate.
  intros H. injection H as <-. repeat split.
Qed.

Lemma response_segments_spec (items : list Segment) :
  forall (labels : list string) (rs : list SpeakerSegment),
  List.length labels = List.length items ->
  response_segments coerce_float coerce_str (combine items labels) = Returned rs ->
  Forall2 (fun p r => entry_of coerce_float coerce_str (fst p) (snd p) r) (combine items labels) rs /\
  List.length rs = List.length items /\
  map ss_speaker rs = labels.
Proof.
  induction items as [| seg rest IH]; intros [| l ls] rs Hlen H; cbn in Hlen; try lia.
  - cbn in H. injection H as <-. repeat split. constructor.
  - cbn [combine response_segments] in H.
    apply and_then_returned in H as (a & Ha & H).
    apply and_then_returned in H as (b & Hb & H).
    apply and_then_returned in H as (t & Ht & H).
    apply and_then_returned in H as (r & Hr & H).
    apply and_then_returned in H as (rs' & Hrs & H). injection H as <-.
    apply SpeakerSegment_init_returned in Hr as (Hx & Hy & Hs & Hsp).
    destruct (IH ls rs' ltac:(lia) Hrs) as (Hall & Hl & Hm).
    cbn [combine List.length map]. repeat split; [| lia | f_equal; assumption].
    constructor; [| exact Hall].
    exists a, b, t. cbn [fst snd]. repeat split; assumption.
Qed.

(** A segment of the expected form goes to the response unchanged. *)
Lemma entry_of_expected (seg : Segment) (speaker : string) (r : SpeakerSegment)
    (x y : float) (t : string) :
  entry_of coerce_float coerce_str seg speaker r -> segment_fields seg = Some (x, y, t) ->
  r = mkSpeakerSegment x y speaker t.
Proof.
  intros (a & b & t' & Ha & Hb & Ht & Hx & Hy & Hs & Hsp) Hf.
  apply segment_fields_some in Hf as (Ha' & Hb' & Ht').
  rewrite Ha in Ha'. injection Ha' as ->. rewrite Hb in Hb'. injection Hb' as ->.
  rewrite Ht in Ht'. injection Ht' as ->.
  cbn in Hx, Hy, Hs. injection Hx as Hx. injection Hy as Hy. injection Hs as Hs.
  destruct r. cbn in *. subst. reflexivity.
Qed.

Lemma response_segments_expected (items : list Segment) :
  forall labels : list string,
  List.length labels = List.length items ->
  Forall expected_segment items ->
  exists rs, response_segments coerce_float coerce_str (combine items labels) =
             Returned rs.
Proof.
  induction items as [| seg rest IH]; intros [| l ls] Hlen Hexp; cbn in Hlen; try lia.
  - eexists; reflexivity.
  - inversion Hexp as [| ? ? (x & y & t & Hf & _) Hrest]; subst.
    apply segment_fields_some in Hf as (Ha & Hb & Ht).
    destruct (IH ls ltac:(lia) Hrest) as (rs & Hrs).
    cbn [combine response_segments]. rewrite Ha, Hb, Ht. cbn [and_then].
    unfold SpeakerSegment_init. cbn [validate_float validate_str and_then].
    rewrite Hrs. eexists; reflexivity.
Qed.

(** The steps behind a response of [diarize_audio]. *)
Lemma diarize_audio_response (temp_audio : string) (segments user_embedding : option string)
    (response : DiarizationResponse) :
  diarize temp_audio segments user_embedding = Response response ->
  exists wav_path segment_list items segment_paths files labels,
    convert_to_wav temp_audio = Returned wav_path /\
    parse wav_path segments = Returned segment_list /\
    py_iter segment_list = Returned items /\
    split wav_path segment_list = Returned (segment_paths, temp_dir, files) /\
    cluster_step L cosine_nd (extract_embeddings get_speaker_embedding segment_paths)
      segment_list (reference user_embedding) = Returned (map Some labels) /\
    List.length labels = List.length items /\
    response_segments coerce_float coerce_str (combine items labels) =
      Returned (dr_segments response) /\
    dr_speakers response = sorted_set labels /\
    dr_num_speakers response = List.length (sorted_set labels).
Proof.
  unfold diarize, diarize_audio.
  destruct (diarize_audio_try _ _ _ _ _ _ _ _ _ _ _ _ _ _ _) as [r | e] eqn:H;
    [| discriminate].
  intros Hr. injection Hr as ->. unfold diarize_audio_try in H.
  apply and_then_returned in H as (wav & Hwav & H).
  apply and_then_returned in H as (segs & Hsegs & H).
  apply and_then_returned in H as ([[paths dir] files] & Hsplit & H).
  apply and_then_returned in H as (spl & Hlab & H). cbn [fst] in Hlab.
  unfold build_response in H.
  apply and_then_returned in H as (labels & Hstr & H).
  apply and_then_returned in H as (items & Hitems & H).
  apply and_then_returned in H as (rs & Hrs & H). injection H as <-.
  apply label_strings_ok in Hstr. subst spl.
  pose proof (cluster_step_ok _ _ _ _ Hlab) as (Hlen & _).
  rewrite length_map, extract_embeddings_length in Hlen.
  pose proof Hsplit as Hsplit'.
  apply split_audio_returned in Hsplit' as (audio & items' & _ & Hitems' & Hloop & ->).
  rewrite Hitems in Hitems'. injection Hitems' as <-.
  destruct (split_loop_spec _ _ _ _ _ _ _ Hloop) as (Hplen & _).
  exists wav, segs, items, paths, files, labels. cbn [dr_segments dr_speakers dr_num_speakers].
  split; [exact Hwav |]. split; [exact Hsegs |]. split; [exact Hitems |].
  split; [exact Hsplit |]. split; [exact Hlab |].
  split; [exact (eq_trans Hlen Hplen) |].
  split; [exact Hrs |]. split; reflexivity.
Qed.

(** X6. A response of [diarize_audio] has exactly one entry per segment of
    the request, in the request's order, made of the segment's own start,
    end and text as the response model validates them; a segment of the
    expected form (two floats and a text that is a string or absent) is
    found in the response with its own start, end and text. *)
Theorem diarize_audio_segments_preserved (temp_audio : string)
    (segments user_embedding : option string) (response : DiarizationResponse) :
  diarize temp_audio segments user_embedding = Response response ->
  exists wav_path segment_list items,
    convert_to_wav temp_audio = Returned wav_path /\
    parse wav_path segments = Returned segment_list /\
    py_iter segment_list = Returned items /\
    Forall2 (fun seg r => exists speaker, entry_of coerce_float coerce_str seg speaker r)
            items (dr_segments response) /\
    Forall2 (fun seg r =>
               forall x y t, segment_fields seg = Some (x, y, t) ->
                             (ss_start r, ss_end r, ss_text r) = (x, y, t))
            items (dr_segments response).
Proof.
  intros H. apply diarize_audio_response in H
    as (wav & segs & items & paths & files & labels & Hwav & Hsegs & Hitems & _ & _ &
        Hlen & Hrs & _).
  exists wav, segs, items. repeat split; try assumption.
  - destruct (response_segments_spec items labels _ Hlen Hrs) as (Hall & _).
    exact (Forall2_combine_l _ _ _ _ Hlen Hall).
  - destruct (response_segments_spec items labels _ Hlen Hrs) as (Hall & _).
    eapply Forall2_impl; [| exact (Forall2_combine_l _ _ _ _ Hlen Hall)].
    intros seg r (speaker & Hent) x y t Hf.
    rewrite (entry_of_expected _ _ _ _ _ _ Hent Hf). reflexivity.
Qed.

(** X7. In a response of [diarize_audio] the list of speakers is increasing
    and without repetition, it holds exactly the speakers named by the
    segments of the response, and [num_speakers] is its length. *)
Theorem diarize_audio_speakers (temp_audio : string)
    (segments user_embedding : option string) (response : DiarizationResponse) :
  diarize temp_audio segments user_embedding = Response response ->
  Sorted string_le (dr_speakers response) /\
  NoDup (dr_speakers response) /\
  (forall s, In s (dr_speakers response) <->
             In s (map ss_speaker (dr_segments response))) /\
  dr_num_speakers response = List.length (dr_speakers response).
Proof.
  intros H. apply diarize_audio_response in H
    as (wav & segs & items & paths & files & labels & _ & _ & _ & _ & _ &
        Hlen & Hrs & Hsp & Hnum).
  destruct (response_segments_spec items labels _ Hlen Hrs) as (_ & _ & Hmap).
  rewrite Hsp, Hnum, Hmap.
  destruct (sorted_set_spec labels) as (Hs & Hn & Hi).
  repeat split; try assumption; apply Hi.
Qed.

(** X8. A user embedding that cannot be parsed, or that parses to an array
    whose length is not 512, is ignored: the answer of [diarize_audio] is
    the answer to the same request without user embedding.  A user embedding
    that parses to an array without dimension (a number, or [null]) is not
    ignored: its length is asked for, and the request is answered with the
    status 500, for the [TypeError] of line 502 when the steps before
    succeed. *)
Theorem diarize_audio_ignores_unusable_embedding (temp_audio : string)
    (segments user_embedding : option string) :
  (reference user_embedding = None \/
   (exists rows, reference user_embedding = Some (Rows rows) /\
                 List.length rows <> 512) ->
   diarize temp_audio segments user_embedding = diarize temp_audio segments None) /\
  (forall x, reference user_embedding = Some (Scalar x) ->
     exists e,
       diarize temp_audio segments user_embedding =
         HTTPException 500 ("Diarization failed: " ++ str e) /\
       (forall wav_path segment_list r,
          convert_to_wav temp_audio = Returned wav_path ->
          parse wav_path segments = Returned segment_list ->
          split wav_path segment_list = Returned r ->
          e = TypeError)).
Proof.
  split.
  - intros H. unfold diarize, diarize_audio, diarize_audio_try.
    replace (parse_user_emb json_loads np_array None) with (@None array_nd)
      by reflexivity.
    unfold reference in H. destruct H as [-> | (rows & -> & Hrows)]; [reflexivity |].
    destruct (convert_to_wav temp_audio) as [wav |]; cbn [and_then]; [| reflexivity].
    destruct (parse_segments _ _ _ _) as [segs |]; cbn [and_then]; [| reflexivity].
    destruct (split_audio_by_segments _ _ _ _ _) as [sp |]; cbn [and_then];
      [| reflexivity].
    rewrite cluster_step_other_length by assumption. reflexivity.
  - intros x Hx. unfold diarize, diarize_audio, diarize_audio_try, parse, split.
    unfold reference in Hx. rewrite Hx.
    destruct (convert_to_wav temp_audio) as [wav | e1]; cbn [and_then];
      [| exists e1; split; [reflexivity | intros ? ? ? H; discriminate]].
    destruct (parse_segments _ _ _ _) as [segs | e2] eqn:Hp; cbn [and_then];
      [| exists e2; split; [reflexivity |];
         intros ? ? ? H1 H2; injection H1 as <-; rewrite Hp in H2; discriminate].
    destruct (split_audio_by_segments _ _ _ _ _) as [sp | e3] eqn:Hs; cbn [and_then];
      [| exists e3; split; [reflexivity |];
         intros ? ? ? H1 H2 H3; injection H1 as <-; rewrite Hp in H2;
         injection H2 as <-; rewrite Hs in H3; discriminate].
    rewrite cluster_step_scalar. cbn [and_then].
    exists TypeError. split; [reflexivity | intros; reflexivity].
Qed.

(** X9. Without a [segments] field (absent or empty) the whole audio is one
    segment: a response has exactly one entry, from 0 to the duration of the
    audio, with an empty text. *)
Theorem diarize_audio_without_segments (temp_audio : string)
    (segments user_embedding : option string) (response : DiarizationResponse) :
  truthy segments = false ->
  diarize temp_audio segments user_embedding = Response response ->
  exists wav_path duration speaker,
    convert_to_wav temp_audio = Returned wav_path /\
    get_duration wav_path = Returned duration /\
    dr_segments response = [mkSpeakerSegment 0 duration speaker EmptyString] /\
    dr_speakers response = [speaker] /\
    dr_num_speakers response = 1.
Proof.
  intros Hfalse H. apply diarize_audio_response in H
    as (wav & segs & items & paths & files & labels & Hwav & Hsegs & Hitems & _ & _ &
        Hlen & Hrs & Hsp & Hnum).
  assert (Hdur : exists duration, get_duration wav = Returned duration /\
                                  segs = JArray [mkSegment 0 duration EmptyString]).
  { unfold parse, parse_segments in Hsegs. destruct segments as [s |];
      [rewrite Hfalse in Hsegs |];
      apply and_then_returned in Hsegs as (duration & Hd & Hsegs);
      injection Hsegs as <-; exists duration; auto. }
  destruct Hdur as (duration & Hd & ->).
  cbn [py_iter] in Hitems. injection Hitems as <-.
  destruct labels as [| speaker [| l ls]]; cbn in Hlen; try lia.
  cbn in Hrs. injection Hrs as Hrs.
  exists wav, duration, speaker. rewrite Hsp, Hnum, <- Hrs. repeat split; assumption.
Qed.

Lemma nodup_repeat (x : string) (n : nat) :
  nodup string_dec (repeat x (S n)) = [x].
Proof.
  induction n as [| n IH]; [reflexivity |].
  change (repeat x (S (S n))) with (x :: repeat x (S n)). cbn [nodup].
  destruct (in_dec string_dec x (repeat x (S n))) as [_ | Hn]; [exact IH |].
  exfalso. apply Hn. left. reflexivity.
Qed.

Lemma extract_embeddings_none (n : nat) :
  extract_embeddings get_speaker_embedding (repeat None n) = repeat None n.
Proof. induction n as [| n IH]; cbn; [reflexivity | rewrite IH; reflexivity]. Qed.

Lemma somes_repeat_none (n : nat) : somes (repeat (@None ndarray) n) = [].
Proof. induction n as [| n IH]; cbn; [reflexivity | exact IH]. Qed.

Lemma label_strings_repeat (speaker : string) (n : nat) :
  label_strings (map Some (repeat speaker n)) = Returned (repeat speaker n).
Proof. induction n as [| n IH]; cbn; [reflexivity | rewrite IH; reflexivity]. Qed.

(** The entries of the response for segments of the expected form. *)
Lemma response_segments_entries (items : list Segment) (labels : list string)
    (rs : list SpeakerSegment) (speaker : string) :
  labels = repeat speaker (List.length items) ->
  response_segments coerce_float coerce_str (combine items labels) = Returned rs ->
  Forall2 (fun seg r =>
             forall x y t, segment_fields seg = Some (x, y, t) ->
                           r = mkSpeakerSegment x y speaker t) items rs.
Proof.
  intros -> Hrs.
  destruct (response_segments_spec items _ rs (repeat_length _ _) Hrs) as (Hall & _).
  clear Hrs. revert rs Hall. induction items as [| seg rest IH]; intros rs Hall;
    cbn [List.length repeat combine] in Hall;
    inversion Hall as [| p r ps rs' Hp Hrest]; subst; constructor.
  - intros x y t Hf. cbn [fst snd] in Hp. eapply entry_of_expected; eassumption.
  - apply IH. exact Hrest.
Qed.

(** X10. An audio of fewer than 6615 samples (0.3 s) gives no segment file
    and no embedding, so every segment of the request carries the one
    degenerate label: ["YOU"] when the user embedding is an array of length
    512, ["speaker_0"] otherwise.  The request is one whose segments are of
    the expected form (dictionaries with two floats for timestamps and a
    text that is a string or absent) with timestamps that give sample
    positions (times the sample rate they are neither NaN nor infinite),
    and whose user embedding, if any, does not parse to an array without
    dimension. *)
Theorem diarize_audio_short_audio (temp_audio : string)
    (segments user_embedding : option string) (wav_path : string)
    (items : list Segment) (audio : list float) :
  convert_to_wav temp_audio = Returned wav_path ->
  segment_list_is get_duration json_loads wav_path segments items ->
  Forall expected_segment items ->
  librosa_load wav_path = Returned audio ->
  (Z.of_nat (List.length audio) < 6615)%Z ->
  (forall x, reference user_embedding <> Some (Scalar x)) ->
  let speaker :=
    match reference user_embedding with
    | Some (Rows rows) =>
        if List.length rows =? 512 then "YOU"%string else "speaker_0"%string
    | _ => "speaker_0"%string
    end in
  exists response,
    diarize temp_audio segments user_embedding = Response response /\
    Forall2 (fun seg r =>
               exists x y t, segment_fields seg = Some (x, y, t) /\
                             r = mkSpeakerSegment x y speaker t)
            items (dr_segments response) /\
    dr_speakers response = match items with [] => [] | _ => [speaker] end.
Proof.
  intros Hwav Hlist Hexp Haudio Hshort Hsized speaker.
  pose proof (parse_segments_expected _ _ _ Hlist Hexp) as Hsegs.
  assert (Hfin : Forall timed items)
    by (eapply Forall_impl; [| exact Hexp]; exact expected_timed).
  destruct (split_loop_returns int_of_str temp_dir audio items
              (timed_positions int_of_str items Hfin) 0) as ([paths files] & Hloop).
  assert (Hnone : paths = repeat None (List.length items)).
  { destruct (split_loop_spec _ _ _ _ _ _ _ Hloop) as (Hlen & _).
    rewrite <- Hlen. clear Hlen.
    assert (Hall : forall k p, nth_error paths k = Some p -> p = None).
    { intros k p Hk.
      destruct (nth_error items k) as [seg |] eqn:Hseg.
      - destruct (split_loop_nth _ _ _ _ _ _ _ _ _ Hloop Hseg) as (a & b & _ & _ & Hn).
        rewrite Hn in Hk. injection Hk as <-.
        pose proof (py_slice_length_le audio a b).
        rewrite (proj2 (Z.ltb_lt _ _)) by lia. reflexivity.
      - apply nth_error_None in Hseg.
        destruct (split_loop_spec _ _ _ _ _ _ _ Hloop) as (Hlen & _).
        assert (k < List.length paths) by (apply nth_error_Some; congruence). lia. }
    clear - Hall. induction paths as [| p rest IH]; [reflexivity |].
    cbn. rewrite (Hall 0 p eq_refl). f_equal. apply IH.
    intros k q Hk. apply (Hall (S k) q Hk). }
  subst paths.
  pose proof (extract_embeddings_none (List.length items)) as Hemb.
  pose proof (somes_repeat_none (List.length items)) as Hsomes.
  set (n := List.length items) in *.
  assert (Hlabels : cluster_step L cosine_nd (repeat None n) (JArray items)
                      (reference user_embedding) =
                    Returned (map Some (repeat speaker n))).
  { unfold cluster_step, speaker.
    destruct (reference user_embedding) as [[x | rows] |] eqn:Hu;
      cbn [np_len and_then].
    - exfalso. exact (Hsized x eq_refl).
    - destruct (List.length rows =? 512).
      + unfold cluster_with_reference.
        destruct (as_1d (Rows rows)); rewrite personalized_no_valid by exact Hsomes;
          rewrite repeat_length, map_repeat; reflexivity.
      + rewrite cluster_speakers_no_valid by exact Hsomes. cbn [bind of_result].
        rewrite repeat_length. reflexivity.
    - rewrite cluster_speakers_no_valid by exact Hsomes. cbn [bind of_result].
      rewrite repeat_length. reflexivity. }
  pose proof (label_strings_repeat speaker n) as Hstr.
  destruct (response_segments_expected items (repeat speaker n)
              (repeat_length _ _) Hexp) as (rs & Hrs).
  exists (mkDiarizationResponse (sorted_set (repeat speaker n)) rs
            (List.length (sorted_set (repeat speaker n)))).
  split; [| split].
  - unfold diarize, diarize_audio, diarize_audio_try, split_audio_by_segments.
    rewrite Hwav; cbn [and_then]. fold parse. rewrite Hsegs; cbn [and_then py_iter].
    rewrite Haudio; cbn [and_then]. rewrite Hloop; cbn [and_then fst snd].
    rewrite Hemb. fold reference. rewrite Hlabels. cbn [and_then].
    unfold build_response.
    rewrite Hstr. cbn [and_then py_iter]. rewrite Hrs. reflexivity.
  - cbn [dr_segments].
    pose proof (response_segments_entries items _ rs speaker eq_refl Hrs) as Hent.
    clear - Hent Hexp. induction Hent as [| seg r rest rs' Hr _ IH];
      inversion Hexp as [| ? ? (x & y & t & Hf & _) Hrest]; subst; constructor.
    + exists x, y, t. split; [exact Hf | apply Hr, Hf].
    + apply IH, Hrest.
  - cbn [dr_speakers]. unfold n, sorted_set. clear.
    destruct items as [| seg rest]; [reflexivity |].
    cbn [List.length]. rewrite nodup_repeat. reflexivity.
Qed.

Lemma extract_embeddings_wf (d : nat) (segment_paths : list (option string)) :
  (forall p v, get_speaker_embedding p = Returned (Some v) ->
               List.length v = d /\ finite_vec v) ->
  wf_embeddings d (extract_embeddings get_speaker_embedding segment_paths).
Proof.
  intros Hprov. induction segment_paths as [| [p |] rest IH]; cbn.
  - constructor.
  - destruct (get_speaker_embedding p) as [[v |] | e] eqn:Hp; constructor;
      try exact IH; try exact I.
    apply (Hprov p v Hp).
  - constructor; [exact I | exact IH].
Qed.

(** X11. [diarize_audio] answers with a response, not with an error, as soon
    as the audio converts and loads; the segments of the request are of the
    expected form (dictionaries with two floats for timestamps and a text
    that is a string or absent) with timestamps that give sample positions;
    the embeddings extracted are finite vectors of 512 components; the user
    embedding, if it parses, is an array with a length and, when that length
    is 512, of one dimension; and the routines behave as documented. *)
Theorem diarize_audio_succeeds (temp_audio : string)
    (segments user_embedding : option string) (wav_path : string)
    (items : list Segment) (audio : list float) :
  SciLibSpec L ->
  convert_to_wav temp_audio = Returned wav_path ->
  segment_list_is get_duration json_loads wav_path segments items ->
  Forall expected_segment items ->
  librosa_load wav_path = Returned audio ->
  (forall p v, get_speaker_embedding p = Returned (Some v) ->
               List.length v = 512 /\ finite_vec v) ->
  usable_reference (reference user_embedding) ->
  exists response,
    diarize temp_audio segments user_embedding = Response response /\
    List.length (dr_segments response) = List.length items.
Proof.
  intros HL Hwav Hlist Hexp Haudio Hprov Husable.
  pose proof (parse_segments_expected _ _ _ Hlist Hexp) as Hsegs.
  assert (Hfin : Forall timed items)
    by (eapply Forall_impl; [| exact Hexp]; exact expected_timed).
  destruct (split_loop_returns int_of_str temp_dir audio items
              (timed_positions int_of_str items Hfin) 0) as ([paths files] & Hloop).
  destruct (split_loop_spec _ _ _ _ _ _ _ Hloop) as (Hplen & _).
  pose proof (extract_embeddings_wf 512 paths Hprov) as Hwf.
  set (embeddings := extract_embeddings get_speaker_embedding paths) in *.
  assert (Hd : 0 < 512) by (apply Nat.lt_0_succ).
  assert (Hrun : exists ls,
            cluster_step L cosine_nd embeddings (JArray items)
              (reference user_embedding) = Returned ls).
  { assert (Hplain : exists ls,
              of_result (speaker_labels <-
                           cluster_speakers L embeddings (segments_of (JArray items)) ;;
                         Ok (map Some speaker_labels)) = Returned ls).
    { destruct (cluster_speakers_returns L 512 embeddings (segments_of (JArray items))
                  HL Hd Hwf) as (ids & fallback & -> & _). eexists; reflexivity. }
    unfold cluster_step.
    destruct (reference user_embedding) as [[x | rows] |]; cbn [np_len and_then];
      [contradiction | | exact Hplain].
    destruct (List.length rows =? 512) eqn:Hu; [| exact Hplain].
    apply Nat.eqb_eq in Hu. destruct (Husable Hu) as (u & Hrows).
    unfold cluster_with_reference. cbn [as_1d]. rewrite Hrows.
    assert (Hlen : List.length u = 512) by (rewrite (scalars_length _ _ Hrows); exact Hu).
    destruct (personalized_returns L 512 embeddings u default_similarity_threshold
                HL Hd Hwf Hlen) as (al & oe & oi & ols & _ & -> & _).
    eexists; reflexivity. }
  destruct Hrun as (ls & Hrun).
  destruct (cluster_step_ok _ _ _ _ Hrun) as (Hlen & Hsome).
  destruct (label_strings_returns ls Hsome) as (labels & Hstr).
  pose proof (label_strings_ok _ _ Hstr) as Hls.
  assert (Hll : List.length labels = List.length items).
  { unfold embeddings in Hlen. rewrite extract_embeddings_length in Hlen.
    rewrite Hls, length_map in Hlen. lia. }
  destruct (response_segments_expected items labels Hll Hexp) as (rs & Hrs).
  exists (mkDiarizationResponse (sorted_set labels) rs (List.length (sorted_set labels))).
  split.
  - unfold diarize, diarize_audio, diarize_audio_try, split_audio_by_segments.
    rewrite Hwav; cbn [and_then]. fold parse. rewrite Hsegs; cbn [and_then py_iter].
    rewrite Haudio; cbn [and_then]. rewrite Hloop; cbn [and_then fst snd].
    fold embeddings. fold reference. rewrite Hrun. cbn [and_then].
    unfold build_response.
    rewrite Hstr. cbn [and_then py_iter]. rewrite Hrs. reflexivity.
  - cbn [dr_segments].
    destruct (response_segments_spec items labels rs Hll Hrs) as (_ & Hl & _).
    exact Hl.
Qed.

(** X25. A segment that cannot be printed stops the request: when the first
    segment received is a dictionary whose text cannot be sliced ([null], a
    number, a boolean or a dictionary), the exception of line 460 is
    answered with the status 500, whatever the rest of the request. *)
Theorem diarize_audio_unprintable_segment (temp_audio s wav_path : string)
    (members : list (string * json)) (rest : list Segment) (text : json)
    (e : exception) (user_embedding : option string) :
  convert_to_wav temp_audio = Returned wav_path ->
  s <> EmptyString ->
  json_loads s = Returned (JArray (JObject members :: rest)) ->
  dict_lookup members "text" = Some text ->
  py_slice_to 50 text = Raised e ->
  diarize temp_audio (Some s) user_embedding =
    HTTPException 500 ("Diarization failed: " ++ str e).
Proof.
  intros Hwav Hs Hloads Htext Hslice.
  unfold diarize, diarize_audio, diarize_audio_try, parse_segments.
  rewrite Hwav; cbn [and_then].
  replace (truthy (Some s)) with true by (destruct s; [contradiction | reflexivity]).
  rewrite Hloads; cbn [and_then].
  unfold print_received.
  cbn [py_len py_slice_to firstn py_iter and_then print_segments py_get].
  rewrite Htext. cbn [and_then]. rewrite Hslice. reflexivity.
Qed.

Let enroll := enroll_voice convert_to_wav get_speaker_embedding str.

(** X12. [enroll_voice] never answers with the status 400: the exception of
    status 400 it raises when no embedding can be extracted is caught by its
    own handler and answered with the status 500, like every other failure;
    an embedding is answered unchanged. *)
Theorem enroll_voice_statuses (temp_audio : string) :
  (forall status_code detail,
     enroll temp_audio = HTTPException status_code detail -> status_code = 500) /\
  (forall wav_path,
     convert_to_wav temp_audio = Returned wav_path ->
     get_speaker_embedding wav_path = Returned None ->
     enroll temp_audio =
       HTTPException 500
         ("Voice enrollment failed: " ++
          str (HTTPError 400
                 "Failed to extract voice embedding. Audio may be too short or invalid."))) /\
  (forall wav_path embedding,
     convert_to_wav temp_audio = Returned wav_path ->
     get_speaker_embedding wav_path = Returned (Some embedding) ->
     enroll temp_audio = Response embedding).
Proof.
  unfold enroll, enroll_voice, enroll_voice_try. split; [| split].
  - intros c d H.
    destruct (and_then _ _) in H; [discriminate | injection H as <- _; reflexivity].
  - intros wav Hwav Hemb. rewrite Hwav; cbn [and_then]. rewrite Hemb; reflexivity.
  - intros wav e Hwav Hemb. rewrite Hwav; cbn [and_then]. rewrite Hemb; reflexivity.
Qed.

End EndpointFacts.

(** ** Properties of the model cache *)

Section ModelCacheFacts.

Variables Model Device Config : Type.
Variable COQUI_MODEL_PATH : option string.
Variable path_exists : string -> bool.
Variable path_str : string -> string.
Variable path_div : string -> string -> string.
Variable download_model : attempt string.
Variable cuda_is_available : bool.
Variable torch_device : string -> Device.
Variable load_config : string -> attempt Config.
Variable setup_tts_model : Config -> attempt Model.
Variable load_checkpoint : Model -> Config -> string -> attempt Model.
Variable model_to : Model -> Device -> attempt Model.

Let load := load_model Model Device Config COQUI_MODEL_PATH path_exists path_str path_div
              download_model cuda_is_available torch_device load_config setup_tts_model
              load_checkpoint model_to.
Let resolve := resolve_model_path Model Device COQUI_MODEL_PATH path_exists path_str
                 path_div download_model.

Lemma load_model_cached (g : Globals Model Device) (m : Model) :
  model g = Some m -> load g = (Returned (m, device g), g).
Proof. intros H. unfold load, load_model. rewrite H. reflexivity. Qed.

Lemma resolve_model_path_globals (g g1 : Globals Model Device)
    (r : attempt (string * string)) :
  resolve g = (r, g1) ->
  model g1 = model g /\ device g1 = device g /\
  torch_load_patched g1 = torch_load_patched g /\
  (g1 = g \/ calls g1 = DownloadModel :: calls g).
Proof.
  unfold resolve, resolve_model_path. intros H.
  destruct COQUI_MODEL_PATH as [p |];
    [destruct (truthy (Some p) && path_exists p) |];
    injection H as <- <-; cbn; auto.
Qed.

(** X13. The model is loaded once: after a call of [load_model] that
    returns, the globals hold the model and the device it returned, and a
    further call returns the same pair without any call to the outside (the
    globals, with their record of calls, are unchanged). *)
Theorem load_model_once (g g1 : Globals Model Device) (m : Model) (d : option Device) :
  load g = (Returned (m, d), g1) ->
  model g1 = Some m /\ device g1 = d /\ load g1 = (Returned (m, d), g1).
Proof.
  intros H.
  assert (Hg1 : model g1 = Some m /\ device g1 = d).
  { unfold load, load_model in H.
    destruct (model g) as [m0 |] eqn:Hm.
    - injection H as <- <- <-. auto.
    - destruct (resolve_model_path _ _ _ _ _ _ _ g) as [[[p c] | e] g'];
        [| discriminate].
      destruct (load_config _); [| discriminate].
      destruct (setup_tts_model _); [| discriminate].
      destruct (load_checkpoint _ _ _); [| discriminate].
      destruct (model_to _ _); [| discriminate].
      injection H as <- <- <-. cbn. auto. }
  destruct Hg1 as (Hm & Hd). repeat split; try assumption.
  rewrite (load_model_cached g1 m Hm), Hd. reflexivity.
Qed.

(** X14. [load_model] leaves [torch.load] as it found it, whether it returns
    or raises: the patch made for [load_checkpoint] is always undone. *)
Theorem load_model_restores_torch_load (g : Globals Model Device) :
  torch_load_patched (snd (load g)) = torch_load_patched g.
Proof.
  unfold load, load_model.
  destruct (model g); [reflexivity |].
  destruct (resolve_model_path _ _ _ _ _ _ _ g) as [r g'] eqn:Hr.
  apply resolve_model_path_globals in Hr as (_ & _ & Ht & _).
  destruct r as [[p c] | e]; [| exact Ht].
  destruct (load_config _); [| exact Ht].
  destruct (setup_tts_model _); [| exact Ht].
  destruct (load_checkpoint _ _ _); [| exact Ht].
  destruct (model_to _ _); exact Ht.
Qed.

(** X15. A checkpoint that fails to load leaves a model in the cache: when
    [load_checkpoint] raises, [load_model] raises too, but the global [model]
    already holds the model made by [setup_tts_model], so [health_check]
    reports the model as loaded and every later [load_model] returns that
    model without loading a checkpoint. *)
Theorem load_model_failed_checkpoint (g g1 : Globals Model Device)
    (model_path config_path : string) (config : Config) (m0 : Model) (e : exception) :
  model g = None ->
  resolve g = (Returned (model_path, config_path), g1) ->
  load_config config_path = Returned config ->
  setup_tts_model config = Returned m0 ->
  load_checkpoint m0 config model_path = Raised e ->
  exists g2,
    load g = (Raised e, g2) /\
    model g2 = Some m0 /\
    health_check g2 = true /\
    load g2 = (Returned (m0, device g2), g2).
Proof.
  intros Hm Hr Hc Hs Hl. unfold load, load_model. rewrite Hm.
  unfold resolve in Hr. rewrite Hr, Hc, Hs, Hl.
  eexists. split; [reflexivity |]. cbn [model health_check is_some].
  repeat split.
Qed.

(** X16. With a [COQUI_MODEL_PATH] that exists nothing is downloaded:
    [load_model] records no download beyond those already made, the
    configuration it reads is [config.json] of that directory and the
    checkpoint it loads is the one of that directory. *)
Theorem load_model_uses_configured_path (g : Globals Model Device) (p : string) :
  COQUI_MODEL_PATH = Some p -> truthy (Some p) = true -> path_exists p = true ->
  (In DownloadModel (calls (snd (load g))) -> In DownloadModel (calls g)) /\
  (forall config_path, In (LoadConfig config_path) (calls (snd (load g))) ->
                       In (LoadConfig config_path) (calls g) \/
                       config_path = path_div p "config.json") /\
  (forall checkpoint_dir, In (LoadCheckpoint checkpoint_dir) (calls (snd (load g))) ->
                          In (LoadCheckpoint checkpoint_dir) (calls g) \/
                          checkpoint_dir = path_str p).
Proof.
  intros Henv Ht Hp. unfold load, load_model.
  destruct (model g); [cbn; auto |].
  unfold resolve_model_path. rewrite Henv, Ht, Hp. cbn [andb].
  destruct (load_config _);
    [destruct (setup_tts_model _);
       [destruct (load_checkpoint _ _ _); [destruct (model_to _ _) |] |] |];
    cbn [snd calls record]; (split; [| split]);
    try (intros H; cbn [In] in H; intuition discriminate);
    intros path H; cbn [In] in H;
    repeat (destruct H as [H | H]; try discriminate);
    try (injection H as <-; right; reflexivity); left; exact H.
Qed.

End ModelCacheFacts.

(** ** Properties of [get_speaker_embedding] *)

Lemma half_SF : Prim2SF 0.5 = S754_finite false 4503599627370496 (-53).
Proof. vm_compute. reflexivity. Qed.
Lemma one_SF : Prim2SF 1 = S754_finite false 4503599627370496 (-52).
Proof. vm_compute. reflexivity. Qed.

(** Comparison of a float with a positive finite one. *)
Lemma SFltb_positive (x : spec_float) (m0 : positive) (e0 : Z) :
  SFltb x (S754_finite false m0 e0) = false ->
  match x with
  | S754_nan | S754_infinity false => True
  | S754_finite false m e => (e0 < e \/ e = e0 /\ (m0 <= m)%positive)%Z
  | _ => False
  end.
Proof.
  unfold SFltb, SFcompare.
  destruct x as [s | s | | s m e]; try (destruct s); try discriminate; auto.
  destruct (Z.compare_spec e e0) as [-> | H | H]; try discriminate.
  - rewrite Pos.compare_cont_spec. unfold Pos.switch_Eq.
    destruct (Pos.compare_spec m m0); try discriminate; intros _; right; split; lia.
  - intros _. left. lia.
Qed.

Lemma SFltb_positive_true (x : spec_float) (m0 : positive) (e0 : Z) :
  SFltb x (S754_finite false m0 e0) = true ->
  match x with
  | S754_finite false m e => (e < e0 \/ e = e0 /\ (m < m0)%positive)%Z
  | S754_nan | S754_infinity false => False
  | _ => True
  end.
Proof.
  unfold SFltb, SFcompare.
  destruct x as [s | s | | s m e]; try (destruct s); try discriminate; auto.
  destruct (Z.compare_spec e e0) as [-> | H | H]; try discriminate.
  - rewrite Pos.compare_cont_spec. unfold Pos.switch_Eq.
    destruct (Pos.compare_spec m m0); try discriminate; intros _; right; split; lia.
  - intros _. left. lia.
Qed.

Lemma py_int_nonneg (d : float) (z : Z) :
  (d <? 0.5)%float = false -> py_int d = Returned z -> (0 <= z)%Z.
Proof.
  rewrite ltb_spec, half_SF. intros Hlt. apply SFltb_positive in Hlt.
  unfold py_int. destruct (Prim2SF d) as [s | s | | s m e]; try discriminate.
  - intros H. injection H as <-. lia.
  - destruct s; [contradiction |]. cbv beta iota zeta.
    assert (Hmag : (0 <= if (0 <=? e)%Z then Z.pos m * 2 ^ e else Z.pos m / 2 ^ (- e))%Z).
    { destruct (Z.leb_spec 0 e).
      - apply Z.mul_nonneg_nonneg; [lia | apply Z.pow_nonneg; lia].
      - apply Z.div_pos; [lia | apply Z.pow_pos_nonneg; lia]. }
    revert Hmag. generalize (if (0 <=? e)%Z then Z.pos m * 2 ^ e else Z.pos m / 2 ^ (- e))%Z.
    intros mag Hmag H. injection H as <-. exact Hmag.
Qed.

Lemma py_int_below_one (d : float) :
  (d <? 0.5)%float = false -> (d <? 1)%float = true -> py_int d = Returned 0%Z.
Proof.
  rewrite !ltb_spec, half_SF, one_SF. intros Hge Hlt.
  apply SFltb_positive in Hge. apply SFltb_positive_true in Hlt.
  pose proof (Prim2SF_valid d) as Hvalid.
  unfold py_int. destruct (Prim2SF d) as [s | s | | s m e]; try contradiction.
  - destruct s; contradiction.
  - destruct s; [contradiction |].
    unfold SpecFloat.valid_binary, bounded, canonical_mantissa, fexp, SpecFloat.emin,
      prec, emax in Hvalid.
    apply andb_true_iff in Hvalid as (Hcanon & _). apply Z.eqb_eq in Hcanon.
    pose proof (Float32.digits2_pos_bounds m) as (Hlow & Hhigh).
    assert (He : (e <= -53)%Z).
    { destruct Hlt as [Hlt | (-> & Hm)]; [clear - Hlt; lia |]. exfalso.
      assert (Hd : Z.pos (digits2_pos m) = 53%Z) by (clear - Hcanon; lia).
      rewrite Hd in Hlow. change (2 ^ (53 - 1))%Z with 4503599627370496%Z in Hlow.
      apply Pos2Z.pos_lt_pos in Hm. exact (proj1 (Z.lt_nge _ _) Hm Hlow). }
    assert (Hd : (Z.pos (digits2_pos m) <= 53)%Z) by (clear - Hcanon; lia).
    cbv beta iota zeta.
    replace (0 <=? e)%Z with false by (symmetry; apply Z.leb_gt; clear - He; lia).
    f_equal. apply Z.div_small. split; [clear; lia |].
    apply Z.lt_le_trans with (2 ^ Z.pos (digits2_pos m))%Z; [exact Hhigh |].
    apply Z.pow_le_mono_r; clear - He Hd; lia.
Qed.

Section EmbeddingFacts.

Variables Model Device Config : Type.
Variable COQUI_MODEL_PATH : option string.
Variable path_exists : string -> bool.
Variable path_str : string -> string.
Variable path_div : string -> string -> string.
Variable download_model : attempt string.
Variable cuda_is_available : bool.
Variable torch_device : string -> Device.
Variable load_config : string -> attempt Config.
Variable setup_tts_model : Config -> attempt Model.
Variable load_checkpoint : Model -> Config -> string -> attempt Model.
Variable model_to : Model -> Device -> attempt Model.
Variable librosa_load : string -> attempt (list float).
Variable get_conditioning_latents : Model -> string -> Z -> Z -> attempt ndarray.

Let load := load_model Model Device Config COQUI_MODEL_PATH path_exists path_str path_div
              download_model cuda_is_available torch_device load_config setup_tts_model
              load_checkpoint model_to.
Let embed := get_speaker_embedding Model Device Config COQUI_MODEL_PATH path_exists
               path_str path_div download_model cuda_is_available torch_device load_config
               setup_tts_model load_checkpoint model_to librosa_load
               get_conditioning_latents.

(** The duration, in seconds, of [audio] at the rate 22050. *)
Let duration_of (audio : list float) : float :=
  (float_of_Z (Z.of_nat (List.length audio)) / float_of_Z sr)%float.

(** The steps behind an embedding. *)
Lemma get_speaker_embedding_some (audio_path : string) (g g1 : Globals Model Device)
    (v : ndarray) :
  embed audio_path g = (Some v, g1) ->
  exists tts d audio seconds,
    load g = (Returned (tts, d), g1) /\
    librosa_load audio_path = Returned audio /\
    (duration_of audio <? 0.5)%float = false /\
    py_int (duration_of audio) = Returned seconds /\
    get_conditioning_latents tts audio_path (Z.min 30 seconds) (Z.min 60 seconds) =
      Returned v.
Proof.
  unfold embed, get_speaker_embedding, get_speaker_embedding_try. fold load.
  destruct (load g) as [[[tts d] | e] g'] eqn:Hload; [| intros H; discriminate].
  destruct (librosa_load audio_path) as [audio | e] eqn:Haudio; cbn [and_then];
    [| intros H; discriminate].
  fold (duration_of audio).
  destruct (duration_of audio <? 0.5)%float eqn:Hshort; [intros H; discriminate |].
  destruct (py_int (duration_of audio)) as [seconds | e] eqn:Hint; cbn [and_then];
    [| intros H; discriminate].
  destruct (get_conditioning_latents tts audio_path _ _) as [w | e] eqn:Hcall;
    cbn [and_then]; [| intros H; discriminate].
  intros H. injection H as <- <-.
  exists tts, d, audio, seconds. repeat split; assumption.
Qed.

(** X17. The conditioning lengths are bounded: an embedding returned by
    [get_speaker_embedding] was computed with [0 <= gpt_cond_len <= 30],
    [0 <= max_ref_length <= 60] and [gpt_cond_len <= max_ref_length], on an
    audio whose duration is not below 0.5 s. *)
Theorem get_speaker_embedding_lengths (audio_path : string) (g g1 : Globals Model Device)
    (v : ndarray) :
  embed audio_path g = (Some v, g1) ->
  exists tts audio gpt_cond_len max_ref_length,
    librosa_load audio_path = Returned audio /\
    (duration_of audio <? 0.5)%float = false /\
    get_conditioning_latents tts audio_path gpt_cond_len max_ref_length = Returned v /\
    (0 <= gpt_cond_len <= 30)%Z /\
    (0 <= max_ref_length <= 60)%Z /\
    (gpt_cond_len <= max_ref_length)%Z.
Proof.
  intros H. apply get_speaker_embedding_some in H
    as (tts & d & audio & seconds & _ & Haudio & Hshort & Hint & Hcall).
  pose proof (py_int_nonneg _ _ Hshort Hint).
  exists tts, audio, (Z.min 30 seconds), (Z.min 60 seconds).
  repeat split; try assumption; lia.
Qed.

(** X18. A clip of at least 0.5 s but less than 1 s is embedded with both
    conditioning lengths equal to 0, [int(duration)] being 0. *)
Theorem get_speaker_embedding_sub_second (audio_path : string)
    (g g1 : Globals Model Device) (tts : Model) (d : option Device)
    (audio : list float) :
  load g = (Returned (tts, d), g1) ->
  librosa_load audio_path = Returned audio ->
  (duration_of audio <? 0.5)%float = false ->
  (duration_of audio <? 1)%float = true ->
  embed audio_path g =
    (match get_conditioning_latents tts audio_path 0 0 with
     | Returned speaker_embedding => Some speaker_embedding
     | Raised _ => None
     end, g1).
Proof.
  intros Hload Haudio Hshort Hone.
  unfold embed, get_speaker_embedding, get_speaker_embedding_try. fold load.
  rewrite Hload, Haudio. cbn [and_then]. fold (duration_of audio).
  rewrite Hshort, (py_int_below_one _ Hshort Hone). cbn [and_then Z.min Z.compare].
  destruct (get_conditioning_latents tts audio_path 0 0); reflexivity.
Qed.

(** X19. A clip shorter than 0.5 s gives no embedding, and the model is not
    asked for one; the model is loaded all the same, [load_model] being
    called before the duration is known. *)
Theorem get_speaker_embedding_too_short (audio_path : string)
    (g : Globals Model Device) (audio : list float) :
  librosa_load audio_path = Returned audio ->
  (duration_of audio <? 0.5)%float = true ->
  embed audio_path g = (None, snd (load g)).
Proof.
  intros Haudio Hshort.
  unfold embed, get_speaker_embedding, get_speaker_embedding_try. fold load.
  destruct (load g) as [[[tts d] | e] g1]; [| reflexivity].
  rewrite Haudio. cbn [and_then]. fold (duration_of audio). rewrite Hshort. reflexivity.
Qed.

End EmbeddingFacts.

(** ** The labels of the two modes *)

Lemma map_back_vocabulary (embeddings : list (option ndarray)) (valid_labels : list nat)
    (most_common_label : nat) :
  forall idx labels,
    map_back embeddings valid_labels most_common_label idx = Ok labels ->
    Forall (fun l => exists c, (In c valid_labels \/ c = most_common_label) /\
                               l = speaker c) labels.
Proof.
  induction embeddings as [| [e |] rest IH]; intros idx labels H; cbn [map_back] in H.
  - inversion H. constructor.
  - apply bind_ok in H as (l & Hl & H). apply bind_ok in H as (ls & Hrec & H).
    inversion H. constructor; [| eapply IH, Hrec].
    exists l. split; [left | reflexivity].
    unfold list_get in Hl. destruct (nth_error valid_labels idx) eqn:Hn; [| discriminate].
    inversion Hl; subst. eapply nth_error_In, Hn.
  - apply bind_ok in H as (ls & Hrec & H). inversion H.
    constructor; [| eapply IH, Hrec]. exists most_common_label. auto.
Qed.

Lemma repeat_speaker_0 (n : nat) :
  Forall (fun l => exists c, l = speaker c) (repeat "speaker_0"%string n).
Proof.
  apply Forall_forall. intros l Hl. apply repeat_spec in Hl. exists 0. exact Hl.
Qed.

Lemma cluster_speakers_vocabulary (L : SciLib) (embeddings : list (option ndarray))
    (segments : list Segment) (labels : list string) :
  cluster_speakers L embeddings segments = Ok labels ->
  Forall (fun l => exists c, l = speaker c) labels.
Proof.
  unfold cluster_speakers. intros H.
  destruct embeddings as [| x rest]; [inversion H; constructor |].
  destruct (valid_embeddings (x :: rest));
    [injection H as <-; exact (repeat_speaker_0 (List.length (x :: rest))) |].
  unbind H;
    try (injection H as <-; exact (repeat_speaker_0 (List.length (x :: rest)))).
  all: eapply Forall_impl; [| eapply map_back_vocabulary; eassumption].
  all: intros lab (c & _ & ->); exists c; reflexivity.
Qed.

Lemma cluster_others_vocabulary (L : SciLib) (other_embeddings : list ndarray)
    (other_labels : list string) :
  cluster_others L other_embeddings = Ok other_labels ->
  Forall (fun o => o = "OTHER"%string \/ exists c, o = other_n c) other_labels.
Proof.
  unfold cluster_others. intros H. unbind H.
  all: try (injection H as <-; apply Forall_forall; intros o Ho;
            apply repeat_spec in Ho; left; exact Ho).
  all: injection H as <-; apply Forall_forall; intros o Ho;
       apply in_map_iff in Ho as (c & <- & _); right; exists c; reflexivity.
Qed.

Lemma merge_vocabulary (P : string -> Prop) (all_labels : list (option string))
    (other_labels : list string) :
  Forall (fun l => l = None \/ l = Some "YOU"%string) all_labels ->
  Forall P other_labels ->
  List.length (placeholders 0 all_labels) <= List.length other_labels ->
  Forall (fun l => l = Some "YOU"%string \/ exists o, P o /\ l = Some o)
         (merge all_labels other_labels).
Proof.
  intros Hall; revert other_labels; induction Hall as [| l rest Hl _ IH];
    intros ols Hols Hlen; cbn [merge]; [constructor |].
  destruct Hl as [-> | ->]; cbn [placeholders List.length] in Hlen.
  - destruct ols as [| o os]; cbn [List.length] in Hlen; [lia |].
    inversion Hols; subst. constructor; [right; exists o; auto |].
    apply IH; [assumption |]. rewrite (placeholders_length 0 1). lia.
  - constructor; [left; reflexivity |].
    apply IH; [assumption |]. rewrite (placeholders_length 0 1). exact Hlen.
Qed.

Lemma personalized_vocabulary (L : SciLib) (embeddings : list (option ndarray))
    (u : ndarray) (t : float) (labels : list (option string)) :
  cluster_speakers_personalized L embeddings u t = Ok labels ->
  Forall (fun l => l = Some "YOU"%string \/
                   exists o, (o = "OTHER"%string \/ exists c, o = other_n c) /\ l = Some o)
         labels.
Proof.
  intros H. apply personalized_ok in H as (al & oe & oi & ols & Hloop & -> & Hlen & Hols).
  destruct (label_loop_spec _ _ _ _ _ _ _ _ Hloop) as (Hall & Hoi & _).
  apply merge_vocabulary.
  - eapply labelled_you_or_placeholder, Hall.
  - destruct (1 <? List.length oe); [eapply cluster_others_vocabulary, Hols |].
    subst ols. apply Forall_forall. intros o Ho. apply repeat_spec in Ho. left; exact Ho.
  - rewrite <- Hoi. exact Hlen.
Qed.

(** X20. Whatever the imported routines do, a result of [cluster_speakers]
    has one label per embedding and every label is [speaker_<id>]. *)
Theorem cluster_speakers_labels (L : SciLib) (embeddings : list (option ndarray))
    (segments : list Segment) (labels : list string) :
  cluster_speakers L embeddings segments = Ok labels ->
  List.length labels = List.length embeddings /\
  Forall (fun l => exists c, l = ("speaker_" ++ str_of_nat c)%string) labels.
Proof.
  intros H. split; [eapply cluster_speakers_length, H |].
  eapply cluster_speakers_vocabulary, H.
Qed.

(** X21. Whatever the imported routines do, a result of
    [cluster_speakers_personalized] has one label per embedding, no
    placeholder is left in it, and every label is ["YOU"], ["OTHER"] or
    [OTHER_<id>]. *)
Theorem cluster_speakers_personalized_labels (L : SciLib)
    (embeddings : list (option ndarray)) (u : ndarray) (t : float)
    (labels : list (option string)) :
  cluster_speakers_personalized L embeddings u t = Ok labels ->
  List.length labels = List.length embeddings /\
  Forall (fun l => l = Some "YOU"%string \/ l = Some "OTHER"%string \/
                   exists c, l = Some ("OTHER_" ++ str_of_nat c)%string) labels.
Proof.
  intros H. split; [eapply personalized_length, H |].
  eapply Forall_impl; [| eapply personalized_vocabulary, H].
  intros l [-> | (o & [-> | (c & ->)] & ->)]; auto.
  right; right. exists c. reflexivity.
Qed.

(** ** The number of speakers, the routines behaving as documented *)

Lemma most_frequent_In (c : nat) (ids : list nat) :
  ids <> [] -> most_frequent c ids -> In c ids.
Proof.
  intros Hne H. destruct ids as [| x r]; [congruence |].
  destruct (H x) as (Hle & _).
  apply (count_occ_In Nat.eq_dec).
  assert (Hx : count_occ Nat.eq_dec (x :: r) x > 0)
    by (apply count_occ_In; left; reflexivity).
  lia.
Qed.

Lemma assign_vocabulary (embeddings : list (option ndarray)) (fallback : nat) :
  forall ids,
    Forall (fun l => exists c, (In c ids \/ c = fallback) /\ l = speaker c)
           (assign embeddings ids fallback).
Proof.
  induction embeddings as [| [e |] rest IH]; intros ids; cbn [assign].
  - constructor.
  - destruct ids as [| c ids']; constructor.
    + exists c. split; [left; left; reflexivity | reflexivity].
    + eapply Forall_impl; [| apply IH]. intros l (c' & [Hc | Hc] & ->); exists c';
        (split; [| reflexivity]); [left; right; exact Hc | right; exact Hc].
  - constructor; [exists fallback; auto | apply IH].
Qed.

Section Bounds.

Variable L : SciLib.
Hypothesis HL : SciLibSpec L.

(** The cluster ids of the unsupervised mode are below 10. *)
Lemma cluster_speakers_bounded (d : nat) (embeddings : list (option ndarray))
    (segments : list Segment) :
  0 < d -> wf_embeddings d embeddings ->
  exists ids fallback,
    cluster_speakers L embeddings segments = Ok (assign embeddings ids fallback) /\
    Forall (fun c => c < 10) ids /\ fallback < 10.
Proof.
  intros Hd Hwf.
  assert (Hsingle : cluster_speakers L embeddings segments =
                    Ok (repeat "speaker_0"%string (List.length embeddings)) ->
                    exists ids fallback,
                      cluster_speakers L embeddings segments =
                        Ok (assign embeddings ids fallback) /\
                      Forall (fun c => c < 10) ids /\ fallback < 10).
  { intros ->. exists (repeat 0 (List.length (somes embeddings))), 0.
    rewrite assign_repeat_zero. split; [reflexivity |]. split; [| lia].
    apply Forall_forall. intros c Hc. apply repeat_spec in Hc. lia. }
  set (X := somes embeddings).
  destruct (Nat.lt_ge_cases (List.length X) 2) as [Hshort | Hlen].
  { apply Hsingle. destruct X as [| v [| w vs]] eqn:HX; cbn in Hshort; [| | lia].
    - apply cluster_speakers_no_valid, HX.
    - apply cluster_speakers_one_valid. fold X. rewrite HX. reflexivity. }
  assert (HwfX : well_formed d X) by (apply well_formed_somes, Hwf).
  assert (HneX : X <> []) by (intros E; rewrite E in Hlen; cbn in Hlen; lia).
  destruct (fit_transform_ok L HL d X Hd HneX HwfX) as (Xs & Hft & HwfXs & HlenXs).
  assert (Hlen' : 2 <= List.length Xs) by lia.
  destruct (linkage_ok L HL d Xs Hd Hlen' HwfXs) as (Z & Hlk).
  destruct (pdist_ok L HL d Xs Hd Hlen' HwfXs) as (ds & Hpd & Hds).
  destruct (np_max_ok L HL ds Hds) as (m & Hmax).
  assert (Hv : vstack (valid_embeddings embeddings) = Ok X)
    by (rewrite valid_embeddings_eq; apply (vstack_well_formed d); assumption).
  pose proof (cluster_speakers_steps L embeddings segments X Xs Z ds m
                Hv Hlen Hft Hlk Hpd Hmax) as Hsteps.
  destruct (m <? two_speaker_threshold)%float.
  { apply Hsingle. rewrite Hsteps. reflexivity. }
  set (ns := range 2 (Nat.min 10 (List.length X - 1) + 1)) in *.
  destruct (search_clusters_returns L d Xs HL Hd HwfXs Hlen' ns (PyNumber (-1), 2))
    as ([bs bn] & Hsearch).
  { intros k Hk. unfold ns, range in Hk. apply in_seq in Hk. lia. }
  pose proof Hsearch as Hbest. unfold ns, range in Hbest.
  apply search_clusters_best in Hbest as (Hsel & _); [| apply exact_minus_one | lia].
  assert (Hbn : 2 <= bn <= List.length Xs /\ bn <= 10)
    by (destruct Hsel as [Hsel | (Hr & _)]; [inversion Hsel |]; lia).
  destruct Hbn as (Hbn & Hten).
  destruct (fit_predict_ok L HL d Xs bn Hd HwfXs Hlen') as (vl & Hfp & Hvl & Hin); [lia |].
  assert (Hne : vl <> []) by (intros E; rewrite E in Hvl; cbn in Hvl; lia).
  destruct (argmax_bincount vl Hne) as (c & Hc & Hmf).
  exists vl, c. rewrite Hsteps, Hsearch; cbn [bind snd].
  replace (bn =? 1) with false by (symmetry; apply Nat.eqb_neq; lia).
  rewrite Hfp; cbn [bind]. rewrite Hc; cbn [bind].
  pose proof (map_back_assign embeddings [] vl c) as Hmb; cbn [app List.length] in Hmb.
  rewrite Hmb by (fold X; lia).
  split; [reflexivity |]. split.
  - apply Forall_forall. intros k Hk. apply Hin in Hk. lia.
  - apply most_frequent_In in Hmf; [| exact Hne]. apply Hin in Hmf. lia.
Qed.

(** The cluster ids of the pending candidates are below 5. *)
Lemma cluster_others_bounded (d : nat) (other_embeddings : list ndarray) :
  0 < d -> well_formed d other_embeddings -> 2 <= List.length other_embeddings ->
  exists other_labels,
    cluster_others L other_embeddings = Ok other_labels /\
    Forall (fun o => o = "OTHER"%string \/ exists c, c < 5 /\ o = other_n c)
           other_labels.
Proof.
  intros Hd Hwf Hlen. set (X := other_embeddings) in *.
  assert (Hsingle : exists other_labels,
             Ok (repeat "OTHER"%string (List.length X)) = Ok other_labels /\
             Forall (fun o => o = "OTHER"%string \/ exists c, c < 5 /\ o = other_n c)
                    other_labels).
  { eexists; split; [reflexivity |].
    apply Forall_forall. intros o Ho. apply repeat_spec in Ho. left; exact Ho. }
  assert (HneX : X <> []) by (intros E; rewrite E in Hlen; cbn in Hlen; lia).
  destruct (fit_transform_ok L HL d X Hd HneX Hwf) as (Xs & Hft & HwfXs & HlenXs).
  assert (Hlen' : 2 <= List.length Xs) by lia.
  destruct (linkage_ok L HL d Xs Hd Hlen' HwfXs) as (Z & Hlk).
  destruct (pdist_ok L HL d Xs Hd Hlen' HwfXs) as (ds & Hpd & Hds).
  destruct (np_max_ok L HL ds Hds) as (m & Hmax).
  rewrite (cluster_others_steps L X X Xs Z ds m
             (vstack_well_formed d X HneX Hwf) Hft Hlk Hpd Hmax).
  destruct ((m <? 19)%float || (List.length X <? 2)); [exact Hsingle |].
  set (ns := range 2 (Nat.min 5 (List.length X - 1) + 1)) in *.
  destruct (search_clusters_returns L d Xs HL Hd HwfXs Hlen' ns (PyNumber (-1), 1))
    as ([bs bn] & Hsearch).
  { intros k Hk. unfold ns, range in Hk. apply in_seq in Hk. lia. }
  rewrite Hsearch; cbn [bind fst snd].
  destruct (number_gt bs 0.2) eqn:Hgate; [| exact Hsingle].
  unfold ns, range in Hsearch.
  destruct (search_gate L _ _ _ _ Hsearch Hgate) as (Hbn & _).
  cbn [bind].
  replace (bn =? 1) with false by (symmetry; apply Nat.eqb_neq; lia).
  destruct (fit_predict_ok L HL d Xs bn Hd HwfXs Hlen') as (ids & Hfp & Hids & Hin); [lia |].
  rewrite Hfp; cbn [bind].
  eexists; split; [reflexivity |].
  apply Forall_forall. intros o Ho. apply in_map_iff in Ho as (c & <- & Hc).
  right. exists c. split; [apply Hin in Hc; lia | reflexivity].
Qed.

End Bounds.

(** X22. At most ten speakers: for a request whose embeddings are finite
    vectors of one dimension, the routines behaving as documented,
    [cluster_speakers] returns labels [speaker_<id>] with [id < 10], hence at
    most 10 different labels. *)
Theorem cluster_speakers_at_most_ten (L : SciLib) (d : nat)
    (embeddings : list (option ndarray)) (segments : list Segment) :
  SciLibSpec L -> 0 < d -> wf_embeddings d embeddings ->
  exists labels,
    cluster_speakers L embeddings segments = Ok labels /\
    Forall (fun l => exists c, c < 10 /\ l = ("speaker_" ++ str_of_nat c)%string) labels /\
    List.length (nodup string_dec labels) <= 10.
Proof.
  intros HL Hd Hwf.
  destruct (cluster_speakers_bounded L HL d embeddings segments Hd Hwf)
    as (ids & fallback & Hrun & Hids & Hfb).
  exists (assign embeddings ids fallback). split; [exact Hrun |].
  assert (Hvoc : Forall (fun l => exists c, c < 10 /\ l = speaker c)
                        (assign embeddings ids fallback)).
  { eapply Forall_impl; [| apply assign_vocabulary].
    intros l (c & Hc & ->). exists c. split; [| reflexivity].
    destruct Hc as [Hc | ->]; [| exact Hfb].
    rewrite Forall_forall in Hids. apply Hids, Hc. }
  split; [exact Hvoc |].
  transitivity (List.length (map speaker (seq 0 10))); [| rewrite length_map, length_seq; lia].
  apply NoDup_incl_length; [apply NoDup_nodup |].
  intros l Hl. apply nodup_In in Hl. rewrite Forall_forall in Hvoc.
  destruct (Hvoc l Hl) as (c & Hc & ->). apply in_map, in_seq. lia.
Qed.

(** X23. At most five other speakers: for such a request and a reference of
    the same dimension, the routines behaving as documented,
    [cluster_speakers_personalized] returns labels that are ["YOU"],
    ["OTHER"] or [OTHER_<id>] with [id < 5]. *)
Theorem personalized_at_most_five_others (L : SciLib) (d : nat)
    (embeddings : list (option ndarray)) (u : ndarray) (t : float) :
  SciLibSpec L -> 0 < d -> wf_embeddings d embeddings -> List.length u = d ->
  exists labels,
    cluster_speakers_personalized L embeddings u t = Ok labels /\
    Forall (fun l => l = Some "YOU"%string \/ l = Some "OTHER"%string \/
                     exists c, c < 5 /\ l = Some ("OTHER_" ++ str_of_nat c)%string)
           labels.
Proof.
  intros HL Hd Hwf Hu.
  destruct (personalized_returns L d embeddings u t HL Hd Hwf Hu)
    as (al & oe & oi & ols & Hloop & Hrun & Hlen & _ & Hols).
  destruct (label_loop_spec _ _ _ _ _ _ _ _ Hloop) as (Hall & Hoi & Hlen' & Hin).
  exists (merge al ols). split; [exact Hrun |].
  assert (Hvoc : Forall (fun o => o = "OTHER"%string \/ exists c, c < 5 /\ o = other_n c) ols).
  { destruct (1 <? List.length oe) eqn:Hmany.
    - apply Nat.ltb_lt in Hmany.
      assert (Hwfo : well_formed d oe).
      { eapply Forall_impl; [| exact Hin]. intros v Hv.
        unfold wf_embeddings in Hwf. rewrite Forall_forall in Hwf.
        exact (Hwf (Some v) Hv). }
      destruct (cluster_others_bounded L HL d oe Hd Hwfo) as (ols' & Hco & Hb); [lia |].
      rewrite Hco in Hols. injection Hols as <-. exact Hb.
    - subst ols. apply Forall_forall. intros o Ho. apply repeat_spec in Ho.
      left; exact Ho. }
  eapply Forall_impl;
    [| apply (merge_vocabulary _ al ols (labelled_you_or_placeholder L _ _ _ _ Hall) Hvoc)].
  - intros l [-> | (o & [-> | (c & Hc & ->)] & ->)]; auto.
    right; right. exists c. split; [exact Hc | reflexivity].
  - rewrite <- Hoi. lia.
Qed.

(** ** The speakers a response can name *)

Section EndpointLabels.

Variable L : SciLib.
Variable convert_to_wav : string -> attempt string.
Variable get_duration : string -> attempt float.
Variable librosa_load : string -> attempt (list float).
Variable json_loads : string -> attempt json.
Variable np_array : json -> attempt array_nd.
Variable int_of_str : string -> attempt Z.
Variable cosine_nd : ndarray -> array_nd -> result np_float.
Variable coerce_float : json -> option float.
Variable coerce_str : json -> option string.
Variable get_speaker_embedding : string -> attempt (option ndarray).
Variable temp_dir : string.
Variable str : exception -> string.

Let diarize := diarize_audio L convert_to_wav get_duration librosa_load json_loads
                 np_array int_of_str cosine_nd coerce_float coerce_str
                 get_speaker_embedding temp_dir str.

(** X24. The speakers of a response of [diarize_audio] are named
    [speaker_<id>], unless a user embedding that is an array of length 512
    was given: only then can ["YOU"], ["OTHER"] and [OTHER_<id>] appear, and
    no other name does. *)
Theorem diarize_audio_speaker_names (temp_audio : string)
    (segments user_embedding : option string) (response : DiarizationResponse)
    (s : string) :
  diarize temp_audio segments user_embedding = Response response ->
  In s (dr_speakers response) ->
  match parse_user_emb json_loads np_array user_embedding with
  | Some (Rows rows) =>
      if List.length rows =? 512
      then s = "YOU"%string \/ s = "OTHER"%string \/
           exists c, s = ("OTHER_" ++ str_of_nat c)%string
      else exists c, s = ("speaker_" ++ str_of_nat c)%string
  | _ => exists c, s = ("speaker_" ++ str_of_nat c)%string
  end.
Proof.
  intros H Hs. apply diarize_audio_response in H
    as (wav & segs & items & paths & files & labels & _ & _ & _ & _ & Hrun & _ & _ &
        Hsp & _).
  rewrite Hsp in Hs. apply (sorted_set_spec labels) in Hs.
  assert (Hplain : forall embeddings,
            of_result (speaker_labels <-
                         cluster_speakers L embeddings (segments_of segs) ;;
                       Ok (map Some speaker_labels)) = Returned (map Some labels) ->
            exists c, s = ("speaker_" ++ str_of_nat c)%string).
  { intros embeddings Hb. apply of_result_returned in Hb.
    apply bind_ok in Hb as (ls & Hls & Hb).
    injection Hb as Hb. apply cluster_speakers_vocabulary in Hls.
    rewrite Forall_forall in Hls.
    assert (Hin : In (Some s) (map Some ls)) by (rewrite Hb; apply in_map, Hs).
    apply in_map_iff in Hin as (s' & Heq & Hin). injection Heq as ->.
    exact (Hls s Hin). }
  unfold cluster_step in Hrun.
  destruct (parse_user_emb json_loads np_array user_embedding) as [[x | rows] |];
    cbn [np_len and_then] in Hrun; [discriminate | | eapply Hplain, Hrun].
  destruct (List.length rows =? 512); [| eapply Hplain, Hrun].
  apply of_result_returned in Hrun. unfold cluster_with_reference in Hrun.
  assert (Hvoc : Forall (fun l => l = Some "YOU"%string \/
                                  exists o, (o = "OTHER"%string \/ exists c, o = other_n c) /\
                                            l = Some o) (map Some labels))
    by (destruct (as_1d (Rows rows)); eapply personalized_vocabulary, Hrun).
  rewrite Forall_forall in Hvoc.
  destruct (Hvoc (Some s) (in_map Some _ _ Hs)) as [Heq | (o & Ho & Heq)];
    injection Heq as ->; [left; reflexivity |].
  destruct Ho as [-> | (c & ->)]; [right; left; reflexivity |].
  right; right. exists c. reflexivity.
Qed.

End EndpointLabels.
(** ** Concrete runs of the service *)

Example split_audio_sample :
  TestService.split_audio "clip.wav"%string (JArray TestService.sample_segments) =
  Returned (TestService.sample_paths, TestService.temp_dir, TestService.sample_files).
Proof. vm_compute. reflexivity. Qed.

Example split_audio_out_of_range :
  TestService.split_audio "clip.wav"%string (JArray TestService.out_of_range_segments) =
  Returned (TestService.out_of_range_paths, TestService.temp_dir, [mkWritten "/tmp/tmpdir/segment_0000.wav"%string (TestService.silence 7000) 22050]).
Proof. vm_compute. reflexivity. Qed.

Example diarize_sample :
  TestService.diarize "clip.webm"%string (Some "[three segments]"%string) None =
  Response TestService.sample_response.
Proof. vm_compute. reflexivity. Qed.

Example diarize_whole_sample :
  TestService.diarize "clip.webm"%string None None = Response TestService.sample_response_whole.
Proof. vm_compute. reflexivity. Qed.

(** A user embedding of two components is ignored; one of 512 components
    makes the segments of the clip, all alike, the user's. *)
Example diarize_two_components :
  TestService.diarize "clip.webm"%string (Some "[three segments]"%string)
    (Some "[0.0, 1.0]"%string) =
  Response TestService.sample_response.
Proof. vm_compute. reflexivity. Qed.

Example diarize_personalized :
  TestService.diarize "clip.webm"%string (Some "[three segments]"%string)
    (Some "[512 ones]"%string) =
  Response
    (mkDiarizationResponse ["YOU"%string]
       [mkSpeakerSegment 0 0.31 "YOU" "hello"; mkSpeakerSegment 0.1 0.2 "YOU" "well";
        mkSpeakerSegment 0 0.32 "YOU" "bye"]%string 1).
Proof. vm_compute. reflexivity. Qed.

(** A user embedding that is a number, or [null], parses to an array
    without dimension: the request fails at line 502. *)
Example diarize_number_embedding :
  TestService.diarize "clip.webm"%string (Some "[three segments]"%string)
    (Some "5"%string) =
  HTTPException 500 "Diarization failed: TypeError"%string /\
  TestService.diarize "clip.webm"%string (Some "[three segments]"%string)
    (Some "null"%string) =
  HTTPException 500 "Diarization failed: TypeError"%string.
Proof. vm_compute. split; reflexivity. Qed.

(** A user embedding of 512 rows is handed to the personalized mode, where
    the cosine distance refuses it. *)
Example diarize_rows_embedding :
  TestService.diarize "clip.webm"%string (Some "[three segments]"%string)
    (Some "[512 rows]"%string) =
  HTTPException 500 "Diarization failed: ValueError"%string.
Proof. vm_compute. reflexivity. Qed.

(** A segment whose text is [null] stops the request where the segments
    received are printed (line 460); so does a [segments] field that is not
    a list of dictionaries. *)
Example diarize_null_text :
  TestService.diarize "clip.webm"%string (Some "[null text]"%string) None =
  HTTPException 500 "Diarization failed: TypeError"%string /\
  TestService.diarize "clip.webm"%string (Some "5"%string) None =
  HTTPException 500 "Diarization failed: TypeError"%string /\
  TestService.diarize "clip.webm"%string (Some "[0.0, 1.0]"%string) None =
  HTTPException 500 "Diarization failed: AttributeError"%string.
Proof. vm_compute. repeat split; reflexivity. Qed.

(** Timestamps that are integers are sample positions as well, and the
    response model converts them. *)
Example diarize_integer_timestamps :
  TestService.diarize "clip.webm"%string (Some "[integers]"%string) None =
  Response
    (mkDiarizationResponse ["speaker_0"%string]
       [mkSpeakerSegment 0 1 "speaker_0"%string EmptyString] 1).
Proof. vm_compute. reflexivity. Qed.

Example load_sample :
  TestService.load TestService.no_globals =
  (Returned (TestService.sample_model, Some "cpu"%string), TestService.loaded_globals).
Proof. vm_compute. reflexivity. Qed.

Example embed_sample :
  TestService.embed "whole.wav"%string TestService.no_globals =
  (Some [1; 1]%float, TestService.loaded_globals).
Proof. vm_compute. reflexivity. Qed.

Lemma segment_embedding_wf (p : string) (v : ndarray) :
  TestService.segment_embedding p = Returned (Some v) ->
  List.length v = 512 /\ finite_vec v.
Proof.
  unfold TestService.segment_embedding. destruct (prefix "short"%string p); [discriminate |].
  intros H. injection H as <-. split; [apply repeat_length |].
  apply Forall_forall. intros x Hx. apply repeat_spec in Hx. subst x. reflexivity.
Qed.

Lemma sample_segments_expected : Forall expected_segment TestService.sample_segments.
Proof.
  repeat (constructor;
          [eexists _, _, _; split; [reflexivity |]; split; split; vm_compute; reflexivity |]).
  constructor.
Qed.

Lemma out_of_range_segments_timed : Forall timed TestService.out_of_range_segments.
Proof.
  repeat (constructor;
          [eexists _, _; split; [reflexivity |]; split; [reflexivity |];
           split; split; vm_compute; reflexivity |]).
  constructor.
Qed.

Lemma sample_segment_list (wav_path : string) :
  segment_list_is TestService.get_duration TestService.json_loads wav_path
    (Some "[three segments]"%string) TestService.sample_segments.
Proof. left. exists "[three segments]"%string. repeat split. Qed.

Lemma split_audio_index_alignment_witness :
  exists items,
    py_iter (JArray TestService.sample_segments) = Returned items /\
    List.length TestService.sample_paths = List.length items /\
    TestService.temp_dir = TestService.temp_dir /\
    map written_path TestService.sample_files = somes TestService.sample_paths.
Proof.
  exact (split_audio_index_alignment TestService.librosa_load TestService.int_of_str
           TestService.temp_dir "clip.wav"%string (JArray TestService.sample_segments)
           TestService.sample_paths TestService.temp_dir TestService.sample_files
           split_audio_sample).
Defined.

Lemma split_audio_files_witness :
  NoDup (somes TestService.sample_paths) /\
  exists audio items,
    TestService.librosa_load "clip.wav"%string = Returned audio /\
    py_iter (JArray TestService.sample_segments) = Returned items /\
    Forall (fun f =>
              exists k seg start_sample end_sample,
                nth_error items k = Some seg /\
                sample_position TestService.int_of_str seg "start" = Returned start_sample /\
                sample_position TestService.int_of_str seg "end" = Returned end_sample /\
                nth_error TestService.sample_paths k = Some (Some (written_path f)) /\
                written_path f =
                  path_join TestService.temp_dir
                    ("segment_" ++ format_04d k ++ ".wav")%string /\
                written_data f = py_slice audio start_sample end_sample /\
                (exists before after, audio = before ++ written_data f ++ after) /\
                written_rate f = 22050%Z /\
                (6615 <= Z.of_nat (List.length (written_data f)))%Z /\
                List.length (written_data f) <= List.length audio)
           TestService.sample_files.
Proof.
  exact (split_audio_files TestService.librosa_load TestService.int_of_str
           TestService.temp_dir "clip.wav"%string (JArray TestService.sample_segments)
           TestService.sample_paths TestService.temp_dir TestService.sample_files
           split_audio_sample).
Defined.

Lemma split_audio_segment_rule_witness :
  exists audio start_sample end_sample,
    TestService.librosa_load "clip.wav"%string = Returned audio /\
    sample_position TestService.int_of_str (mkSegment 0.1 0.2 "well"%string) "start" =
      Returned start_sample /\
    sample_position TestService.int_of_str (mkSegment 0.1 0.2 "well"%string) "end" =
      Returned end_sample /\
    (forall x, py_getitem (mkSegment 0.1 0.2 "well"%string) "start" = Returned (JFloat x) ->
               py_int (x * 22050)%float = Returned start_sample) /\
    (forall y, py_getitem (mkSegment 0.1 0.2 "well"%string) "end" = Returned (JFloat y) ->
               py_int (y * 22050)%float = Returned end_sample) /\
    nth_error TestService.sample_paths 1 =
      Some (if (Z.of_nat (List.length (py_slice audio start_sample end_sample)) <? 6615)%Z
            then None
            else Some (path_join TestService.temp_dir
                         ("segment_" ++ format_04d 1 ++ ".wav")%string)).
Proof.
  exact (split_audio_segment_rule TestService.librosa_load TestService.int_of_str
           TestService.temp_dir "clip.wav"%string (JArray TestService.sample_segments)
           TestService.sample_paths TestService.temp_dir TestService.sample_files
           TestService.sample_segments 1
           (mkSegment 0.1 0.2 "well"%string) split_audio_sample eq_refl eq_refl).
Defined.

Lemma split_audio_tolerates_out_of_range_witness :
  exists segment_paths files,
    TestService.split_audio "clip.wav"%string (JArray TestService.out_of_range_segments) =
    Returned (segment_paths, TestService.temp_dir, files).
Proof.
  exact (split_audio_tolerates_out_of_range TestService.librosa_load
           TestService.int_of_str TestService.temp_dir
           "clip.wav"%string TestService.out_of_range_segments
           (TestService.audio_of "clip.wav"%string)
           eq_refl out_of_range_segments_timed).
Defined.

Lemma split_audio_no_file_witness :
  nth_error TestService.out_of_range_paths 1 = Some None.
Proof.
  apply (split_audio_no_file TestService.librosa_load TestService.int_of_str
           TestService.temp_dir
           "clip.wav"%string (JArray TestService.out_of_range_segments)
           TestService.out_of_range_paths
           TestService.temp_dir [mkWritten "/tmp/tmpdir/segment_0000.wav"%string (TestService.silence 7000) 22050]
           TestService.out_of_range_segments 1
           (mkSegment 5 2 "none"%string) (TestService.audio_of "clip.wav"%string) 110250 44100
           split_audio_out_of_range eq_refl eq_refl eq_refl).
  - vm_compute. reflexivity.
  - vm_compute. reflexivity.
  - left. vm_compute. discriminate.
Defined.

Lemma diarize_audio_segments_preserved_witness :
  exists wav_path segment_list items,
    TestService.convert_to_wav "clip.webm"%string = Returned wav_path /\
    parse_segments TestService.get_duration TestService.json_loads wav_path
      (Some "[three segments]"%string) = Returned segment_list /\
    py_iter segment_list = Returned items /\
    Forall2 (fun seg r =>
               exists speaker,
                 entry_of TestService.coerce_float TestService.coerce_str seg speaker r)
            items (dr_segments TestService.sample_response) /\
    Forall2 (fun seg r =>
               forall x y t, segment_fields seg = Some (x, y, t) ->
                             (ss_start r, ss_end r, ss_text r) = (x, y, t))
            items (dr_segments TestService.sample_response).
Proof.
  exact (diarize_audio_segments_preserved _ _ _ _ _ _ _ _ _ _ _ _ _ _ _ _ _
           diarize_sample).
Defined.

Lemma diarize_audio_speakers_witness :
  Sorted string_le (dr_speakers TestService.sample_response) /\
  NoDup (dr_speakers TestService.sample_response) /\
  (forall s, In s (dr_speakers TestService.sample_response) <->
             In s (map ss_speaker (dr_segments TestService.sample_response))) /\
  dr_num_speakers TestService.sample_response =
    List.length (dr_speakers TestService.sample_response).
Proof.
  exact (diarize_audio_speakers _ _ _ _ _ _ _ _ _ _ _ _ _ _ _ _ _ diarize_sample).
Defined.

Lemma diarize_audio_ignores_unusable_embedding_witness :
  TestService.diarize "clip.webm"%string (Some "[three segments]"%string)
    (Some "[0.0, 1.0]"%string) =
  TestService.diarize "clip.webm"%string (Some "[three segments]"%string) None /\
  exists e,
    TestService.diarize "clip.webm"%string (Some "[three segments]"%string)
      (Some "5"%string) =
      HTTPException 500 ("Diarization failed: " ++ TestService.str e) /\
    (forall wav_path segment_list r,
       TestService.convert_to_wav "clip.webm"%string = Returned wav_path ->
       parse_segments TestService.get_duration TestService.json_loads wav_path
         (Some "[three segments]"%string) = Returned segment_list ->
       TestService.split_audio wav_path segment_list = Returned r ->
       e = TypeError).
Proof.
  split.
  - apply (proj1 (diarize_audio_ignores_unusable_embedding TestLib.test_lib
                    TestService.convert_to_wav TestService.get_duration
                    TestService.librosa_load TestService.json_loads TestService.np_array
                    TestService.int_of_str TestService.cosine_nd TestService.coerce_float
                    TestService.coerce_str TestService.segment_embedding
                    TestService.temp_dir TestService.str "clip.webm"%string
                    (Some "[three segments]"%string) (Some "[0.0, 1.0]"%string))).
    right. exists [Scalar 0%float; Scalar 1%float].
    split; [vm_compute; reflexivity | discriminate].
  - apply (proj2 (diarize_audio_ignores_unusable_embedding TestLib.test_lib
                    TestService.convert_to_wav TestService.get_duration
                    TestService.librosa_load TestService.json_loads TestService.np_array
                    TestService.int_of_str TestService.cosine_nd TestService.coerce_float
                    TestService.coerce_str TestService.segment_embedding
                    TestService.temp_dir TestService.str "clip.webm"%string
                    (Some "[three segments]"%string) (Some "5"%string)) 5%float).
    vm_compute. reflexivity.
Defined.

Lemma diarize_audio_without_segments_witness :
  exists wav_path duration speaker,
    TestService.convert_to_wav "clip.webm"%string = Returned wav_path /\
    TestService.get_duration wav_path = Returned duration /\
    dr_segments TestService.sample_response_whole =
      [mkSpeakerSegment 0 duration speaker EmptyString] /\
    dr_speakers TestService.sample_response_whole = [speaker] /\
    dr_num_speakers TestService.sample_response_whole = 1.
Proof.
  exact (diarize_audio_without_segments _ _ _ _ _ _ _ _ _ _ _ _ _ _ None None _ eq_refl
           diarize_whole_sample).
Defined.

Lemma diarize_audio_short_audio_witness :
  exists response,
    TestService.diarize "short.webm"%string (Some "[three segments]"%string) None =
      Response response /\
    Forall2 (fun seg r =>
               exists x y t, segment_fields seg = Some (x, y, t) /\
                             r = mkSpeakerSegment x y "speaker_0"%string t)
            TestService.sample_segments (dr_segments response) /\
    dr_speakers response = ["speaker_0"%string].
Proof.
  apply (diarize_audio_short_audio TestLib.test_lib TestService.convert_to_wav
           TestService.get_duration TestService.librosa_load
           TestService.json_loads TestService.np_array TestService.int_of_str
           TestService.cosine_nd TestService.coerce_float TestService.coerce_str
           TestService.segment_embedding TestService.temp_dir TestService.str
           "short.webm"%string (Some "[three segments]"%string) None
           "short.webm.converted.wav"%string
           TestService.sample_segments (TestService.silence 5000)
           eq_refl (sample_segment_list _) sample_segments_expected eq_refl).
  - vm_compute. reflexivity.
  - intros x H. discriminate H.
Defined.

Lemma diarize_audio_unprintable_segment_witness :
  TestService.diarize "clip.webm"%string (Some "[null text]"%string)
    (Some "[512 ones]"%string) =
  HTTPException 500 ("Diarization failed: " ++ TestService.str TypeError).
Proof.
  apply (diarize_audio_unprintable_segment TestLib.test_lib TestService.convert_to_wav
           TestService.get_duration TestService.librosa_load
           TestService.json_loads TestService.np_array TestService.int_of_str
           TestService.cosine_nd TestService.coerce_float TestService.coerce_str
           TestService.segment_embedding TestService.temp_dir TestService.str
           "clip.webm"%string "[null text]"%string "clip.webm.converted.wav"%string
           [("start", JFloat 0); ("end", JFloat 0.31); ("text", JNull)]%string []
           JNull TypeError (Some "[512 ones]"%string));
    [reflexivity | discriminate | reflexivity | reflexivity | reflexivity].
Defined.

Lemma diarize_audio_succeeds_witness :
  exists response,
    TestService.diarize "clip.webm"%string (Some "[three segments]"%string) None =
      Response response /\
    List.length (dr_segments response) = List.length TestService.sample_segments.
Proof.
  exact (diarize_audio_succeeds TestLib.test_lib TestService.convert_to_wav
           TestService.get_duration TestService.librosa_load
           TestService.json_loads TestService.np_array TestService.int_of_str
           TestService.cosine_nd TestService.coerce_float TestService.coerce_str
           TestService.segment_embedding TestService.temp_dir TestService.str
           "clip.webm"%string (Some "[three segments]"%string) None
           "clip.webm.converted.wav"%string
           TestService.sample_segments (TestService.silence 7000)
           test_lib_spec eq_refl (sample_segment_list _) sample_segments_expected eq_refl
           segment_embedding_wf I).
Defined.

Lemma enroll_voice_statuses_witness :
  TestService.enroll "short.webm"%string =
    HTTPException 500
      "Voice enrollment failed: 400: Failed to extract voice embedding. Audio may be too short or invalid."%string /\
  TestService.enroll "voice.webm"%string = Response TestService.embedding_512.
Proof.
  split.
  - exact (proj1 (proj2 (enroll_voice_statuses TestService.convert_to_wav
                           TestService.segment_embedding TestService.str "short.webm"%string))
                 "short.webm.converted.wav"%string eq_refl eq_refl).
  - exact (proj2 (proj2 (enroll_voice_statuses TestService.convert_to_wav
                           TestService.segment_embedding TestService.str "voice.webm"%string))
                 "voice.webm.converted.wav"%string TestService.embedding_512 eq_refl eq_refl).
Defined.

Lemma load_model_once_witness :
  model TestService.loaded_globals = Some TestService.sample_model /\
  device TestService.loaded_globals = Some "cpu"%string /\
  TestService.load TestService.loaded_globals =
    (Returned (TestService.sample_model, Some "cpu"%string), TestService.loaded_globals).
Proof.
  exact (load_model_once _ _ _ _ _ _ _ _ _ _ _ _ _ _ TestService.no_globals _ _ _
           load_sample).
Defined.

Lemma load_model_failed_checkpoint_witness :
  exists g2,
    TestService.load_with TestService.failing_checkpoint TestService.no_globals =
      (Raised (OtherError "checkpoint not found"%string), g2) /\
    model g2 = Some "xtts"%string /\
    health_check g2 = true /\
    TestService.load_with TestService.failing_checkpoint g2 =
      (Returned ("xtts"%string, device g2), g2).
Proof.
  exact (load_model_failed_checkpoint string string string (Some "/models/xtts"%string)
           TestService.path_exists TestService.path_str path_join
           (Returned "/cache/xtts_v2"%string) false TestService.torch_device
           TestService.load_config TestService.setup_tts_model
           TestService.failing_checkpoint TestService.model_to
           TestService.no_globals TestService.no_globals
           "/models/xtts"%string "/models/xtts/config.json"%string
           "config of /models/xtts/config.json"%string "xtts"%string
           (OtherError "checkpoint not found"%string) eq_refl eq_refl eq_refl eq_refl eq_refl).
Defined.

Lemma load_model_uses_configured_path_witness :
  (In DownloadModel (calls (snd (TestService.load TestService.no_globals))) ->
   In DownloadModel (calls TestService.no_globals)) /\
  (forall config_path,
     In (LoadConfig config_path) (calls (snd (TestService.load TestService.no_globals))) ->
     In (LoadConfig config_path) (calls TestService.no_globals) \/
     config_path = path_join "/models/xtts"%string "config.json"%string) /\
  (forall checkpoint_dir,
     In (LoadCheckpoint checkpoint_dir)
        (calls (snd (TestService.load TestService.no_globals))) ->
     In (LoadCheckpoint checkpoint_dir) (calls TestService.no_globals) \/
     checkpoint_dir = TestService.path_str "/models/xtts"%string).
Proof.
  exact (load_model_uses_configured_path string string string
           (Some "/models/xtts"%string) TestService.path_exists TestService.path_str
           path_join (Returned "/cache/xtts_v2"%string) false TestService.torch_device
           TestService.load_config TestService.setup_tts_model
           TestService.load_checkpoint TestService.model_to
           TestService.no_globals "/models/xtts"%string eq_refl eq_refl eq_refl).
Defined.

Lemma get_speaker_embedding_lengths_witness :
  exists tts audio gpt_cond_len max_ref_length,
    TestService.librosa_load "whole.wav"%string = Returned audio /\
    (float_of_Z (Z.of_nat (List.length audio)) / float_of_Z sr <? 0.5)%float = false /\
    TestService.get_conditioning_latents tts "whole.wav"%string gpt_cond_len max_ref_length =
      Returned [1; 1]%float /\
    (0 <= gpt_cond_len <= 30)%Z /\
    (0 <= max_ref_length <= 60)%Z /\
    (gpt_cond_len <= max_ref_length)%Z.
Proof.
  exact (get_speaker_embedding_lengths _ _ _ _ _ _ _ _ _ _ _ _ _ _ _ _ _ _ _ _
           embed_sample).
Defined.

Lemma get_speaker_embedding_sub_second_witness :
  TestService.embed "sub_second.wav"%string TestService.no_globals =
  (match TestService.get_conditioning_latents TestService.sample_model
           "sub_second.wav"%string 0 0 with
   | Returned speaker_embedding => Some speaker_embedding
   | Raised _ => None
   end, TestService.loaded_globals).
Proof.
  apply (get_speaker_embedding_sub_second string string string
           (Some "/models/xtts"%string) TestService.path_exists TestService.path_str
           path_join (Returned "/cache/xtts_v2"%string) false TestService.torch_device
           TestService.load_config TestService.setup_tts_model
           TestService.load_checkpoint TestService.model_to TestService.librosa_load
           TestService.get_conditioning_latents "sub_second.wav"%string
           TestService.no_globals TestService.loaded_globals TestService.sample_model
           (Some "cpu"%string) (TestService.silence 12000) load_sample eq_refl).
  - vm_compute. reflexivity.
  - vm_compute. reflexivity.
Defined.

Lemma get_speaker_embedding_too_short_witness :
  TestService.embed "short.wav"%string TestService.no_globals =
  (None, snd (TestService.load TestService.no_globals)).
Proof.
  apply (get_speaker_embedding_too_short string string string
           (Some "/models/xtts"%string) TestService.path_exists TestService.path_str
           path_join (Returned "/cache/xtts_v2"%string) false TestService.torch_device
           TestService.load_config TestService.setup_tts_model
           TestService.load_checkpoint TestService.model_to TestService.librosa_load
           TestService.get_conditioning_latents "short.wav"%string
           TestService.no_globals (TestService.silence 5000) eq_refl).
  vm_compute. reflexivity.
Defined.

Lemma cluster_speakers_labels_witness :
  List.length ["speaker_0"%string; "speaker_1"%string; "speaker_1"%string; "speaker_1"%string; "speaker_1"%string;
               "speaker_1"%string] = List.length TestLib.sample_embeddings /\
  Forall (fun l => exists c, l = ("speaker_" ++ str_of_nat c)%string)
         ["speaker_0"%string; "speaker_1"%string; "speaker_1"%string; "speaker_1"%string; "speaker_1"%string;
          "speaker_1"%string].
Proof.
  exact (cluster_speakers_labels TestLib.test_lib TestLib.sample_embeddings [] _
           cluster_speakers_sample).
Defined.

Lemma cluster_speakers_personalized_labels_witness :
  List.length [Some "YOU"%string; Some "YOU"%string; Some "OTHER_0"%string; Some "OTHER_1"%string; Some "OTHER_1"%string;
               Some "YOU"%string] = List.length TestLib.sample_embeddings /\
  Forall (fun l => l = Some "YOU"%string \/ l = Some "OTHER"%string \/
                   exists c, l = Some ("OTHER_" ++ str_of_nat c)%string)
         [Some "YOU"%string; Some "YOU"%string; Some "OTHER_0"%string; Some "OTHER_1"%string; Some "OTHER_1"%string;
          Some "YOU"%string].
Proof.
  exact (cluster_speakers_personalized_labels TestLib.test_lib TestLib.sample_embeddings
           TestLib.sample_user 0.45%float _ cluster_speakers_personalized_sample).
Defined.

Lemma cluster_speakers_at_most_ten_witness :
  exists labels,
    cluster_speakers TestLib.test_lib TestLib.sample_embeddings [] = Ok labels /\
    Forall (fun l => exists c, c < 10 /\ l = ("speaker_" ++ str_of_nat c)%string) labels /\
    List.length (nodup string_dec labels) <= 10.
Proof.
  exact (cluster_speakers_at_most_ten TestLib.test_lib 2 TestLib.sample_embeddings []
           test_lib_spec (Nat.lt_0_succ 1) sample_embeddings_wf).
Defined.

Lemma personalized_at_most_five_others_witness :
  exists labels,
    cluster_speakers_personalized TestLib.test_lib TestLib.sample_embeddings
      TestLib.sample_user 0.45%float = Ok labels /\
    Forall (fun l => l = Some "YOU"%string \/ l = Some "OTHER"%string \/
                     exists c, c < 5 /\ l = Some ("OTHER_" ++ str_of_nat c)%string)
           labels.
Proof.
  exact (personalized_at_most_five_others TestLib.test_lib 2 TestLib.sample_embeddings
           TestLib.sample_user 0.45%float test_lib_spec (Nat.lt_0_succ 1)
           sample_embeddings_wf eq_refl).
Defined.

Lemma diarize_audio_speaker_names_witness :
  exists c, "speaker_0"%string = ("speaker_" ++ str_of_nat c)%string.
Proof.
  exact (diarize_audio_speaker_names _ _ _ _ _ _ _ _ _ _ _ _ _ _ _ None _
           "speaker_0"%string diarize_sample (or_introl eq_refl)).
Defined.
